(** * Traffic Violation Management System: the front-end aggregation logic

    A shallow embedding of [frontend/js/main.js]: the global record arrays,
    the handlers that register a violation and mark one as paid, and the
    functions that recompute the dashboard and analytics figures.

    Conventions of the embedding.
    - The JavaScript globals ([violations], [violationTypes], [areas],
      [currentUser]) and the part of the document the script touches form an
      explicit [state]; every function of the script that has an effect is a
      function from states to states.
    - Strings are sequences of ASCII code units.  Case mapping and white
      space outside ASCII are not modelled: what is proved of
      [toUpperCase] and [toLowerCase] is proved of ASCII texts.
    - A Number is [NaN], an infinity or the rational value of a binary64
      number.  Addition, subtraction, multiplication, division and
      [parseFloat] round their exact result to binary64 (to nearest, ties
      to even, overflow to an infinity, gradual underflow); only the sign
      of zero is not modelled.  Identifiers, counts and the base fines of
      the type table are integers, taken as they are: below [2^53] they
      are binary64 numbers.
    - Markup written to [innerHTML] is represented by the data substituted
      into the template (rows of cells, chart bars), not by its text.  The
      script does not escape that data: what is proved of the elements of
      a row (the buttons it offers) is proved of records whose texts hold
      no markup.  Locale formatting ([toLocaleString]) is kept symbolic.
    - The timers that [showAlert] sets are kept in the state, in the order
      in which they fire; the answer to [confirm] is an argument of the
      handler. *)

From Stdlib Require Import ZArith QArith Qround Qreduction Lia Lqa Bool List.
From Stdlib Require Import Ascii String DecimalString DecimalN Permutation Sorted.
From stdpp Require Import gmap strings.

Local Open Scope string_scope.
Local Open Scope list_scope.
Local Open Scope Z_scope.

(** ** The JavaScript built-ins used by the script *)

Module JS.

(** *** Numbers *)

Inductive number :=
| NaN
| Inf (negative : bool)
| Fin (q : Q).

Definition of_Z (z : Z) : number := Fin (inject_Z z).
Definition of_nat (n : nat) : number := of_Z (Z.of_nat n).

Definition Qzero (q : Q) : bool := Qnum q =? 0.
Definition Qneg (q : Q) : bool := Qnum q <? 0.

Definition is_finite (x : number) : bool :=
  match x with Fin _ => true | _ => false end.

Definition neg (x : number) : number :=
  match x with
  | NaN => NaN
  | Inf a => Inf (negb a)
  | Fin q => Fin (- q)
  end.

(** *** binary64

    A finite Number is kept as the rational value of a binary64 number.
    An operation computes its exact result [n / d] and rounds it: with
    [e] the exponent of the last place of the result (53 significant
    bits, and never below [-1074], the last place of the subnormal
    numbers), the result is [m * 2^e] for the integer [m] nearest to
    [n / d / 2^e], the even one when two are as near; from [2^1024] on
    it is an infinity. *)

(** The integer nearest to [n / d], the even one of two. *)
Definition nearest_even (n : Z) (d : positive) : Z :=
  let q := n / Zpos d in
  match 2 * (n mod Zpos d) ?= Zpos d with
  | Lt => q
  | Gt => q + 1
  | Eq => if Z.even q then q else q + 1
  end.

(** The exponent of the last place: [floor (log2 (n / d)) - 52], where
    the logarithm is read off the quotient of [n * 2^1200] by [d], which
    is not zero unless [n / d] is far below the subnormal range. *)
Definition exponent (n d : positive) : Z :=
  Z.max (Z.log2 (Zpos n * 2 ^ 1200 / Zpos d) - 1252) (-1074).

Definition round_positive (n d : positive) : number :=
  let e := exponent n d in
  let m := nearest_even (Zpos n * 2 ^ Z.max 0 (- e)) (d * Z.to_pos (2 ^ Z.max 0 e)) in
  if 2 ^ (1024 - e) <=? m then Inf false
  else Fin (Qred (m * 2 ^ Z.max 0 e # Z.to_pos (2 ^ Z.max 0 (- e)))).

(** The binary64 number nearest to [q]. *)
Definition to_binary64 (q : Q) : number :=
  match Qnum (Qred q) with
  | Z0 => Fin 0
  | Zpos n => round_positive n (Qden (Qred q))
  | Zneg n => neg (round_positive n (Qden (Qred q)))
  end.

Definition nearest (x : number) : number :=
  match x with
  | Fin q => to_binary64 q
  | _ => x
  end.

Arguments to_binary64 : simpl never.

(** [x + y] *)
Definition add (x y : number) : number :=
  match x, y with
  | NaN, _ | _, NaN => NaN
  | Inf a, Inf b => if Bool.eqb a b then Inf a else NaN
  | Inf a, Fin _ => Inf a
  | Fin _, Inf b => Inf b
  | Fin p, Fin q => to_binary64 (p + q)
  end.

(** [x - y] *)
Definition sub (x y : number) : number := add x (neg y).

(** [x * y] *)
Definition mul (x y : number) : number :=
  match x, y with
  | NaN, _ | _, NaN => NaN
  | Inf a, Inf b => Inf (xorb a b)
  | Inf a, Fin q | Fin q, Inf a =>
      if Qzero q then NaN else Inf (xorb a (Qneg q))
  | Fin p, Fin q => to_binary64 (p * q)
  end.

(** [x / y]; a zero divisor counts as [+0]. *)
Definition div (x y : number) : number :=
  match x, y with
  | NaN, _ | _, NaN => NaN
  | Inf _, Inf _ => NaN
  | Inf a, Fin q => Inf (xorb a (Qneg q))
  | Fin _, Inf _ => Fin 0
  | Fin p, Fin q =>
      if Qzero q then (if Qzero p then NaN else Inf (Qneg p))
      else to_binary64 (p / q)
  end.

(** [x > y] *)
Definition gt (x y : number) : bool :=
  match x, y with
  | NaN, _ | _, NaN => false
  | Inf a, Inf b => negb a && b
  | Inf a, Fin _ => negb a
  | Fin _, Inf b => b
  | Fin p, Fin q => negb (Qle_bool p q)
  end.

(** [x === y] on Numbers (and [x == y], which agrees with it there). *)
Definition num_eq (x y : number) : bool :=
  match x, y with
  | Inf a, Inf b => Bool.eqb a b
  | Fin p, Fin q => Qeq_bool p q
  | _, _ => false
  end.

(** *** Strings *)

Definition truthy_string (s : string) : bool :=
  match s with EmptyString => false | String _ _ => true end.

Definition is_lower (c : ascii) : bool :=
  (97 <=? nat_of_ascii c)%nat && (nat_of_ascii c <=? 122)%nat.

Definition upper_char (c : ascii) : ascii :=
  if is_lower c then ascii_of_nat (nat_of_ascii c - 32) else c.

(** [s.toUpperCase()] *)
Fixpoint toUpperCase (s : string) : string :=
  match s with
  | EmptyString => EmptyString
  | String c r => String (upper_char c) (toUpperCase r)
  end.

(** [s.replace(a, b)] for one-character strings [a] and [b]: only the
    first occurrence is replaced. *)
Fixpoint replace_char (a b : ascii) (s : string) : string :=
  match s with
  | EmptyString => EmptyString
  | String c r =>
      if Ascii.eqb c a then String b r else String c (replace_char a b r)
  end.

Definition is_space (c : ascii) : bool :=
  let n := nat_of_ascii c in
  ((9 <=? n)%nat && (n <=? 13)%nat) || (n =? 32)%nat.

Fixpoint trim_start (s : string) : string :=
  match s with
  | String c r => if is_space c then trim_start r else s
  | EmptyString => s
  end.

(** The string without its trailing white space. *)
Fixpoint trim_end (s : string) : string :=
  match s with
  | EmptyString => EmptyString
  | String c r =>
      match trim_end r with
      | EmptyString => if is_space c then EmptyString else String c EmptyString
      | r' => String c r'
      end
  end.

Definition trim (s : string) : string := trim_end (trim_start s).

(** [String(z)] for an integer. *)
Definition Z_to_string (z : Z) : string :=
  match z with
  | Z0 => "0"
  | Zpos p => NilZero.string_of_uint (Pos.to_uint p)
  | Zneg p => String "-" (NilZero.string_of_uint (Pos.to_uint p))
  end.

Definition nat_to_string (n : nat) : string := Z_to_string (Z.of_nat n).

(** *** Numeric literals *)

(** The longest prefix of decimal digits, and what follows it. *)
Fixpoint take_digits (s : string) : Decimal.uint * string :=
  match s with
  | EmptyString => (Decimal.Nil, s)
  | String c r =>
      let (d, rest) := take_digits r in
      match uint_of_char c (Some d) with
      | Some d' => (d', rest)
      | None => (Decimal.Nil, s)
      end
  end.

Definition uint_value (d : Decimal.uint) : Z := Z.of_N (N.of_uint d).

Fixpoint pow10 (n : nat) : positive :=
  match n with O => 1%positive | S m => (10 * pow10 m)%positive end.

Definition is_nil (d : Decimal.uint) : bool :=
  match d with Decimal.Nil => true | _ => false end.

(** [ExponentPart]: [e] or [E], an optional sign, at least one digit.
    Without a well-formed exponent nothing is consumed. *)
Definition take_exponent (s : string) : option Z * string :=
  match s with
  | String c r =>
      if Ascii.eqb c "e" || Ascii.eqb c "E" then
        let '(sg, r') :=
          match r with
          | String "+" t => (1, t)
          | String "-" t => (-1, t)
          | _ => (1, r)
          end in
        let (d, rest) := take_digits r' in
        if is_nil d then (None, s) else (Some (sg * uint_value d), rest)
      else (None, s)
  | EmptyString => (None, s)
  end.

Definition scale (q : Q) (e : option Z) : Q :=
  match e with
  | None => q
  | Some k => (q * Qpower (inject_Z 10) k)%Q
  end.

Definition with_fraction (i f : Decimal.uint) : Q :=
  (inject_Z (uint_value i) + (uint_value f # pow10 (Decimal.nb_digits f)))%Q.

Definition strip_prefix (p s : string) : option string :=
  if String.prefix p s
  then Some (String.substring (String.length p) (String.length s - String.length p) s)
  else None.

(** The longest prefix that is a [StrUnsignedDecimalLiteral], with its
    value, and what follows it. *)
Definition take_unsigned_literal (s : string) : option (number * string) :=
  match strip_prefix "Infinity" s with
  | Some rest => Some (Inf false, rest)
  | None =>
      let (i, r1) := take_digits s in
      if is_nil i then
        match s with
        | String "." r2 =>
            let (f, r3) := take_digits r2 in
            if is_nil f then None
            else let (e, rest) := take_exponent r3 in
                 Some (Fin (scale (with_fraction Decimal.Nil f) e), rest)
        | _ => None
        end
      else
        match r1 with
        | String "." r2 =>
            let (f, r3) := take_digits r2 in
            let (e, rest) := take_exponent r3 in
            Some (Fin (scale (with_fraction i f) e), rest)
        | _ =>
            let (e, rest) := take_exponent r1 in
            Some (Fin (scale (inject_Z (uint_value i)) e), rest)
        end
  end.

(** The longest prefix that is a [StrDecimalLiteral]. *)
Definition take_literal (s : string) : option (number * string) :=
  match s with
  | String "+" r => take_unsigned_literal r
  | String "-" r =>
      match take_unsigned_literal r with
      | Some (x, rest) => Some (neg x, rest)
      | None => None
      end
  | _ => take_unsigned_literal s
  end.

(** [parseFloat(s)]: the Number nearest to the value of the literal. *)
Definition parseFloat (s : string) : number :=
  match take_literal (trim_start s) with
  | Some (x, _) => nearest x
  | None => NaN
  end.

Definition digit_in_base (base : Z) (c : ascii) : option Z :=
  let n := Z.of_nat (nat_of_ascii c) in
  let v := if (48 <=? n) && (n <=? 57) then n - 48
           else if (97 <=? n) && (n <=? 122) then n - 87
           else if (65 <=? n) && (n <=? 90) then n - 55
           else base in
  if v <? base then Some v else None.

Fixpoint digits_in_base (base : Z) (acc : Z) (s : string) : option Z :=
  match s with
  | EmptyString => Some acc
  | String c r =>
      match digit_in_base base c with
      | Some v => digits_in_base base (acc * base + v) r
      | None => None
      end
  end.

(** A [NonDecimalIntegerLiteral]: [0x], [0o] or [0b] and its digits. *)
Definition non_decimal_literal (s : string) : option Z :=
  match s with
  | String "0" (String c (String d r)) =>
      let body := String d r in
      if Ascii.eqb c "x" || Ascii.eqb c "X" then digits_in_base 16 0 body
      else if Ascii.eqb c "o" || Ascii.eqb c "O" then digits_in_base 8 0 body
      else if Ascii.eqb c "b" || Ascii.eqb c "B" then digits_in_base 2 0 body
      else None
  | _ => None
  end.

(** [Number(s)], the conversion behind [n == s]. *)
Definition ToNumber (s : string) : number :=
  match trim s with
  | EmptyString => Fin 0
  | t =>
      match non_decimal_literal t with
      | Some z => of_Z z
      | None =>
          match take_literal t with
          | Some (x, EmptyString) => x
          | _ => NaN
          end
      end
  end.

(** [n == s] for a Number [n] and a String [s]. *)
Definition loose_eq (n : number) (s : string) : bool := num_eq n (ToNumber s).

(** *** [Number.prototype.toFixed] *)

(** The integer [n] for which [n - q] is closest to zero, the larger one
    when there are two. *)
Definition round_half_up (q : Q) : Z := Qfloor (q + (1 # 2)).

Fixpoint zeros (n : nat) : string :=
  match n with O => EmptyString | S m => String "0" (zeros m) end.

(** The digits of [n], with a point before the last [f] of them. *)
Definition fixed_digits (n : Z) (f : nat) : string :=
  let m := Z_to_string n in
  match f with
  | O => m
  | S _ =>
      let m' := if (String.length m <=? f)%nat
                then zeros (f + 1 - String.length m) +:+ m else m in
      let k := String.length m' in
      String.substring 0 (k - f) m' +:+ "." +:+ String.substring (k - f) f m'
  end.

(** The number of units of [10^-f] that [x.toFixed(f)] shows for a
    non-negative [x]. *)
Definition fixed_units (q : Q) (f : nat) : Z :=
  round_half_up (q * inject_Z (Zpos (pow10 f))).

(** Whether the Number nearest to the integer [c] is the integer [v]. *)
Definition reads_as (v c : Z) : bool :=
  match to_binary64 (inject_Z c) with
  | Fin q => Qeq_bool q (inject_Z v)
  | _ => false
  end.

(** The integer [s * 10^(n-k)] with the fewest digits [k] that reads as
    the integer [v] of [n] digits; of two with as many digits, the one
    nearest to [v], that of the even [s] when they are as near. *)
Fixpoint shortest (v : Z) (n k fuel : nat) : Z :=
  match fuel with
  | O => v
  | S fuel' =>
      let p := 10 ^ Z.of_nat (n - k) in
      let s := v / p in
      match reads_as v (s * p), reads_as v ((s + 1) * p) with
      | false, false => shortest v n (S k) fuel'
      | true, false => s * p
      | false, true => (s + 1) * p
      | true, true =>
          match v - s * p ?= (s + 1) * p - v with
          | Lt => s * p
          | Gt => (s + 1) * p
          | Eq => if Z.even s then s * p else (s + 1) * p
          end
      end
  end.

Fixpoint strip_zeros (s : string) : string :=
  match s with
  | EmptyString => EmptyString
  | String c r =>
      match strip_zeros r with
      | EmptyString => if Ascii.eqb c "0" then EmptyString else String c EmptyString
      | r' => String c r'
      end
  end.

(** [String(v)] for a Number [v] from [10^21] on, which is an integer:
    the digits of the shortest numeral that reads as [v], a point after
    the first one, and the exponent. *)
Definition exponential (v : Z) : string :=
  let n := String.length (Z_to_string v) in
  let c := Z_to_string (shortest v n 1 17) in
  let e := Z_to_string (Z.of_nat (String.length c) - 1) in
  match strip_zeros c with
  | String d EmptyString => String d ("e+" +:+ e)
  | String d r => String d ("." +:+ r +:+ "e+" +:+ e)
  | EmptyString => EmptyString
  end.

(** The digits of [x.toFixed(f)] for a non-negative [x]: exponent
    notation from [10^21] on. *)
Definition fixed (q : Q) (f : nat) : string :=
  if Qle_bool (inject_Z (10 ^ 21)) q then exponential (Qfloor q)
  else fixed_digits (fixed_units q f) f.

(** [x.toFixed(f)] *)
Definition toFixed (x : number) (f : nat) : string :=
  match x with
  | NaN => "NaN"
  | Inf false => "Infinity"
  | Inf true => "-Infinity"
  | Fin q => if Qneg q then String "-" (fixed (- q) f) else fixed q f
  end.

(** *** Objects used as counters

    [const stats = {}] followed by [stats[k] = (stats[k] || 0) + 1].
    The object inherits from [Object.prototype], so a key that names one
    of its members reads that member instead of [undefined]; adding [1]
    to it gives a string.  Writing to [__proto__] with a primitive value
    creates no property. *)

Inductive stat :=
| Count (n : nat)
| Text (member suffix : string).
  (* the text of an inherited member, followed by [suffix] *)

Definition object := list (string * stat).

Definition Object_prototype_members : list string :=
  [ "constructor"; "__defineGetter__"; "__defineSetter__"; "hasOwnProperty";
    "__lookupGetter__"; "__lookupSetter__"; "isPrototypeOf";
    "propertyIsEnumerable"; "toString"; "valueOf"; "__proto__";
    "toLocaleString" ].

Definition inherited (k : string) : bool :=
  existsb (String.eqb k) Object_prototype_members.

Inductive property :=
| Undefined
| Own (v : stat)
| Member (name : string).

Fixpoint own (o : object) (k : string) : option stat :=
  match o with
  | [] => None
  | (k', v) :: r => if String.eqb k' k then Some v else own r k
  end.

(** [o[k]] *)
Definition get (o : object) (k : string) : property :=
  match own o k with
  | Some v => Own v
  | None => if inherited k then Member k else Undefined
  end.

(** [(p || 0) + 1] *)
Definition bump (p : property) : stat :=
  match p with
  | Undefined => Count 1
  | Own (Count n) => Count (n + 1)
  | Own (Text m s) => Text m (s +:+ "1")
  | Member m => Text m "1"
  end.

Fixpoint put (o : object) (k : string) (v : stat) : object :=
  match o with
  | [] => [(k, v)]
  | (k', v') :: r =>
      if String.eqb k' k then (k', v) :: r else (k', v') :: put r k v
  end.

(** [o[k] = v] *)
Definition set (o : object) (k : string) (v : stat) : object :=
  if String.eqb k "__proto__" then o else put o k v.

(** An array index: the canonical decimal string of an integer below
    [2^32 - 1]. *)
Definition array_index (k : string) : option Z :=
  let (d, rest) := take_digits k in
  let v := uint_value d in
  if negb (truthy_string rest) && String.eqb (Z_to_string v) k
     && (v <=? 4294967294)
  then Some v else None.

Fixpoint insert_by_index (e : Z * (string * stat))
    (l : list (Z * (string * stat))) : list (Z * (string * stat)) :=
  match l with
  | [] => [e]
  | e' :: r => if fst e <=? fst e' then e :: l else e' :: insert_by_index e r
  end.

Definition sort_by_index (l : list (Z * (string * stat))) :=
  fold_right insert_by_index [] l.

Fixpoint indexed (o : object) : list (Z * (string * stat)) :=
  match o with
  | [] => []
  | e :: r =>
      match array_index (fst e) with
      | Some i => (i, e) :: indexed r
      | None => indexed r
      end
  end.

Definition named (o : object) : object :=
  List.filter (fun e => match array_index (fst e) with
                        | Some _ => false
                        | None => true
                        end) o.

(** [Object.entries(o)]: the array indices in ascending order, then the
    other keys in the order of their creation. *)
Definition entries (o : object) : list (string * stat) :=
  map snd (sort_by_index (indexed o)) ++ named o.

(** The Number a counter converts to in [count / n]. *)
Definition stat_number (v : stat) : number :=
  match v with
  | Count n => of_nat n
  | Text _ _ => NaN
  end.

End JS.

Import JS.

(** ** The data of the page *)

(** An entry of [violations]. *)
Record Violation := {
  violation_id : Z;
  vehicle_number : string;
  owner_name : string;
  type_name : string;
  area_name : string;
  violation_date : string;
  fine_amount : number;
  status : string
}.

(** An entry of [violationTypes]. *)
Module ViolationType.
Record t := { type_id : Z; type_name : string; base_fine : Z }.
End ViolationType.

(** An entry of [areas]. *)
Module Area.
Record t := { area_id : Z; area_name : string; city : string }.
End Area.

(** [currentUser], as parsed from the session storage. *)
Record User := { username : string; role : string }.

(** A row of the table [payments] of [database/database.sql]. *)
Record Payment := {
  payment_violation : Z;
  payment_date : string;
  amount_paid : number;
  payment_method : string
}.

(** [formData] of [registerViolation]. *)
Module FormData.
Record t := {
  vehicle_number : string;
  type_id : string;
  area_id : string;
  violation_date : string;
  fine_amount : string;
  notes : string
}.
End FormData.

(** *** The document *)

Inductive cell :=
| Plain (text : string)
| Money (amount : number)        (* the rupee sign and [amount.toLocaleString('en-IN', ..)] *)
| DateTime (date : string)       (* [new Date(date).toLocaleString('en-IN', ..)] *)
| Badge (status : string)        (* the span of class [badge status-..] *)
| MarkPaidButton (id : Z).       (* the button that calls [markAsPaid(id)] *)

Record bar := { label : string; count : stat; percentage : string }.

Inductive markup :=
| Blank
| Cell (c : cell)
| Rows (rows : list (list cell))
| Chart (bars : list bar)
| AlertBox (type message : string).

Record element := {
  value : string;
  defaultValue : string;
  innerHTML : markup;
  display : string
}.

Definition with_value (s : string) (e : element) : element :=
  {| value := s; defaultValue := defaultValue e;
     innerHTML := innerHTML e; display := display e |}.

Definition with_innerHTML (m : markup) (e : element) : element :=
  {| value := value e; defaultValue := defaultValue e;
     innerHTML := m; display := display e |}.

Definition with_display (d : string) (e : element) : element :=
  {| value := value e; defaultValue := defaultValue e;
     innerHTML := innerHTML e; display := d |}.

(** *** The state

    The four globals of the script and the elements of the document by
    their [id].  [payments] is the table of that name in the schema: the
    script holds no copy of it, and reaches the store only through calls
    that are commented out.  [timers] holds the callbacks that [showAlert]
    has handed to [setTimeout] and that have not run yet, each by the [id]
    of the container it will hide, the oldest first: the delay is the same
    for all, so they run in the order of their creation. *)
Record state := {
  currentUser : option User;
  violations : list Violation;
  violationTypes : list ViolationType.t;
  areas : list Area.t;
  document : gmap string element;
  payments : list Payment;
  timers : list string
}.

Definition with_violations (vs : list Violation) (st : state) : state :=
  {| currentUser := currentUser st; violations := vs;
     violationTypes := violationTypes st; areas := areas st;
     document := document st; payments := payments st; timers := timers st |}.

Definition with_violationTypes (ts : list ViolationType.t) (st : state) : state :=
  {| currentUser := currentUser st; violations := violations st;
     violationTypes := ts; areas := areas st;
     document := document st; payments := payments st; timers := timers st |}.

Definition with_areas (ars : list Area.t) (st : state) : state :=
  {| currentUser := currentUser st; violations := violations st;
     violationTypes := violationTypes st; areas := ars;
     document := document st; payments := payments st; timers := timers st |}.

Definition with_document (d : gmap string element) (st : state) : state :=
  {| currentUser := currentUser st; violations := violations st;
     violationTypes := violationTypes st; areas := areas st;
     document := d; payments := payments st; timers := timers st |}.

Definition with_timers (ts : list string) (st : state) : state :=
  {| currentUser := currentUser st; violations := violations st;
     violationTypes := violationTypes st; areas := areas st;
     document := document st; payments := payments st; timers := ts |}.

(** [document.getElementById(id)] followed by a change of the element. *)
Definition update (id : string) (f : element -> element) (st : state) : state :=
  match document st !! id with
  | Some e => with_document (<[id := f e]> (document st)) st
  | None => st
  end.

(** ** Utility functions *)

Definition getValue (st : state) (elementId : string) : string :=
  match document st !! elementId with
  | Some e => value e
  | None => EmptyString
  end.

Definition updateElement (elementId : string) (c : cell) (st : state) : state :=
  update elementId (with_innerHTML (Cell c)) st.

(** The value of [cond ? x.toFixed(f) : 0]. *)
Inductive figure :=
| Zero                     (* the Number [0] *)
| Digits (s : string).     (* the String that [toFixed] returns *)

Definition figure_text (r : figure) : string :=
  match r with Zero => "0" | Digits s => s end.

(** [formatCurrency(amount)] for a Number. *)
Definition formatCurrency (amount : number) : cell := Money amount.

(** [formatCurrency(amount)] for the value of a guarded [toFixed]:
    [parseFloat] first converts its argument to a string. *)
Definition formatCurrency_figure (amount : figure) : cell :=
  Money (parseFloat (figure_text amount)).

Definition formatDateTime (dateString : string) : cell :=
  if truthy_string dateString then DateTime dateString else Plain "-".

Definition createStatusBadge (status : string) : cell := Badge status.

Definition createAlertContainer (st : state) : state :=
  match document st !! "globalAlertContainer" with
  | Some _ => st
  | None =>
      with_document
        (<["globalAlertContainer" :=
             {| value := EmptyString; defaultValue := EmptyString;
                innerHTML := Blank; display := EmptyString |}]> (document st)) st
  end.

(** The alert in the container [id], when there is one, and the timer
    that will hide it. *)
Definition alertIn (id message type : string) (st : state) : state :=
  let show e := with_display "block" (with_innerHTML (AlertBox type message) e) in
  match document st !! id with
  | Some _ => with_timers (app (timers st) [id]) (update id show st)
  | None => st
  end.

(** [showAlert(message, type, containerId)]; [None] is the default [null]. *)
Definition showAlert (message type : string) (containerId : option string)
    (st : state) : state :=
  match containerId with
  | Some id =>
      if truthy_string id then alertIn id message type st
      else alertIn "globalAlertContainer" message type (createAlertContainer st)
  | None => alertIn "globalAlertContainer" message type (createAlertContainer st)
  end.

(** The container of the alerts shown with [containerId]. *)
Definition alertContainer (containerId : option string) : string :=
  match containerId with
  | Some id => if truthy_string id then id else "globalAlertContainer"
  | None => "globalAlertContainer"
  end.

(** The callback of a timer: [display = 'none'] and [innerHTML = '']. *)
Definition hide (e : element) : element :=
  with_display "none" (with_innerHTML Blank e).

(** The oldest timer fires. *)
Definition expire (st : state) : state :=
  match timers st with
  | [] => st
  | id :: rest => with_timers rest (update id hide st)
  end.

Definition getViolationTypeName (st : state) (typeId : string) : string :=
  match List.find (fun t => loose_eq (of_Z (ViolationType.type_id t)) typeId)
                  (violationTypes st) with
  | Some t => ViolationType.type_name t
  | None => "Unknown"
  end.

Definition getAreaName (st : state) (areaId : string) : string :=
  match List.find (fun a => loose_eq (of_Z (Area.area_id a)) areaId) (areas st) with
  | Some a => Area.area_name a +:+ ", " +:+ Area.city a
  | None => "Unknown"
  end.

(** ** Data loading: the mock tables *)

Definition loadViolationTypes (st : state) : state :=
  with_violationTypes
    [ {| ViolationType.type_id := 1; ViolationType.type_name := "Speeding";
         ViolationType.base_fine := 500 |};
      {| ViolationType.type_id := 2; ViolationType.type_name := "Red Light Violation";
         ViolationType.base_fine := 1000 |};
      {| ViolationType.type_id := 3; ViolationType.type_name := "No Helmet";
         ViolationType.base_fine := 300 |};
      {| ViolationType.type_id := 4; ViolationType.type_name := "Wrong Parking";
         ViolationType.base_fine := 200 |};
      {| ViolationType.type_id := 5; ViolationType.type_name := "DUI";
         ViolationType.base_fine := 5000 |};
      {| ViolationType.type_id := 6; ViolationType.type_name := "No Seat Belt";
         ViolationType.base_fine := 500 |};
      {| ViolationType.type_id := 7; ViolationType.type_name := "Mobile Phone Usage";
         ViolationType.base_fine := 750 |} ] st.

Definition loadAreas (st : state) : state :=
  with_areas
    [ {| Area.area_id := 1; Area.area_name := "MG Road"; Area.city := "Bangalore" |};
      {| Area.area_id := 2; Area.area_name := "Connaught Place"; Area.city := "Delhi" |};
      {| Area.area_id := 3; Area.area_name := "Marine Drive"; Area.city := "Mumbai" |};
      {| Area.area_id := 4; Area.area_name := "Anna Salai"; Area.city := "Chennai" |};
      {| Area.area_id := 5; Area.area_name := "Park Street"; Area.city := "Kolkata" |} ] st.

Definition loadViolations (st : state) : state :=
  with_violations
    [ {| violation_id := 1; vehicle_number := "KA01AB1234"; owner_name := "John Doe";
         type_name := "Speeding"; area_name := "MG Road";
         violation_date := "2025-01-15 10:30"; fine_amount := of_Z 500;
         status := "paid" |};
      {| violation_id := 2; vehicle_number := "DL02CD5678"; owner_name := "Jane Smith";
         type_name := "Red Light Violation"; area_name := "Connaught Place";
         violation_date := "2025-01-14 14:45"; fine_amount := of_Z 1000;
         status := "unpaid" |};
      {| violation_id := 3; vehicle_number := "MH03EF9012"; owner_name := "Mike Brown";
         type_name := "No Helmet"; area_name := "Marine Drive";
         violation_date := "2025-01-13 09:15"; fine_amount := of_Z 300;
         status := "paid" |} ] st.

(** ** The type drop-down

    [populateViolationTypesDropdown] gives the select [violationType] a
    first option without value and one option per violation type, whose
    [value] is the type's id and whose [dataset.fine] is its base fine. *)

Record option_element := { option_value : string; dataset_fine : option string }.

Definition violationTypeOptions (st : state) : list option_element :=
  {| option_value := EmptyString; dataset_fine := None |}
  :: map (fun t => {| option_value := Z_to_string (ViolationType.type_id t);
                      dataset_fine := Some (Z_to_string (ViolationType.base_fine t)) |})
         (violationTypes st).

(** The user picks option [selectedIndex] of the select: its value
    becomes the select's, and the [change] listener copies the option's
    fine into the input [fineAmount]. *)
Definition changeViolationType (selectedIndex : nat) (st : state) : state :=
  match document st !! "violationType", violationTypeOptions st !! selectedIndex with
  | Some _, Some selectedOption =>
      let st1 := update "violationType" (with_value (option_value selectedOption)) st in
      match document st1 !! "fineAmount", dataset_fine selectedOption with
      | Some _, Some fine =>
          if truthy_string fine then update "fineAmount" (with_value fine) st1
          else st1
      | _, _ => st1
      end
  | _, _ => st
  end.

(** ** Dashboard *)

(** [vs.reduce((sum, v) => sum + v.fine_amount, 0)] *)
Definition sum_fines (vs : list Violation) : number :=
  fold_left (fun sum v => add sum (fine_amount v)) vs (of_Z 0).

Definition has_status (s : string) (v : Violation) : bool :=
  String.eqb (status v) s.

Definition total (vs : list Violation) : number := sum_fines vs.

Definition collected (vs : list Violation) : number :=
  sum_fines (List.filter (has_status "paid") vs).

Definition pending (vs : list Violation) : number :=
  sub (total vs) (collected vs).

Definition updateRecentViolationsTable (st : state) : state :=
  let recentViolations := firstn 5 (violations st) in
  update "recentViolationsBody"
    (with_innerHTML
       (Rows (map (fun v =>
                     [ Plain (Z_to_string (violation_id v));
                       Plain (vehicle_number v);
                       Plain (type_name v);
                       Plain (area_name v);
                       formatDateTime (violation_date v);
                       formatCurrency (fine_amount v);
                       createStatusBadge (status v) ])
                  recentViolations))) st.

Definition updateDashboard (st : state) : state :=
  let vs := violations st in
  let st := updateElement "totalViolations" (Plain (nat_to_string (length vs))) st in
  let st := updateElement "totalFines" (formatCurrency (total vs)) st in
  let st := updateElement "collectedAmount" (formatCurrency (collected vs)) st in
  let st := updateElement "pendingAmount" (formatCurrency (pending vs)) st in
  updateRecentViolationsTable st.

(** ** Violations table *)

Definition createActionButtons (st : state) (violation : Violation) : cell :=
  match currentUser st with
  | Some u =>
      if has_status "unpaid" violation && negb (String.eqb (role u) "citizen")
      then MarkPaidButton (violation_id violation)
      else Plain "-"
  | None => Plain "-"
  end.

Definition loadViolationsTable (st : state) : state :=
  update "violationsTableBody"
    (with_innerHTML
       (Rows (map (fun v =>
                     [ Plain (Z_to_string (violation_id v));
                       Plain (vehicle_number v);
                       Plain (owner_name v);
                       Plain (type_name v);
                       Plain (area_name v);
                       formatDateTime (violation_date v);
                       formatCurrency (fine_amount v);
                       createStatusBadge (status v);
                       createActionButtons st v ])
                  (violations st)))) st.

(** ** Analytics *)

Definition paidCount (vs : list Violation) : nat :=
  length (List.filter (has_status "paid") vs).

Definition unpaidCount (vs : list Violation) : nat :=
  length (List.filter (has_status "unpaid") vs).

Definition collectionRate (vs : list Violation) : figure :=
  if gt (total vs) (of_Z 0)
  then Digits (toFixed (mul (div (collected vs) (total vs)) (of_Z 100)) 1)
  else Zero.

Definition avgFine (vs : list Violation) : figure :=
  if (0 <? length vs)%nat
  then Digits (toFixed (div (total vs) (of_nat (length vs))) 2)
  else Zero.

Definition updateAnalyticsStats (st : state) : state :=
  let vs := violations st in
  let st := updateElement "collectionRate"
              (Plain (figure_text (collectionRate vs) +:+ "%")) st in
  let st := updateElement "paidCount" (Plain (nat_to_string (paidCount vs))) st in
  let st := updateElement "unpaidCount" (Plain (nat_to_string (unpaidCount vs))) st in
  updateElement "avgFine" (formatCurrency_figure (avgFine vs)) st.

(** The loop [vs.forEach(v => { stats[key(v)] = (stats[key(v)] || 0) + 1 })]
    of both charts. *)
Definition countBy (key : Violation -> string) (vs : list Violation) : object :=
  fold_left (fun stats v => set stats (key v) (bump (get stats (key v)))) vs [].

(** [(count / violations.length * 100).toFixed(1)] *)
Definition percentageOf (n : nat) (c : stat) : string :=
  toFixed (mul (div (stat_number c) (of_nat n)) (of_Z 100)) 1.

(** The bars that the loop over [Object.entries(stats)] draws. *)
Definition chartBars (key : Violation -> string) (vs : list Violation) : list bar :=
  map (fun e => {| label := fst e; count := snd e;
                   percentage := percentageOf (length vs) (snd e) |})
      (entries (countBy key vs)).

Definition displayAreaChart (st : state) : state :=
  update "areaChart" (with_innerHTML (Chart (chartBars area_name (violations st)))) st.

Definition displayTypeChart (st : state) : state :=
  update "typeChart" (with_innerHTML (Chart (chartBars type_name (violations st)))) st.

Definition loadAnalytics (st : state) : state :=
  displayTypeChart (displayAreaChart (updateAnalyticsStats st)).

(** ** Violation registration *)

(** [validateViolationForm(data)]: the answer, and the state after the
    alert it may show. *)
Definition validateViolationForm (data : FormData.t) (st : state) : bool * state :=
  if negb (truthy_string (FormData.vehicle_number data)) then
    (false, showAlert "Please enter vehicle number" "error" (Some "registerAlert") st)
  else if negb (truthy_string (FormData.type_id data)) then
    (false, showAlert "Please select violation type" "error" (Some "registerAlert") st)
  else if negb (truthy_string (FormData.area_id data)) then
    (false, showAlert "Please select area" "error" (Some "registerAlert") st)
  else if negb (truthy_string (FormData.violation_date data)) then
    (false, showAlert "Please select date and time" "error" (Some "registerAlert") st)
  else (true, st).

(** The controls of the form [violationForm] that the script reads. *)
Definition formControls : list string :=
  [ "vehicleNumber"; "violationType"; "area"; "violationDate"; "fineAmount"; "notes" ].

(** [form.reset()] *)
Definition resetForm (st : state) : state :=
  fold_left (fun st id => update id (fun e => with_value (defaultValue e) e) st)
            formControls st.

Definition readForm (st : state) : FormData.t :=
  {| FormData.vehicle_number := getValue st "vehicleNumber";
     FormData.type_id := getValue st "violationType";
     FormData.area_id := getValue st "area";
     FormData.violation_date := getValue st "violationDate";
     FormData.fine_amount := getValue st "fineAmount";
     FormData.notes := getValue st "notes" |}.

(** The object literal [newViolation]. *)
Definition newViolation (st : state) (formData : FormData.t) : Violation :=
  {| violation_id := Z.of_nat (length (violations st)) + 1;
     vehicle_number := toUpperCase (FormData.vehicle_number formData);
     owner_name := "Unknown";
     type_name := getViolationTypeName st (FormData.type_id formData);
     area_name := getAreaName st (FormData.area_id formData);
     violation_date := replace_char "T" " " (FormData.violation_date formData);
     fine_amount := parseFloat (FormData.fine_amount formData);
     status := "unpaid" |}.

Definition registerViolation (st : state) : state :=
  let formData := readForm st in
  let (valid, st1) := validateViolationForm formData st in
  if negb valid then st1
  else
    let st2 := with_violations (newViolation st1 formData :: violations st1) st1 in
    let st3 := showAlert "Violation registered successfully!" "success"
                         (Some "registerAlert") st2 in
    match document st3 !! "violationForm" with
    | None => st3   (* [reset] of [null] raises a TypeError: the handler stops *)
    | Some _ => loadViolationsTable (updateDashboard (resetForm st3))
    end.

(** ** Marking a violation as paid *)

Definition with_status (s : string) (v : Violation) : Violation :=
  {| violation_id := violation_id v; vehicle_number := vehicle_number v;
     owner_name := owner_name v; type_name := type_name v;
     area_name := area_name v; violation_date := violation_date v;
     fine_amount := fine_amount v; status := s |}.

(** [violation.status = 'paid'] on the object that [find] returned, which
    is the first entry of the array with that id. *)
Fixpoint payFirst (violationId : Z) (vs : list Violation) : list Violation :=
  match vs with
  | [] => []
  | v :: r =>
      if violation_id v =? violationId then with_status "paid" v :: r
      else v :: payFirst violationId r
  end.

(** [markAsPaid(violationId)]; [confirmed] is the answer to [confirm]. *)
Definition markAsPaid (violationId : Z) (confirmed : bool) (st : state) : state :=
  match List.find (fun v => violation_id v =? violationId) (violations st) with
  | None => showAlert "Violation not found" "error" None st
  | Some _ =>
      if confirmed then
        let st1 := with_violations (payFirst violationId (violations st)) st in
        let st2 := showAlert "Payment recorded successfully!" "success" None st1 in
        loadAnalytics (loadViolationsTable (updateDashboard st2))
      else st
  end.

(** ** A page to run the script on *)

Definition blank : element :=
  {| value := EmptyString; defaultValue := EmptyString;
     innerHTML := Blank; display := EmptyString |}.

(** The dashboard page with every element the script looks up, an officer
    logged in and the mock tables loaded. *)
Definition dashboardPage : state :=
  loadViolations (loadAreas (loadViolationTypes
    {| currentUser := Some {| username := "officer1"; role := "officer" |};
       violations := []; violationTypes := []; areas := [];
       document :=
         list_to_map
           (map (fun id => (id, blank))
                ([ "totalViolations"; "totalFines"; "collectedAmount"; "pendingAmount";
                   "recentViolationsBody"; "violationsTableBody"; "registerAlert";
                   "violationForm"; "collectionRate"; "paidCount"; "unpaidCount";
                   "avgFine"; "areaChart"; "typeChart" ] ++ formControls));
       payments := []; timers := [] |})).

(** The page after the user has typed [s] into the control [id]. *)
Definition typed (id s : string) (st : state) : state := update id (with_value s) st.

(** The page with the registration form filled in by hand. *)
Definition filledForm : state :=
  typed "vehicleNumber" "ka05xy0001"
    (typed "violationType" "5"
       (typed "area" "2"
          (typed "violationDate" "2025-02-01T10:00"
             (typed "fineAmount" "4500.50" dashboardPage)))).

(** The officer picks the fifth type, then fills in the rest of the form. *)
Definition pickedForm : state :=
  typed "vehicleNumber" "ka05xy0001"
    (typed "area" "2"
       (typed "violationDate" "2025-02-01T10:00"
          (changeViolationType 5 dashboardPage))).


(** The records after a registration whose fine input was left empty. *)
Definition registeredWithoutFine : list Violation :=
  violations
    (registerViolation
       (typed "vehicleNumber" "KA09ZZ0001"
          (typed "violationType" "1"
             (typed "area" "1"
                (typed "violationDate" "2025-02-01T09:00"
                   (with_violations [] dashboardPage)))))).

(** Two violations whose types are named by the numbers of the sections
    they fall under, the larger number first. *)
Definition sectionNumbered : list Violation :=
  [ {| violation_id := 1; vehicle_number := "KA01AB1234"; owner_name := "John Doe";
       type_name := "185"; area_name := "MG Road";
       violation_date := "2025-01-15 10:30"; fine_amount := of_Z 5000;
       status := "unpaid" |};
    {| violation_id := 2; vehicle_number := "DL02CD5678"; owner_name := "Jane Smith";
       type_name := "184"; area_name := "Connaught Place";
       violation_date := "2025-01-14 14:45"; fine_amount := of_Z 1000;
       status := "unpaid" |} ].

(** Three records with fines that are not whole numbers, the first of
    them paid. *)
Definition fractionalFines : list Violation :=
  [ {| violation_id := 1; vehicle_number := "KA01AB1234"; owner_name := "John Doe";
       type_name := "Speeding"; area_name := "MG Road";
       violation_date := "2025-01-15 10:30"; fine_amount := parseFloat "0.1";
       status := "paid" |};
    {| violation_id := 2; vehicle_number := "DL02CD5678"; owner_name := "Jane Smith";
       type_name := "Red Light Violation"; area_name := "Connaught Place";
       violation_date := "2025-01-14 14:45"; fine_amount := parseFloat "0.3";
       status := "unpaid" |};
    {| violation_id := 3; vehicle_number := "MH03EF9012"; owner_name := "Mike Brown";
       type_name := "No Helmet"; area_name := "Marine Drive";
       violation_date := "2025-01-13 09:15"; fine_amount := parseFloat "0.05";
       status := "unpaid" |} ].

(** ** The figures in the words of the specification *)

Module Spec.

(** The sum of a sequence of whole amounts. *)
Definition sumZ (zs : list Z) : Z := fold_right Z.add 0 zs.

(** The number of records whose status is [s]. *)
Fixpoint countStatus (s : string) (vs : list Violation) : nat :=
  match vs with
  | [] => 0%nat
  | v :: r => if String.eqb (status v) s then S (countStatus s r) else countStatus s r
  end.

(** The number of records whose status is neither [paid] nor [unpaid]. *)
Fixpoint countOther (vs : list Violation) : nat :=
  match vs with
  | [] => 0%nat
  | v :: r =>
      if String.eqb (status v) "paid" || String.eqb (status v) "unpaid"
      then countOther r else S (countOther r)
  end.

(** The number of occurrences of the key [k]. *)
Fixpoint occurrences (k : string) (ks : list string) : nat :=
  match ks with
  | [] => 0%nat
  | k' :: r => if String.eqb k' k then S (occurrences k r) else occurrences k r
  end.

(** The distinct keys, each at the place of its first occurrence. *)
Definition firstOccurrences (ks : list string) : list string :=
  fold_left (fun seen k => if existsb (String.eqb k) seen then seen else app seen [k])
            ks [].

(** The number of tenths of a percent nearest to [100 * c / n], the
    larger one when two are as near. *)
Definition tenths (c n : nat) : Z :=
  (2000 * Z.of_nat c + Z.of_nat n) / (2 * Z.of_nat n).

(** The number of tenths that a percentage on display stands for: the
    value of the numeral, times ten. *)
Definition shownTenths (percentage : string) : Z :=
  match take_literal percentage with
  | Some (Fin q, EmptyString) => Qfloor (q * inject_Z 10)
  | _ => 0
  end.

Definition isIndex (k : string) : bool :=
  match array_index k with Some _ => true | None => false end.

(** [a] and [b] are array indices and [a] is not the larger. *)
Definition indexOrder (a b : string) : Prop :=
  match array_index a, array_index b with
  | Some i, Some j => i <= j
  | _, _ => False
  end.

(** The required fields of the registration form that are missing. *)
Definition missingFields (data : FormData.t) : list string :=
  concat
    [ if truthy_string (FormData.vehicle_number data) then [] else ["vehicle_number"];
      if truthy_string (FormData.type_id data) then [] else ["type_id"];
      if truthy_string (FormData.area_id data) then [] else ["area_id"];
      if truthy_string (FormData.violation_date data) then [] else ["violation_date"] ].

(** The message of the form for a missing field. *)
Definition messageFor (field : string) : string :=
  if String.eqb field "vehicle_number" then "Please enter vehicle number"
  else if String.eqb field "type_id" then "Please select violation type"
  else if String.eqb field "area_id" then "Please select area"
  else "Please select date and time".

End Spec.

(** The error messages on display in the alert area of the form. *)
Definition reportedErrors (st : state) : list string :=
  match document st !! "registerAlert" with
  | Some e =>
      match innerHTML e with
      | AlertBox type message => if String.eqb type "error" then [message] else []
      | _ => []
      end
  | None => []
  end.

(** The messages of all the error alerts on display in the document. *)
Definition errorAlerts (st : state) : list string :=
  omap (fun ie => match innerHTML (snd ie) with
                  | AlertBox type message =>
                      if String.eqb type "error" then Some message else None
                  | _ => None
                  end)
       (map_to_list (document st)).

(** The alert on display in the container of the page-wide alerts. *)
Definition globalAlert (st : state) : option markup :=
  innerHTML <$> document st !! "globalAlertContainer".

(** The order in which [sort_by_index] puts the indexed entries. *)
Definition byIndex (a b : Z * (string * stat)) : Prop := fst a <= fst b.

(** One turn of the counting loop of a chart. *)
Definition step (stats : object) (k : string) : object :=
  set stats k (bump (get stats k)).

(** The counters after the keys [p], when no key is special: one per
    distinct key, in the order of the first occurrences. *)
Definition tally (p : list string) : object :=
  map (fun k => (k, Count (Spec.occurrences k p))) (Spec.firstOccurrences p).

Definition tenthsOf (c n : nat) : Z :=
  match mul (div (of_nat c) (of_nat n)) (of_Z 100) with
  | Fin q => fixed_units q 1
  | _ => 0
  end.

(** The bar of the key [k] in a chart of the keys [ks]. *)
Definition barOf (ks : list string) (k : string) : bar :=
  {| label := k;
     count := Count (Spec.occurrences k ks);
     percentage := percentageOf (length ks) (Count (Spec.occurrences k ks)) |}.

(** Twenty-three records of one area among eighty. *)
Definition eightyRecords : list Violation :=
  let record a :=
    {| violation_id := 1; vehicle_number := "KA01AB1234"; owner_name := "John Doe";
       type_name := "Speeding"; area_name := a;
       violation_date := "2025-01-15 10:30"; fine_amount := of_Z 500;
       status := "paid" |} in
  repeat (record "MG Road") 23 ++ repeat (record "Marine Drive") 57.

Definition all_finite (vs : list Violation) : Prop :=
  Forall (fun v => is_finite (fine_amount v) = true) vs.

(** The fine of a record in whole rupees, rounded down. *)
Definition rupees (v : Violation) : Z :=
  match fine_amount v with
  | Fin q => Qfloor q
  | _ => 0
  end.

(** ** The rest of the script *)

(** *** Two more built-ins *)

Definition is_upper (c : ascii) : bool :=
  (65 <=? nat_of_ascii c)%nat && (nat_of_ascii c <=? 90)%nat.

Definition lower_char (c : ascii) : ascii :=
  if is_upper c then ascii_of_nat (nat_of_ascii c + 32) else c.

(** [s.toLowerCase()] *)
Fixpoint toLowerCase (s : string) : string :=
  match s with
  | EmptyString => EmptyString
  | String c r => String (lower_char c) (toLowerCase r)
  end.

(** Whether the text has ASCII characters only.  On such a text
    [toUpperCase] and [toLowerCase] above are those of the script; on
    other texts the script maps more letters, and some of them to texts
    of another length. *)
Definition ascii_text (s : string) : bool :=
  forallb (fun c => (nat_of_ascii c <? 128)%nat) (list_ascii_of_string s).

(** [s.includes(t)] *)
Fixpoint includes (s t : string) : bool :=
  String.prefix t s
  || match s with
     | EmptyString => false
     | String _ r => includes r t
     end.

(** *** Utility *)

(** [capitalizeFirst(string)]: [charAt(0).toUpperCase() + slice(1)]. *)
Definition capitalizeFirst (s : string) : string :=
  match s with
  | EmptyString => EmptyString
  | String c r => String (upper_char c) r
  end.

(** *** The area drop-down

    [populateAreasDropdown] gives the select [area] a first option without
    value and one option per area, whose [value] is the area's id. *)
Definition areaOptions (st : state) : list option_element :=
  {| option_value := EmptyString; dataset_fine := None |}
  :: map (fun a => {| option_value := Z_to_string (Area.area_id a);
                      dataset_fine := None |})
         (areas st).

(** The user picks option [selectedIndex] of the select [area], which has
    no listener. *)
Definition changeArea (selectedIndex : nat) (st : state) : state :=
  match areaOptions st !! selectedIndex with
  | Some selectedOption => update "area" (with_value (option_value selectedOption)) st
  | None => st
  end.

(** *** Searching the violations table *)

(** The row that [loadViolationsTable] and [searchViolations] build for a
    record. *)
Definition violationRow (st : state) (v : Violation) : list cell :=
  [ Plain (Z_to_string (violation_id v));
    Plain (vehicle_number v);
    Plain (owner_name v);
    Plain (type_name v);
    Plain (area_name v);
    formatDateTime (violation_date v);
    formatCurrency (fine_amount v);
    createStatusBadge (status v);
    createActionButtons st v ].

(** The test of the filter of [searchViolations]. *)
Definition matchesSearch (searchTerm : string) (v : Violation) : bool :=
  includes (toLowerCase (vehicle_number v)) searchTerm
  || (truthy_string (owner_name v)
      && includes (toLowerCase (owner_name v)) searchTerm).

Definition searchViolations (st : state) : state :=
  let searchTerm := toLowerCase (getValue st "searchInput") in
  if negb (truthy_string searchTerm) then loadViolationsTable st
  else
    let filtered := List.filter (matchesSearch searchTerm) (violations st) in
    update "violationsTableBody"
      (with_innerHTML (Rows (map (violationRow st) filtered))) st.

(** The rows on display in the violations table. *)
Definition tableRows (st : state) : list (list cell) :=
  match innerHTML <$> document st !! "violationsTableBody" with
  | Some (Rows rows) => rows
  | _ => []
  end.

(** The rows of the tables are kept as the data that the script
    substitutes into its template.  The script does not escape that data,
    so the elements of a row are those of the template only when no text
    substituted into it contains [<], which would open a tag, or a double
    quote, which would close the [class] attribute of the badge. *)
Definition is_markup (c : ascii) : bool :=
  (nat_of_ascii c =? 60)%nat || (nat_of_ascii c =? 34)%nat.

Definition plain_text (s : string) : bool :=
  forallb (fun c => negb (is_markup c)) (list_ascii_of_string s).

(** The text that a cell puts into the markup of its row as it is; a
    date and an amount are formatted first, and the id of the button is a
    Number. *)
Definition raw_text (c : cell) : string :=
  match c with
  | Plain text => text
  | Badge status => status
  | Money _ | DateTime _ | MarkPaidButton _ => EmptyString
  end.

Definition markup_free (rows : list (list cell)) : bool :=
  forallb (forallb (fun c => plain_text (raw_text c))) rows.

(** The texts of a record that go into a row of the violations table as
    they are. *)
Definition plainRecord (v : Violation) : bool :=
  plain_text (vehicle_number v) && plain_text (owner_name v)
  && plain_text (type_name v) && plain_text (area_name v)
  && plain_text (status v).

(** The ids of the buttons [Mark Paid] of the template in the rows. *)
Definition buttonIds (rows : list (list cell)) : list Z :=
  flat_map (flat_map (fun c => match c with
                               | MarkPaidButton id => [id]
                               | _ => []
                               end))
           rows.

(** The ids for which the violations table offers the button
    [Mark Paid]; of a table with markup in one of its texts, nothing is
    said. *)
Definition offeredButtons (st : state) : option (list Z) :=
  if markup_free (tableRows st) then Some (buttonIds (tableRows st)) else None.

(** The row that [updateRecentViolationsTable] builds for a record. *)
Definition recentRow (v : Violation) : list cell :=
  [ Plain (Z_to_string (violation_id v));
    Plain (vehicle_number v);
    Plain (type_name v);
    Plain (area_name v);
    formatDateTime (violation_date v);
    formatCurrency (fine_amount v);
    createStatusBadge (status v) ].

(** The value that [form.reset()] gives the control [id]. *)
Definition defaultOf (st : state) (id : string) : string :=
  match document st !! id with
  | Some e => defaultValue e
  | None => EmptyString
  end.

(** The rows on display in the table of recent violations. *)
Definition recentRows (st : state) : list (list cell) :=
  match innerHTML <$> document st !! "recentViolationsBody" with
  | Some (Rows rows) => rows
  | _ => []
  end.

(** *** What the user can do on the page

    The handlers that the page binds to its controls: the submit of the
    registration form, the button [Mark Paid] with the answer to its
    confirmation, the two drop-downs, typing into a control, the search
    box, and the refreshes that [switchTab] runs for the three tabs. *)
Inductive event :=
| Submit
| MarkPaid (violationId : Z) (confirmed : bool)
| ChangeViolationType (selectedIndex : nat)
| ChangeArea (selectedIndex : nat)
| Typing (id text : string)
| Search
| ShowDashboard
| ShowViolations
| ShowAnalytics
| TimerFires.

Definition handle (e : event) (st : state) : state :=
  match e with
  | Submit => registerViolation st
  | MarkPaid violationId confirmed => markAsPaid violationId confirmed st
  | ChangeViolationType i => changeViolationType i st
  | ChangeArea i => changeArea i st
  | Typing id text => typed id text st
  | Search => searchViolations st
  | ShowDashboard => updateDashboard st
  | ShowViolations => loadViolationsTable st
  | ShowAnalytics => loadAnalytics st
  | TimerFires => expire st
  end.

Definition run (events : list event) (st : state) : state :=
  fold_left (fun st e => handle e st) events st.

(** The ids are distinct and none exceeds the number of records. *)
Definition idsInRange (vs : list Violation) : Prop :=
  List.NoDup (map violation_id vs)
  /\ Forall (fun v => violation_id v <= Z.of_nat (length vs)) vs.

(** [v'] is [v], or [v] with the status [paid]. *)
Definition sameOrPaid (v v' : Violation) : Prop :=
  v' = v \/ v' = with_status "paid" v.

(** *** The session

    The part of the browser that the authentication functions use: the
    session storage, the path of the page, and the address that the script
    last assigned to [window.location.href], if any. *)
Record browser := {
  sessionStorage : gmap string string;
  pathname : string;
  href : option string
}.

Definition navigate (url : string) (b : browser) : browser :=
  {| sessionStorage := sessionStorage b; pathname := pathname b; href := Some url |}.

(** [sessionStorage.getItem('user') !== null] *)
Definition isAuthenticated (b : browser) : bool :=
  match sessionStorage b !! "user" with Some _ => true | None => false end.

(** The truth value of [user] in [checkAuthentication]: [null] and the
    empty string are false. *)
Definition truthy_item (user : option string) : bool :=
  match user with Some s => truthy_string s | None => false end.

(** [checkAuthentication()]: the browser after it, and the stored text
    that it hands to [JSON.parse] to set [currentUser], if it gets there. *)
Definition checkAuthentication (b : browser) : browser * option string :=
  let currentPage := pathname b in
  let user := sessionStorage b !! "user" in
  if includes currentPage "dashboard" && negb (truthy_item user)
  then (navigate "login.html" b, None)
  else if includes currentPage "login" && truthy_item user
  then (navigate "dashboard.html" b, None)
  else if truthy_item user then (b, user)
  else (b, None).

(** [logout()]; [confirmed] is the answer to [confirm]. *)
Definition logout (confirmed : bool) (b : browser) : browser :=
  if confirmed
  then navigate "login.html"
         {| sessionStorage := ∅; pathname := pathname b; href := href b |}
  else b.

(** The violations page with the search box holding [s]. *)
Definition searchPage (s : string) : state :=
  with_document (<["searchInput" := with_value s blank]> (document dashboardPage))
                dashboardPage.

(** * Properties *)

(** ** The state outside the document *)

Section Frame.

Lemma violations_update id f st : violations (update id f st) = violations st.
Proof. unfold update. by destruct (document st !! id). Qed.

Lemma payments_update id f st : payments (update id f st) = payments st.
Proof. unfold update. by destruct (document st !! id). Qed.

Lemma currentUser_update id f st : currentUser (update id f st) = currentUser st.
Proof. unfold update. by destruct (document st !! id). Qed.

Lemma violationTypes_update id f st :
  violationTypes (update id f st) = violationTypes st.
Proof. unfold update. by destruct (document st !! id). Qed.

Lemma areas_update id f st : areas (update id f st) = areas st.
Proof. unfold update. by destruct (document st !! id). Qed.

Lemma timers_update id f st : timers (update id f st) = timers st.
Proof. unfold update. by destruct (document st !! id). Qed.

Lemma document_update id f st id' :
  document (update id f st) !! id'
  = if decide (id = id') then f <$> document st !! id' else document st !! id'.
Proof.
  unfold update. case_decide as E.
  - subst id'. destruct (document st !! id) eqn:L; simpl; [| by rewrite L].
    by rewrite lookup_insert_eq.
  - destruct (document st !! id) eqn:L; simpl; [| done].
    by rewrite lookup_insert_ne.
Qed.

Lemma document_update_ne id f st id' :
  String.eqb id id' = false ->
  document (update id f st) !! id' = document st !! id'.
Proof.
  intros E. apply String.eqb_neq in E. rewrite document_update.
  case_decide; [contradiction | reflexivity].
Qed.

Lemma document_update_eq id f st :
  document (update id f st) !! id = f <$> document st !! id.
Proof. rewrite document_update. case_decide; [reflexivity | contradiction]. Qed.

Lemma violations_createAlertContainer st :
  violations (createAlertContainer st) = violations st.
Proof. unfold createAlertContainer. by destruct (document st !! _). Qed.

Lemma payments_createAlertContainer st :
  payments (createAlertContainer st) = payments st.
Proof. unfold createAlertContainer. by destruct (document st !! _). Qed.

(** An alert changes the document as the update of its container does. *)
Lemma document_alertIn id m t st :
  document (alertIn id m t st)
  = document (update id (fun e => with_display "block"
                                    (with_innerHTML (AlertBox t m) e)) st).
Proof. unfold alertIn, update. by destruct (document st !! id). Qed.

Lemma getValue_alertIn id m t st id' :
  getValue (alertIn id m t st) id'
  = getValue (update id (fun e => with_display "block"
                                    (with_innerHTML (AlertBox t m) e)) st) id'.
Proof. unfold getValue. by rewrite document_alertIn. Qed.

Lemma currentUser_alertIn id m t st : currentUser (alertIn id m t st) = currentUser st.
Proof. unfold alertIn, update. by destruct (document st !! id). Qed.

Lemma violations_alertIn id m t st : violations (alertIn id m t st) = violations st.
Proof. unfold alertIn, update. by destruct (document st !! id). Qed.

Lemma payments_alertIn id m t st : payments (alertIn id m t st) = payments st.
Proof. unfold alertIn, update. by destruct (document st !! id). Qed.

Lemma violations_showAlert m t c st : violations (showAlert m t c st) = violations st.
Proof.
  unfold showAlert. destruct c as [id|]; [destruct (truthy_string id)|];
    rewrite ?violations_alertIn, ?violations_createAlertContainer; done.
Qed.

Lemma payments_showAlert m t c st : payments (showAlert m t c st) = payments st.
Proof.
  unfold showAlert. destruct c as [id|]; [destruct (truthy_string id)|];
    rewrite ?payments_alertIn, ?payments_createAlertContainer; done.
Qed.

Lemma violations_expire st : violations (expire st) = violations st.
Proof. unfold expire. destruct (timers st); [reflexivity|]. apply violations_update. Qed.

Lemma violations_updateDashboard st : violations (updateDashboard st) = violations st.
Proof.
  unfold updateDashboard, updateRecentViolationsTable, updateElement.
  by rewrite !violations_update.
Qed.

Lemma payments_updateDashboard st : payments (updateDashboard st) = payments st.
Proof.
  unfold updateDashboard, updateRecentViolationsTable, updateElement.
  by rewrite !payments_update.
Qed.

Lemma violations_loadViolationsTable st :
  violations (loadViolationsTable st) = violations st.
Proof. apply violations_update. Qed.

Lemma payments_loadViolationsTable st :
  payments (loadViolationsTable st) = payments st.
Proof. apply payments_update. Qed.

Lemma violations_updateAnalyticsStats st :
  violations (updateAnalyticsStats st) = violations st.
Proof. unfold updateAnalyticsStats, updateElement. by rewrite !violations_update. Qed.

Lemma violations_loadAnalytics st : violations (loadAnalytics st) = violations st.
Proof.
  unfold loadAnalytics, displayTypeChart, displayAreaChart.
  by rewrite !violations_update, violations_updateAnalyticsStats.
Qed.

Lemma payments_loadAnalytics st : payments (loadAnalytics st) = payments st.
Proof.
  unfold loadAnalytics, displayTypeChart, displayAreaChart, updateAnalyticsStats,
    updateElement.
  by rewrite !payments_update.
Qed.

End Frame.

(** C9.  The aggregations leave the records alone: after the dashboard
    totals, the analytics statistics (status breakdown, collection rate,
    average fine) and either group-by chart, the collection of records is
    the one before the computation, so every record, their order and their
    number are the same. *)
Theorem aggregation_preserves_records (st : state) :
  violations (updateDashboard st) = violations st
  /\ violations (updateAnalyticsStats st) = violations st
  /\ violations (displayAreaChart st) = violations st
  /\ violations (displayTypeChart st) = violations st
  /\ violations (loadAnalytics st) = violations st.
Proof.
  repeat split.
  - apply violations_updateDashboard.
  - apply violations_updateAnalyticsStats.
  - apply violations_update.
  - apply violations_update.
  - apply violations_loadAnalytics.
Qed.

(** C4.  On the empty collection the count and the three amounts are zero,
    the collection rate and the average fine are the number zero, and the
    two guarded divisions are not evaluated. *)
Theorem empty_collection_figures :
  length ([] : list Violation) = 0%nat
  /\ total [] = of_Z 0
  /\ collected [] = of_Z 0
  /\ pending [] = of_Z 0
  /\ collectionRate [] = Zero
  /\ avgFine [] = Zero.
Proof. repeat split. Qed.

(** ** Status breakdown *)

Section StatusBreakdown.

Lemma filter_status_length s vs :
  length (List.filter (has_status s) vs) = Spec.countStatus s vs.
Proof.
  induction vs as [|v vs IH]; simpl; [done|].
  unfold has_status at 1. destruct (String.eqb (status v) s); simpl; congruence.
Qed.

Lemma countStatus_app s l1 l2 :
  Spec.countStatus s (l1 ++ l2) = (Spec.countStatus s l1 + Spec.countStatus s l2)%nat.
Proof.
  induction l1 as [|v l1 IH]; simpl; [done|].
  destruct (String.eqb (status v) s); simpl; lia.
Qed.

Lemma counts_partition vs :
  (Spec.countStatus "paid" vs + Spec.countStatus "unpaid" vs + Spec.countOther vs
   = length vs)%nat.
Proof.
  induction vs as [|v vs IH]; simpl; [done|].
  destruct (String.eqb (status v) "paid") eqn:P;
    destruct (String.eqb (status v) "unpaid") eqn:U; simpl; try lia.
  apply String.eqb_eq in P. apply String.eqb_eq in U. congruence.
Qed.

End StatusBreakdown.

(** C7.  [paidCount] is the number of records whose status is [paid] and
    [unpaidCount] the number of those whose status is [unpaid]; a record
    adds one to [paidCount] exactly when it is paid and one to
    [unpaidCount] exactly when it is unpaid, so a record with any other
    status adds to neither; the two counters and the number of other
    records add up to the number of records, and with a disputed record
    the two counters stay below it. *)
Theorem status_breakdown_counts (vs : list Violation) :
  paidCount vs = Spec.countStatus "paid" vs
  /\ unpaidCount vs = Spec.countStatus "unpaid" vs
  /\ (forall v l1 l2,
        paidCount (l1 ++ v :: l2)
        = (paidCount (l1 ++ l2) + if String.eqb (status v) "paid" then 1 else 0)%nat
        /\ unpaidCount (l1 ++ v :: l2)
           = (unpaidCount (l1 ++ l2) + if String.eqb (status v) "unpaid" then 1 else 0)%nat)
  /\ (paidCount vs + unpaidCount vs + Spec.countOther vs = length vs)%nat
  /\ (forall v,
        let d := with_status "disputed" v in
        paidCount (d :: vs) = paidCount vs
        /\ unpaidCount (d :: vs) = unpaidCount vs
        /\ (paidCount (d :: vs) + unpaidCount (d :: vs) < length (d :: vs))%nat).
Proof.
  unfold paidCount, unpaidCount. rewrite !filter_status_length.
  split; [done|]. split; [done|]. split; [|split].
  - intros v l1 l2. rewrite !filter_status_length, !countStatus_app. simpl.
    destruct (String.eqb (status v) "paid"), (String.eqb (status v) "unpaid"); lia.
  - apply counts_partition.
  - intros v. cbv zeta. rewrite !filter_status_length. simpl.
    pose proof (counts_partition vs). lia.
Qed.

(** ** Rounding to binary64 *)

Section Binary64.

Lemma to_binary64_Qeq p q : (p == q)%Q -> to_binary64 p = to_binary64 q.
Proof. intros E. unfold to_binary64. rewrite (Qred_complete p q E). reflexivity. Qed.

Lemma Qred_inject_Z z : Qred (inject_Z z) = inject_Z z.
Proof.
  pose proof (Qred_correct (inject_Z z)) as C.
  pose proof (gcd_Qred (inject_Z z)) as G.
  destruct (Qred (inject_Z z)) as [a b]. unfold Qeq, inject_Z in *. simpl in *.
  assert (B : Zpos b = 1).
  { rewrite Z.mul_1_r in C. subst a.
    rewrite Z.gcd_comm, (Z.mul_comm z), Z.gcd_mul_diag_l in G by lia. exact G. }
  injection B as ->. f_equal. lia.
Qed.

Lemma nearest_even_spec n d :
  - Zpos d <= 2 * (nearest_even n d * Zpos d - n) <= Zpos d.
Proof.
  unfold nearest_even. cbv zeta.
  pose proof (Z.div_mod n (Zpos d) ltac:(lia)) as D.
  pose proof (Z.mod_pos_bound n (Zpos d) ltac:(lia)) as B.
  destruct (2 * (n mod Zpos d) ?= Zpos d) eqn:C.
  - apply Z.compare_eq in C. destruct (Z.even (n / Zpos d)); lia.
  - change (2 * (n mod Zpos d) < Zpos d) in C. lia.
  - change (2 * (n mod Zpos d) > Zpos d) in C. lia.
Qed.

Lemma nearest_even_whole n : nearest_even n 1 = n.
Proof.
  unfold nearest_even. cbv zeta. rewrite Z.mod_1_r, Z.div_1_r. reflexivity.
Qed.

(** Whole numbers below [2^53] are binary64 numbers. *)
Lemma round_positive_whole n :
  Zpos n < 2 ^ 53 -> round_positive n 1 = Fin (inject_Z (Zpos n)).
Proof.
  intros B. unfold round_positive, exponent.
  rewrite Z.div_1_r, Z.log2_mul_pow2 by lia.
  assert (L : 0 <= Z.log2 (Zpos n) < 53).
  { split; [apply Z.log2_nonneg|]. apply Z.log2_lt_pow2; lia. }
  set (l := Z.log2 (Zpos n)) in *.
  replace (Z.max (1200 + l - 1252) (-1074)) with (l - 52) by lia.
  replace (Z.max 0 (- (l - 52))) with (52 - l) by lia.
  replace (Z.max 0 (l - 52)) with 0 by lia.
  change (2 ^ 0) with 1. change (Z.to_pos 1) with 1%positive.
  rewrite Pos.mul_1_r, nearest_even_whole.
  assert (P : 0 < 2 ^ (52 - l)) by (apply Z.pow_pos_nonneg; lia).
  assert (U : Zpos n * 2 ^ (52 - l) < 2 ^ 53).
  { pose proof (Z.log2_spec (Zpos n) ltac:(lia)) as S. fold l in S.
    replace (2 ^ 53) with (2 ^ Z.succ l * 2 ^ (52 - l)).
    - apply Z.mul_lt_mono_pos_r; lia.
    - rewrite <- Z.pow_add_r by lia. f_equal. lia. }
  assert (O : (2 ^ (1024 - (l - 52)) <=? Zpos n * 2 ^ (52 - l)) = false).
  { apply Z.leb_gt. eapply Z.lt_le_trans; [exact U|].
    apply Z.pow_le_mono_r; lia. }
  rewrite O. f_equal. rewrite <- Qred_inject_Z. apply Qred_complete.
  unfold Qeq. cbn [Qnum Qden inject_Z]. rewrite Z2Pos.id by lia. ring.
Qed.

Lemma to_binary64_whole z :
  Z.abs z < 2 ^ 53 -> to_binary64 (inject_Z z) = Fin (inject_Z z).
Proof.
  intros B. unfold to_binary64. rewrite Qred_inject_Z.
  destruct z as [|n|n]; cbn [inject_Z Qnum Qden].
  - reflexivity.
  - apply round_positive_whole. lia.
  - rewrite round_positive_whole by lia. reflexivity.
Qed.

Lemma round_positive_near n d :
  Zpos d <= Zpos n * 2 ^ 1022 -> Zpos n < Zpos d * 2 ^ 52 ->
  exists m k,
    0 < k
    /\ round_positive n d = Fin (Qred (m # Z.to_pos (2 ^ k)))
    /\ - Zpos d <= 2 * (m * Zpos d - Zpos n * 2 ^ k) <= Zpos d
    /\ 2 ^ 52 * Zpos d <= Zpos n * 2 ^ k.
Proof.
  intros Lo Hi. unfold round_positive, exponent.
  set (X := Zpos n * 2 ^ 1200 / Zpos d).
  assert (E12 : 2 ^ 1200 = 2 ^ 1022 * 2 ^ 178) by (rewrite <- Z.pow_add_r; [reflexivity|lia..]).
  assert (E52 : 2 ^ 1252 = 2 ^ 1200 * 2 ^ 52) by (rewrite <- Z.pow_add_r; [reflexivity|lia..]).
  assert (P178 : 0 < 2 ^ 178) by (apply Z.pow_pos_nonneg; lia).
  assert (P1200 : 0 < 2 ^ 1200) by (apply Z.pow_pos_nonneg; lia).
  assert (P1022 : 0 < 2 ^ 1022) by (apply Z.pow_pos_nonneg; lia).
  assert (P52 : 0 < 2 ^ 52) by (apply Z.pow_pos_nonneg; lia).
  assert (XL : 2 ^ 178 <= X).
  { apply Z.div_le_lower_bound; [lia|]. rewrite E12.
    set (c := 2 ^ 178) in *. set (b := 2 ^ 1022) in *. nia. }
  assert (XU : X < 2 ^ 1252).
  { apply Z.div_lt_upper_bound; [lia|]. rewrite E52.
    set (c := 2 ^ 1200) in *. set (b := 2 ^ 52) in *. nia. }
  assert (XD : X * Zpos d <= Zpos n * 2 ^ 1200 < (X + 1) * Zpos d).
  { pose proof (Z.div_mod (Zpos n * 2 ^ 1200) (Zpos d) ltac:(lia)) as D.
    pose proof (Z.mod_pos_bound (Zpos n * 2 ^ 1200) (Zpos d) ltac:(lia)) as B.
    fold X in D. set (c := 2 ^ 1200) in *. nia. }
  assert (X0 : 0 < X) by lia.
  pose proof (Z.log2_spec X X0) as S.
  assert (AL : 178 <= Z.log2 X) by (apply Z.log2_le_pow2; assumption).
  assert (AU : Z.log2 X < 1252) by (apply Z.log2_lt_pow2; assumption).
  set (a := Z.log2 X) in *.
  replace (Z.max (a - 1252) (-1074)) with (a - 1252) by lia.
  replace (Z.max 0 (- (a - 1252))) with (1252 - a) by lia.
  replace (Z.max 0 (a - 1252)) with 0 by lia.
  change (2 ^ 0) with 1. change (Z.to_pos 1) with 1%positive.
  rewrite Pos.mul_1_r, Z.mul_1_r.
  set (k := 1252 - a).
  assert (PA : 0 < 2 ^ a) by (apply Z.pow_pos_nonneg; lia).
  assert (PK : 0 < 2 ^ k) by (apply Z.pow_pos_nonneg; lia).
  assert (AK : 2 ^ a * 2 ^ k = 2 ^ 1200 * 2 ^ 52).
  { rewrite <- E52, <- Z.pow_add_r by lia. f_equal. lia. }
  assert (SA : 2 ^ Z.succ a = 2 * 2 ^ a) by (apply Z.pow_succ_r; lia).
  rewrite SA in S.
  pose proof (nearest_even_spec (Zpos n * 2 ^ k) d) as M.
  set (m := nearest_even (Zpos n * 2 ^ k) d) in *.
  assert (NL : 2 ^ 52 * Zpos d <= Zpos n * 2 ^ k).
  { apply (Z.mul_le_mono_pos_r _ _ (2 ^ a)); [exact PA|].
    replace (Zpos n * 2 ^ k * 2 ^ a) with (Zpos n * 2 ^ 1200 * 2 ^ 52)
      by (rewrite <- !Z.mul_assoc, (Z.mul_comm (2 ^ k)), AK; ring).
    set (A := 2 ^ a) in *. set (C := 2 ^ 1200) in *. set (B := 2 ^ 52) in *.
    clearbody A C B m k. nia. }
  assert (NU : Zpos n * 2 ^ k < 2 ^ 53 * Zpos d).
  { apply (Z.mul_lt_mono_pos_r (2 ^ a)); [exact PA|].
    replace (Zpos n * 2 ^ k * 2 ^ a) with (Zpos n * 2 ^ 1200 * 2 ^ 52)
      by (rewrite <- !Z.mul_assoc, (Z.mul_comm (2 ^ k)), AK; ring).
    replace (2 ^ 53) with (2 * 2 ^ 52) by reflexivity.
    set (A := 2 ^ a) in *. set (C := 2 ^ 1200) in *. set (B := 2 ^ 52) in *.
    clearbody A C B m k. nia. }
  assert (MU : m <= 2 ^ 53).
  { assert (2 * m * Zpos d < (2 * 2 ^ 53 + 1) * Zpos d) by lia.
    assert (2 * m < 2 * 2 ^ 53 + 1) by (apply (Z.mul_lt_mono_pos_r (Zpos d)); lia).
    lia. }
  assert (O : (2 ^ (1024 - (a - 1252)) <=? m) = false).
  { apply Z.leb_gt. eapply Z.le_lt_trans; [exact MU|].
    apply Z.pow_lt_mono_r; lia. }
  rewrite O. exists m, k. split; [unfold k; lia|]. split; [reflexivity|].
  split; [exact M | exact NL].
Qed.

(** A positive number that is neither subnormal nor above [2^52] is
    rounded with a relative error of at most [2^-53]. *)
Lemma to_binary64_near q :
  (1 <= q * inject_Z (2 ^ 1022))%Q -> (q < inject_Z (2 ^ 52))%Q ->
  exists r,
    to_binary64 q = Fin r
    /\ (q * (1 - (1 # 2 ^ 53)) <= r)%Q /\ (r <= q * (1 + (1 # 2 ^ 53)))%Q.
Proof.
  intros Lo Hi. unfold to_binary64.
  pose proof (Qred_correct q) as C.
  remember (Qred q) as q' eqn:Eq'. clear Eq'.
  rewrite <- C in Lo, Hi.
  assert (G : forall r,
             (q' * (1 - (1 # 2 ^ 53)) <= r)%Q /\ (r <= q' * (1 + (1 # 2 ^ 53)))%Q ->
             (q * (1 - (1 # 2 ^ 53)) <= r)%Q /\ (r <= q * (1 + (1 # 2 ^ 53)))%Q)
    by (intros r; rewrite C; tauto).
  cut (exists r,
         match Qnum q' with
         | 0 => Fin 0
         | Z.pos n => round_positive n (Qden q')
         | Z.neg n => neg (round_positive n (Qden q'))
         end = Fin r
         /\ (q' * (1 - (1 # 2 ^ 53)) <= r)%Q /\ (r <= q' * (1 + (1 # 2 ^ 53)))%Q).
  { intros (r & E & B). exists r. split; [exact E | apply G, B]. }
  clear G C q. destruct q' as [n d].
  assert (P1022 : 0 < 2 ^ 1022) by (apply Z.pow_pos_nonneg; lia).
  assert (P52 : 0 < 2 ^ 52) by (apply Z.pow_pos_nonneg; lia).
  unfold Qle, Qlt in Lo, Hi. cbn [Qnum Qden Qmult inject_Z] in Lo, Hi.
  rewrite ?Z.mul_1_l, ?Z.mul_1_r, ?Pos.mul_1_r in Lo, Hi.
  cbn [Qnum Qden].
  destruct n as [|n|n].
  - set (b := 2 ^ 1022) in *. lia.
  - rewrite ?Pos.mul_1_r, ?Z.mul_1_l in Lo.
    destruct (round_positive_near n d) as (m & k & K & -> & M & L);
      [exact Lo | rewrite Z.mul_comm; exact Hi |].
    exists (Qred (m # Z.to_pos (2 ^ k))).
    assert (PK : 0 < 2 ^ k) by (apply Z.pow_pos_nonneg; lia).
    split; [reflexivity|].
    rewrite Qred_correct. unfold Qle, Qminus, Qplus, Qopp, Qmult.
    cbn [Qnum Qden]. rewrite !Pos2Z.inj_mul, Z2Pos.id by lia.
    change (Zpos (2 ^ 53)) with (2 * 2 ^ 52).
    set (K2 := 2 ^ k) in *. set (B := 2 ^ 52) in *. clearbody K2 B.
    split; nia.
  - set (b := 2 ^ 1022) in *. lia.
Qed.

(** The built-ins at work on values that binary64 does not hold exactly. *)
Example add_rounds :
  add (parseFloat "0.1") (parseFloat "0.2") = parseFloat "0.30000000000000004"
  /\ num_eq (add (parseFloat "0.1") (parseFloat "0.2")) (parseFloat "0.3") = false.
Proof. split; vm_compute; reflexivity. Qed.

Example add_absorbs :
  add (add (parseFloat "1e16") (of_Z 1)) (parseFloat "-1e16") = of_Z 0.
Proof. vm_compute. reflexivity. Qed.

Example add_overflows :
  add (parseFloat "1e308") (parseFloat "1e308") = Inf false
  /\ parseFloat "1e400" = Inf false.
Proof. split; vm_compute; reflexivity. Qed.

Example toFixed_of_the_double :
  toFixed (parseFloat "1.005") 2 = "1.00"
  /\ toFixed (parseFloat "2.5") 0 = "3"
  /\ toFixed (mul (div (of_Z 23) (of_Z 80)) (of_Z 100)) 1 = "28.7"
  /\ toFixed (parseFloat "1e21") 1 = "1e+21".
Proof. repeat split; vm_compute; reflexivity. Qed.

End Binary64.

(** ** Sums of fines *)

Section Sums.

(** Sums and differences of whole numbers are exact as long as they stay
    below [2^53]. *)
Lemma add_whole a b : Z.abs (a + b) < 2 ^ 53 -> add (of_Z a) (of_Z b) = of_Z (a + b).
Proof.
  intros B. unfold add, of_Z.
  rewrite <- inject_Z_plus. by apply to_binary64_whole.
Qed.

Lemma sub_whole a b : Z.abs (a - b) < 2 ^ 53 -> sub (of_Z a) (of_Z b) = of_Z (a - b).
Proof. intros B. exact (add_whole a (- b) B). Qed.

Lemma sumZ_abs (amount : Violation -> Z) vs :
  Z.abs (Spec.sumZ (map amount vs))
  <= Spec.sumZ (map (fun v => Z.abs (amount v)) vs).
Proof. induction vs as [|v vs IH]; unfold Spec.sumZ in *; simpl; lia. Qed.

Lemma sumZ_abs_filter (amount : Violation -> Z) f vs :
  Spec.sumZ (map (fun v => Z.abs (amount v)) (List.filter f vs))
  <= Spec.sumZ (map (fun v => Z.abs (amount v)) vs).
Proof.
  induction vs as [|v vs IH]; simpl; [lia|].
  destruct (f v); unfold Spec.sumZ in *; simpl; lia.
Qed.

Lemma sumZ_filter_split (amount : Violation -> Z) f vs :
  Spec.sumZ (map amount vs)
  = Spec.sumZ (map amount (List.filter f vs))
    + Spec.sumZ (map amount (List.filter (fun v => negb (f v)) vs)).
Proof.
  induction vs as [|v vs IH]; simpl; [reflexivity|].
  destruct (f v); unfold Spec.sumZ in *; simpl; lia.
Qed.

Lemma sumZ_abs_nonneg (amount : Violation -> Z) vs :
  0 <= Spec.sumZ (map (fun v => Z.abs (amount v)) vs).
Proof. induction vs as [|v vs IH]; unfold Spec.sumZ in *; simpl; lia. Qed.

Lemma fold_add_whole (amount : Violation -> Z) vs a :
  Forall (fun v => fine_amount v = of_Z (amount v)) vs ->
  Z.abs a + Spec.sumZ (map (fun v => Z.abs (amount v)) vs) < 2 ^ 53 ->
  fold_left (fun sum v => add sum (fine_amount v)) vs (of_Z a)
  = of_Z (a + Spec.sumZ (map amount vs)).
Proof.
  intros F. revert a. induction F as [|v vs Hv _ IH]; intros a B;
    cbn [fold_left map].
  - unfold Spec.sumZ. simpl. by rewrite Z.add_0_r.
  - pose proof (sumZ_abs_nonneg amount vs) as N.
    unfold Spec.sumZ in *. cbn [map fold_right] in B.
    rewrite Hv, add_whole by lia. rewrite IH by lia. f_equal.
    cbn [fold_right]. lia.
Qed.

(** With whole fines whose absolute values add up to less than [2^53],
    the sum that [reduce] computes is the exact sum. *)
Lemma sum_fines_whole (amount : Violation -> Z) vs :
  Forall (fun v => fine_amount v = of_Z (amount v)) vs ->
  Spec.sumZ (map (fun v => Z.abs (amount v)) vs) < 2 ^ 53 ->
  sum_fines vs = of_Z (Spec.sumZ (map amount vs)).
Proof.
  intros F B. unfold sum_fines. by rewrite (fold_add_whole amount vs 0 F).
Qed.

Lemma whole_filter (amount : Violation -> Z) f vs :
  Forall (fun v => fine_amount v = of_Z (amount v)) vs ->
  Forall (fun v => fine_amount v = of_Z (amount v)) (List.filter f vs).
Proof.
  rewrite !List.Forall_forall. intros H v Hv. apply List.filter_In in Hv. apply H, Hv.
Qed.

(** The three amounts of the dashboard for whole fines. *)
Lemma figures_whole (amount : Violation -> Z) vs :
  Forall (fun v => fine_amount v = of_Z (amount v)) vs ->
  Spec.sumZ (map (fun v => Z.abs (amount v)) vs) < 2 ^ 53 ->
  let T := Spec.sumZ (map amount vs) in
  let C := Spec.sumZ (map amount (List.filter (has_status "paid") vs)) in
  total vs = of_Z T /\ collected vs = of_Z C /\ pending vs = of_Z (T - C)
  /\ Z.abs T < 2 ^ 53 /\ Z.abs C < 2 ^ 53 /\ Z.abs (T - C) < 2 ^ 53.
Proof.
  intros W B T C.
  pose proof (sumZ_abs amount vs) as At.
  pose proof (sumZ_abs amount (List.filter (has_status "paid") vs)) as Ac.
  pose proof (sumZ_abs_filter amount (has_status "paid") vs) as Fc.
  pose proof (sumZ_abs amount (List.filter (fun v => negb (has_status "paid" v)) vs)) as Au.
  pose proof (sumZ_abs_filter amount (fun v => negb (has_status "paid" v)) vs) as Fu.
  pose proof (sumZ_filter_split amount (has_status "paid") vs) as Sp.
  fold T in At, Sp. fold C in Ac, Sp.
  assert (Et : total vs = of_Z T) by (by apply sum_fines_whole).
  assert (Ec : collected vs = of_Z C).
  { apply sum_fines_whole; [by apply whole_filter | lia]. }
  split; [exact Et|]. split; [exact Ec|]. split; [|lia].
  unfold pending. rewrite Et, Ec. apply sub_whole. lia.
Qed.

Lemma num_eq_refl z : num_eq (of_Z z) (of_Z z) = true.
Proof. unfold num_eq, of_Z. apply Qeq_bool_iff. reflexivity. Qed.

(** The sum depends on the fines only. *)
Lemma sum_fines_same vs ws :
  map fine_amount vs = map fine_amount ws -> sum_fines vs = sum_fines ws.
Proof.
  unfold sum_fines. generalize (of_Z 0). revert ws.
  induction vs as [|v vs IH]; intros [|w ws] a E; try discriminate; [reflexivity|].
  injection E as Ev E. cbn [fold_left]. rewrite Ev. by apply IH.
Qed.

(** Once the running sum is [NaN] it stays so. *)
Lemma fold_add_NaN vs : fold_left (fun sum v => add sum (fine_amount v)) vs NaN = NaN.
Proof. induction vs as [|v vs IH]; [reflexivity | exact IH]. Qed.

Lemma all_finite_filter f vs : all_finite vs -> all_finite (List.filter f vs).
Proof.
  unfold all_finite. rewrite !List.Forall_forall. intros H v Hv.
  apply List.filter_In in Hv. apply H, Hv.
Qed.

End Sums.

(** ** What the dashboard shows *)

Section Dashboard.

Ltac lookups :=
  rewrite ?document_update;
  repeat (case_decide; [try discriminate | try congruence]).

Lemma updateDashboard_shows st :
  let vs := violations st in
  let shown id := innerHTML <$> document (updateDashboard st) !! id in
  let written id c := (fun _ => Cell c) <$> document st !! id in
  shown "totalViolations" = written "totalViolations" (Plain (nat_to_string (length vs)))
  /\ shown "totalFines" = written "totalFines" (Money (total vs))
  /\ shown "collectedAmount" = written "collectedAmount" (Money (collected vs))
  /\ shown "pendingAmount" = written "pendingAmount" (Money (pending vs)).
Proof.
  simpl. unfold updateDashboard, updateRecentViolationsTable, updateElement.
  rewrite ?violations_update.
  repeat split; lookups; clear; destruct (document st !! _); reflexivity.
Qed.

Lemma updateAnalyticsStats_shows st :
  let vs := violations st in
  let shown id := innerHTML <$> document (updateAnalyticsStats st) !! id in
  let written id c := (fun _ => Cell c) <$> document st !! id in
  shown "paidCount" = written "paidCount" (Plain (nat_to_string (paidCount vs)))
  /\ shown "unpaidCount" = written "unpaidCount" (Plain (nat_to_string (unpaidCount vs)))
  /\ shown "collectionRate"
     = written "collectionRate" (Plain (figure_text (collectionRate vs) +:+ "%"))
  /\ shown "avgFine" = written "avgFine" (formatCurrency_figure (avgFine vs)).
Proof.
  simpl. unfold updateAnalyticsStats, updateElement.
  rewrite ?violations_update.
  repeat split; lookups; clear; destruct (document st !! _); reflexivity.
Qed.

End Dashboard.

(** C2, as amended.  The dashboard computes [total] by adding up the
    fine amounts of all records from left to right in binary64,
    [collected] in the same way over the records whose status is [paid],
    and [pending] as [total - collected]; these are the amounts it writes
    into its three cards.  When every fine is a whole number and the
    absolute values of the fines add up to less than [2^53], the three
    amounts are the exact sums, and [collected + pending == total]. *)
Theorem dashboard_totals (st : state) (amount : Violation -> Z) :
  let vs := violations st in
  let paid := List.filter (has_status "paid") vs in
  Forall (fun v => fine_amount v = of_Z (amount v)) vs ->
  Spec.sumZ (map (fun v => Z.abs (amount v)) vs) < 2 ^ 53 ->
  total vs = of_Z (Spec.sumZ (map amount vs))
  /\ collected vs = of_Z (Spec.sumZ (map amount paid))
  /\ pending vs = sub (total vs) (collected vs)
  /\ pending vs = of_Z (Spec.sumZ (map amount vs) - Spec.sumZ (map amount paid))
  /\ num_eq (add (collected vs) (pending vs)) (total vs) = true
  /\ innerHTML <$> document (updateDashboard st) !! "totalFines"
     = (fun _ => Cell (Money (total vs))) <$> document st !! "totalFines"
  /\ innerHTML <$> document (updateDashboard st) !! "collectedAmount"
     = (fun _ => Cell (Money (collected vs))) <$> document st !! "collectedAmount"
  /\ innerHTML <$> document (updateDashboard st) !! "pendingAmount"
     = (fun _ => Cell (Money (pending vs))) <$> document st !! "pendingAmount".
Proof.
  intros vs paid W B.
  destruct (updateDashboard_shows st) as (_ & Ht & Hc & Hp).
  destruct (figures_whole amount vs W B) as (T & C & P & Bt & Bc & Bp).
  fold paid in C, P, Bc, Bp.
  split; [exact T|]. split; [exact C|]. split; [reflexivity|].
  split; [exact P|]. split; [|auto].
  rewrite P, C, T, add_whole by (rewrite Zplus_minus; exact Bt).
  rewrite Zplus_minus. apply num_eq_refl.
Qed.

Lemma dashboard_totals_example :
  total (violations dashboardPage) = of_Z 1800
  /\ collected (violations dashboardPage) = of_Z 800
  /\ pending (violations dashboardPage) = of_Z 1000
  /\ num_eq (add (collected (violations dashboardPage)) (pending (violations dashboardPage)))
            (total (violations dashboardPage)) = true.
Proof.
  assert (W : Forall (fun v => fine_amount v = of_Z (rupees v))
                     (violations dashboardPage)) by (repeat constructor).
  assert (B : Spec.sumZ (map (fun v => Z.abs (rupees v)) (violations dashboardPage))
              < 2 ^ 53) by (vm_compute; reflexivity).
  destruct (dashboard_totals dashboardPage rupees W B) as (T & C & _ & P & E & _).
  split; [exact T|]. split; [exact C|]. split; [exact P|]. exact E.
Defined.

(** The figures of the three mock records, and the amounts after the
    unpaid one has been marked as paid. *)
Example mock_figures :
  length (violations dashboardPage) = 3%nat
  /\ total (violations dashboardPage) = of_Z 1800
  /\ collected (violations dashboardPage) = of_Z 800
  /\ pending (violations dashboardPage) = of_Z 1000
  /\ collectionRate (violations dashboardPage) = Digits "44.4"
  /\ avgFine (violations dashboardPage) = Digits "600.00"
  /\ num_eq (collected (violations (markAsPaid 2 true dashboardPage))) (of_Z 1800) = true
  /\ num_eq (pending (violations (markAsPaid 2 true dashboardPage))) (of_Z 0) = true.
Proof. repeat split; vm_compute; reflexivity. Qed.

(** C2, as stated, fails.  With the fines 0.1, 0.3 and 0.05, the first of
    them paid, the total is 0.45 and the pending amount 0.35, but
    [0.1 + 0.35] is 0.44999999999999996 in binary64: the amounts are
    finite and [collected + pending == total] is false. *)
Lemma dashboard_totals_drift :
  all_finite fractionalFines
  /\ total fractionalFines = parseFloat "0.45"
  /\ collected fractionalFines = parseFloat "0.1"
  /\ pending fractionalFines = parseFloat "0.35"
  /\ add (collected fractionalFines) (pending fractionalFines)
     = parseFloat "0.44999999999999996"
  /\ num_eq (add (collected fractionalFines) (pending fractionalFines))
            (total fractionalFines) = false.
Proof.
  split; [repeat constructor|]. repeat split; vm_compute; reflexivity.
Qed.

(** It also fails when a fine is not a number: a registration with an
    empty fine input stores the fine [NaN]. *)
Lemma dashboard_totals_NaN :
  map fine_amount registeredWithoutFine = [NaN]
  /\ num_eq (add (collected registeredWithoutFine) (pending registeredWithoutFine))
            (total registeredWithoutFine) = false.
Proof. split; vm_compute; reflexivity. Qed.

(** ** Registration *)

Section Registration.

Lemma violations_resetForm st : violations (resetForm st) = violations st.
Proof. unfold resetForm. simpl. by rewrite !violations_update. Qed.

Lemma payments_resetForm st : payments (resetForm st) = payments st.
Proof. unfold resetForm. simpl. by rewrite !payments_update. Qed.

(** The form passes the validation exactly when none of the four required
    fields is missing. *)
Lemma validateViolationForm_true data st :
  Spec.missingFields data = [] -> validateViolationForm data st = (true, st).
Proof.
  unfold Spec.missingFields, validateViolationForm. simpl.
  destruct (truthy_string (FormData.vehicle_number data)); [|discriminate].
  destruct (truthy_string (FormData.type_id data)); [|discriminate].
  destruct (truthy_string (FormData.area_id data)); [|discriminate].
  destruct (truthy_string (FormData.violation_date data)); [|discriminate].
  reflexivity.
Qed.

Lemma validateViolationForm_false data st field rest :
  Spec.missingFields data = field :: rest ->
  validateViolationForm data st
  = (false, showAlert (Spec.messageFor field) "error" (Some "registerAlert") st).
Proof.
  unfold Spec.missingFields, validateViolationForm. simpl.
  destruct (truthy_string (FormData.vehicle_number data));
    [|intros [= <- _]; reflexivity].
  destruct (truthy_string (FormData.type_id data));
    [|intros [= <- _]; reflexivity].
  destruct (truthy_string (FormData.area_id data));
    [|intros [= <- _]; reflexivity].
  destruct (truthy_string (FormData.violation_date data));
    [discriminate|intros [= <- _]; reflexivity].
Qed.

Lemma registerViolation_valid st :
  Spec.missingFields (readForm st) = [] ->
  violations (registerViolation st)
  = newViolation st (readForm st) :: violations st.
Proof.
  intros H. unfold registerViolation.
  rewrite (validateViolationForm_true _ st H). simpl negb. cbn beta iota zeta.
  destruct (document _ !! "violationForm");
    rewrite ?violations_loadViolationsTable, ?violations_updateDashboard,
      ?violations_resetForm, ?violations_showAlert, ?violations_update;
    reflexivity.
Qed.


Lemma present_fields st :
  truthy_string (getValue st "vehicleNumber") = true ->
  truthy_string (getValue st "violationType") = true ->
  truthy_string (getValue st "area") = true ->
  truthy_string (getValue st "violationDate") = true ->
  Spec.missingFields (readForm st) = [].
Proof. unfold Spec.missingFields. simpl. by intros -> -> -> ->. Qed.

Lemma upper_char_not_lower c : is_lower (upper_char c) = false.
Proof.
  unfold upper_char. destruct (is_lower c) eqn:E; [|exact E].
  unfold is_lower in *. apply andb_true_iff in E. destruct E as [E1 E2].
  apply Nat.leb_le in E1. apply Nat.leb_le in E2.
  rewrite nat_ascii_embedding by lia.
  apply andb_false_iff. left. apply Nat.leb_gt. lia.
Qed.

Lemma toUpperCase_no_lower s c :
  In c (list_ascii_of_string (toUpperCase s)) -> is_lower c = false.
Proof.
  induction s as [|a s IH]; simpl; [tauto|].
  intros [<-|H]; [apply upper_char_not_lower | auto].
Qed.

End Registration.

(** C10.  A registration whose four required fields are filled in puts
    the new record in front of the records that were there, and the
    vehicle number of that record is the one typed into the form
    converted to upper case (no lower-case letter is left in it). *)
Theorem registration_front_upper (st : state) :
  truthy_string (getValue st "vehicleNumber") = true ->
  truthy_string (getValue st "violationType") = true ->
  truthy_string (getValue st "area") = true ->
  truthy_string (getValue st "violationDate") = true ->
  exists v,
    violations (registerViolation st) = v :: violations st
    /\ vehicle_number v = toUpperCase (getValue st "vehicleNumber")
    /\ (forall c, In c (list_ascii_of_string (vehicle_number v)) -> is_lower c = false).
Proof.
  intros H1 H2 H3 H4. eexists. split; [|split].
  - apply registerViolation_valid, present_fields; assumption.
  - reflexivity.
  - simpl. apply toUpperCase_no_lower.
Qed.

Lemma registration_front_upper_example :
  exists v,
    violations (registerViolation filledForm) = v :: violations filledForm
    /\ vehicle_number v = "KA05XY0001".
Proof.
  destruct (registration_front_upper filledForm) as (v & E & U & _);
    try reflexivity.
  exists v. split; [exact E|]. rewrite U. reflexivity.
Defined.

(** C3, as amended.  When required fields are missing (empty), the
    registration adds no record and reports one error: the alert of the
    first missing field, in the order vehicle number, violation type, area,
    date. *)
Theorem registration_reports_first_missing (st : state) (field : string)
    (rest : list string) :
  Spec.missingFields (readForm st) = field :: rest ->
  registerViolation st
  = showAlert (Spec.messageFor field) "error" (Some "registerAlert") st
  /\ violations (registerViolation st) = violations st
  /\ (is_Some (document st !! "registerAlert") ->
      reportedErrors (registerViolation st) = [Spec.messageFor field]).
Proof.
  intros H.
  assert (E : registerViolation st
              = showAlert (Spec.messageFor field) "error" (Some "registerAlert") st).
  { unfold registerViolation. by rewrite (validateViolationForm_false _ st _ _ H). }
  rewrite E. split; [reflexivity|]. split; [apply violations_showAlert|].
  intros [e He]. unfold reportedErrors, showAlert.
  assert (T : truthy_string "registerAlert" = true) by reflexivity.
  rewrite T, document_alertIn, document_update. case_decide; [|congruence].
  rewrite He. reflexivity.
Qed.

Lemma registration_reports_first_missing_example :
  Spec.missingFields (readForm (typed "vehicleNumber" "KA01AB1234" dashboardPage))
  = ["type_id"; "area_id"; "violation_date"]
  /\ reportedErrors (registerViolation (typed "vehicleNumber" "KA01AB1234" dashboardPage))
     = ["Please select violation type"].
Proof.
  split; [reflexivity|].
  eapply (registration_reports_first_missing
            (typed "vehicleNumber" "KA01AB1234" dashboardPage) "type_id").
  - reflexivity.
  - eexists. reflexivity.
Defined.

(** C3, as stated, fails: with the four required fields missing, the form
    reports one error, not one per missing field. *)
Lemma registration_reports_one_of_four :
  Spec.missingFields (readForm dashboardPage)
  = ["vehicle_number"; "type_id"; "area_id"; "violation_date"]
  /\ reportedErrors (registerViolation dashboardPage) = ["Please enter vehicle number"].
Proof. split; vm_compute; reflexivity. Qed.

(** ** Marking as paid *)

Section MarkAsPaid.

Lemma with_status_same v : with_status (status v) v = v.
Proof. by destruct v. Qed.

(** The assignment to the found record is an update of the array at the
    place of the first record with that id. *)
Lemma payFirst_insert violationId vs v :
  List.find (fun v => violation_id v =? violationId) vs = Some v ->
  exists i : nat,
    vs !! i = Some v
    /\ (forall j w, (j < i)%nat -> vs !! j = Some w -> violation_id w <> violationId)
    /\ payFirst violationId vs = <[i := with_status "paid" v]> vs.
Proof.
  induction vs as [|w vs IH]; simpl; [discriminate|].
  destruct (violation_id w =? violationId) eqn:E.
  - intros [= ->]. exists 0%nat. repeat split. intros j w ?. lia.
  - intros H. destruct (IH H) as (i & L & F & P). exists (S i).
    split; [exact L|]. split; [|simpl; by rewrite P].
    intros [|j] u Hj; simpl.
    + intros [= <-]. by apply Z.eqb_neq.
    + apply F. lia.
Qed.

Lemma createAlertContainer_lookup st :
  is_Some (document (createAlertContainer st) !! "globalAlertContainer").
Proof.
  unfold createAlertContainer.
  destruct (document st !! "globalAlertContainer") eqn:E; simpl.
  - rewrite E. by eexists.
  - rewrite lookup_insert_eq. by eexists.
Qed.

Lemma globalAlert_showAlert message type st :
  globalAlert (showAlert message type None st) = Some (AlertBox type message).
Proof.
  unfold globalAlert, showAlert. rewrite document_alertIn, document_update.
  case_decide; [|congruence].
  destruct (createAlertContainer_lookup st) as [e ->]. reflexivity.
Qed.

Lemma globalAlert_refresh st :
  globalAlert (loadAnalytics (loadViolationsTable (updateDashboard st)))
  = globalAlert st.
Proof.
  unfold globalAlert, loadAnalytics, displayTypeChart, displayAreaChart,
    updateAnalyticsStats, loadViolationsTable, updateDashboard,
    updateRecentViolationsTable, updateElement.
  by rewrite !document_update_ne by reflexivity.
Qed.

Lemma markAsPaid_found violationId st v :
  List.find (fun v => violation_id v =? violationId) (violations st) = Some v ->
  violations (markAsPaid violationId true st) = payFirst violationId (violations st)
  /\ payments (markAsPaid violationId true st) = payments st
  /\ globalAlert (markAsPaid violationId true st)
     = Some (AlertBox "success" "Payment recorded successfully!")
  /\ markAsPaid violationId false st = st.
Proof.
  intros H. unfold markAsPaid. rewrite H. repeat split.
  - by rewrite violations_loadAnalytics, violations_loadViolationsTable,
      violations_updateDashboard, violations_showAlert.
  - by rewrite payments_loadAnalytics, payments_loadViolationsTable,
      payments_updateDashboard, payments_showAlert.
  - by rewrite globalAlert_refresh, globalAlert_showAlert.
Qed.

End MarkAsPaid.

(** C6, as amended.  For a record that [markAsPaid] finds by its id,
    whatever its status: when the user confirms, the status of that record
    becomes [paid], no other field and no other record changes, the success
    alert is shown, and the payments are what they were (no payment is
    created); when the user cancels, nothing changes. *)
Theorem markAsPaid_sets_status (st : state) (violationId : Z) (v : Violation) :
  List.find (fun v => violation_id v =? violationId) (violations st) = Some v ->
  (exists i : nat,
      violations st !! i = Some v
      /\ violations (markAsPaid violationId true st)
         = <[i := with_status "paid" v]> (violations st))
  /\ payments (markAsPaid violationId true st) = payments st
  /\ globalAlert (markAsPaid violationId true st)
     = Some (AlertBox "success" "Payment recorded successfully!")
  /\ markAsPaid violationId false st = st.
Proof.
  intros H. destruct (markAsPaid_found violationId st v H) as (V & P & A & C).
  split; [|auto].
  destruct (payFirst_insert _ _ _ H) as (i & L & _ & E).
  exists i. split; [exact L|]. by rewrite V, E.
Qed.

Lemma markAsPaid_sets_status_example :
  map status (violations dashboardPage) = ["paid"; "unpaid"; "paid"]
  /\ map status (violations (markAsPaid 2 true dashboardPage)) = ["paid"; "paid"; "paid"]
  /\ payments (markAsPaid 2 true dashboardPage) = payments dashboardPage.
Proof.
  split; [reflexivity|].
  destruct (markAsPaid_sets_status dashboardPage 2
              {| violation_id := 2; vehicle_number := "DL02CD5678";
                 owner_name := "Jane Smith"; type_name := "Red Light Violation";
                 area_name := "Connaught Place";
                 violation_date := "2025-01-14 14:45"; fine_amount := of_Z 1000;
                 status := "unpaid" |} eq_refl) as ((i & L & E) & P & _).
  split; [|exact P].
  rewrite E. destruct i as [|[|[|i]]]; try (vm_compute in L; discriminate L).
  reflexivity.
Defined.

(** C6, as stated, fails: marking the unpaid record of the mock data as
    paid changes its status and appends no payment. *)
Lemma markAsPaid_appends_no_payment :
  map status (violations dashboardPage) = ["paid"; "unpaid"; "paid"]
  /\ map status (violations (markAsPaid 2 true dashboardPage)) = ["paid"; "paid"; "paid"]
  /\ length (payments (markAsPaid 2 true dashboardPage))
     <> S (length (payments dashboardPage)).
Proof. repeat split; vm_compute; congruence. Qed.

(** C1, as amended.  For a record that is already [paid], [markAsPaid]
    does not fail: when the user confirms it shows the success alert, and
    in every case the records are left as they were. *)
Theorem markAsPaid_paid_unmodified (st : state) (violationId : Z) (v : Violation)
    (confirmed : bool) :
  List.find (fun v => violation_id v =? violationId) (violations st) = Some v ->
  status v = "paid" ->
  violations (markAsPaid violationId confirmed st) = violations st
  /\ payments (markAsPaid violationId confirmed st) = payments st
  /\ globalAlert (markAsPaid violationId true st)
     = Some (AlertBox "success" "Payment recorded successfully!").
Proof.
  intros H Hs. destruct (markAsPaid_found violationId st v H) as (V & P & A & C).
  split; [|split; [|exact A]].
  - destruct confirmed; [|by rewrite C].
    rewrite V. destruct (payFirst_insert _ _ _ H) as (i & L & _ & ->).
    rewrite <- Hs, with_status_same. by apply list_insert_id.
  - destruct confirmed; [exact P | by rewrite C].
Qed.

Lemma markAsPaid_paid_unmodified_example :
  violations (markAsPaid 1 true dashboardPage) = violations dashboardPage
  /\ violations (markAsPaid 1 false dashboardPage) = violations dashboardPage.
Proof.
  split.
  - eapply (markAsPaid_paid_unmodified dashboardPage 1); reflexivity.
  - eapply (markAsPaid_paid_unmodified dashboardPage 1); reflexivity.
Defined.

(** C1, as stated, fails: marking the first record of the mock data, which
    is paid, as paid again ends with the success alert and without an error
    alert. *)
Lemma markAsPaid_paid_succeeds :
  map status (violations dashboardPage) = ["paid"; "unpaid"; "paid"]
  /\ map violation_id (violations dashboardPage) = [1; 2; 3]
  /\ globalAlert (markAsPaid 1 true dashboardPage)
     = Some (AlertBox "success" "Payment recorded successfully!")
  /\ errorAlerts (markAsPaid 1 true dashboardPage) = [].
Proof. repeat split; vm_compute; reflexivity. Qed.

(** ** The fine that the drop-down fills in *)

Section BaseFine.

Lemma take_digits_string_of_uint d :
  take_digits (NilEmpty.string_of_uint d) = (d, EmptyString).
Proof. induction d; simpl; rewrite ?IHd; reflexivity. Qed.

Lemma string_of_uint_truthy d :
  d <> Decimal.Nil -> truthy_string (NilEmpty.string_of_uint d) = true.
Proof. destruct d; simpl; congruence. Qed.

Lemma Z_to_string_truthy z : truthy_string (Z_to_string z) = true.
Proof.
  destruct z as [|p|p]; simpl; try reflexivity.
  unfold NilZero.string_of_uint. destruct (Pos.to_uint p); reflexivity.
Qed.

Lemma uint_value_to_uint p : uint_value (Pos.to_uint p) = Zpos p.
Proof.
  unfold uint_value, N.of_uint. by rewrite DecimalPos.Unsigned.of_to.
Qed.

(** The digits of a positive integer read back as that integer. *)
Lemma take_unsigned_literal_digits p :
  take_unsigned_literal (NilZero.string_of_uint (Pos.to_uint p))
  = Some (of_Z (Zpos p), EmptyString).
Proof.
  pose proof (DecimalPos.Unsigned.to_uint_nonnil p) as N.
  pose proof (uint_value_to_uint p) as V.
  pose proof (take_digits_string_of_uint (Pos.to_uint p)) as T.
  unfold take_unsigned_literal, NilZero.string_of_uint.
  destruct (Pos.to_uint p) as [|d|d|d|d|d|d|d|d|d|d]; [congruence|..];
    (replace (strip_prefix "Infinity" _) with (@None string) by reflexivity;
     rewrite T; simpl; unfold of_Z; by rewrite V).
Qed.


Lemma getValue_update id f st id' :
  getValue (update id f st) id'
  = if String.eqb id id'
    then match document st !! id' with Some e => value (f e) | None => EmptyString end
    else getValue st id'.
Proof.
  unfold getValue. rewrite document_update.
  destruct (String.eqb id id') eqn:E.
  - apply String.eqb_eq in E. case_decide; [|contradiction].
    by destruct (document st !! id').
  - apply String.eqb_neq in E. case_decide; [contradiction|reflexivity].
Qed.

(** After the user has picked the option of the type [t], the select holds
    the id of [t] and the fine input its base fine. *)
Lemma changeViolationType_fills st i t :
  is_Some (document st !! "violationType") ->
  is_Some (document st !! "fineAmount") ->
  violationTypes st !! i = Some t ->
  getValue (changeViolationType (S i) st) "violationType"
  = Z_to_string (ViolationType.type_id t)
  /\ getValue (changeViolationType (S i) st) "fineAmount"
     = Z_to_string (ViolationType.base_fine t).
Proof.
  intros [sel Hsel] [inp Hinp] Ht.
  unfold changeViolationType, violationTypeOptions. rewrite Hsel. simpl.
  rewrite list_lookup_fmap, Ht. simpl.
  rewrite document_update_ne, Hinp by reflexivity.
  rewrite Z_to_string_truthy.
  rewrite !getValue_update. simpl.
  rewrite document_update_ne, Hinp, Hsel by reflexivity. tauto.
Qed.

End BaseFine.




(** ** The group-by charts *)

Section Tally.

Lemma countBy_fold key vs : countBy key vs = fold_left step (map key vs) [].
Proof.
  unfold countBy. generalize (@nil (string * stat)).
  induction vs as [|v vs IH]; intros o; simpl; [reflexivity | apply IH].
Qed.

Lemma existsb_eqb_In k (l : list string) :
  existsb (String.eqb k) l = true <-> In k l.
Proof.
  rewrite existsb_exists. split.
  - intros (x & Hx & E). apply String.eqb_eq in E. by subst.
  - intros H. exists k. split; [exact H | apply String.eqb_refl].
Qed.

Lemma firstOccurrences_snoc p k :
  Spec.firstOccurrences (p ++ [k])
  = if existsb (String.eqb k) (Spec.firstOccurrences p)
    then Spec.firstOccurrences p
    else Spec.firstOccurrences p ++ [k].
Proof. unfold Spec.firstOccurrences. by rewrite fold_left_app. Qed.

Lemma firstOccurrences_In p k : In k (Spec.firstOccurrences p) <-> In k p.
Proof.
  induction p as [|x p IH] using rev_ind; [reflexivity|].
  rewrite firstOccurrences_snoc, in_app_iff. simpl.
  destruct (existsb _ _) eqn:E.
  - apply existsb_eqb_In in E. rewrite IH. split; [tauto|].
    intros [H|[<-|[]]]; [exact H | by apply IH].
  - rewrite in_app_iff, IH. simpl. tauto.
Qed.

Lemma firstOccurrences_NoDup p : List.NoDup (Spec.firstOccurrences p).
Proof.
  induction p as [|x p IH] using rev_ind; [constructor|].
  rewrite firstOccurrences_snoc. destruct (existsb _ _) eqn:E; [exact IH|].
  apply List.NoDup_app; [exact IH | repeat constructor; simpl; tauto |].
  intros y Hy [<-|[]]. apply existsb_eqb_In in Hy. congruence.
Qed.

Lemma occurrences_snoc k p x :
  Spec.occurrences k (p ++ [x])
  = (Spec.occurrences k p + if String.eqb x k then 1 else 0)%nat.
Proof.
  induction p as [|y p IH]; simpl.
  - destruct (String.eqb x k); reflexivity.
  - rewrite IH. destruct (String.eqb y k); reflexivity.
Qed.

Lemma occurrences_absent k p : ~ In k p -> Spec.occurrences k p = 0%nat.
Proof.
  induction p as [|y p IH]; simpl; [reflexivity|]. intros H.
  destruct (String.eqb y k) eqn:E.
  - apply String.eqb_eq in E. tauto.
  - apply IH. tauto.
Qed.

Lemma own_map (g : string -> stat) l k :
  own (map (fun x => (x, g x)) l) k
  = if existsb (String.eqb k) l then Some (g k) else None.
Proof.
  induction l as [|x l IH]; simpl; [reflexivity|].
  rewrite (String.eqb_sym k x). destruct (String.eqb x k) eqn:E; simpl.
  - apply String.eqb_eq in E. by subst.
  - exact IH.
Qed.

Lemma put_absent (g : string -> stat) l k v :
  ~ In k l ->
  put (map (fun x => (x, g x)) l) k v = map (fun x => (x, g x)) l ++ [(k, v)].
Proof.
  induction l as [|x l IH]; simpl; [reflexivity|]. intros H.
  destruct (String.eqb x k) eqn:E.
  - apply String.eqb_eq in E. tauto.
  - rewrite IH by tauto. reflexivity.
Qed.

Lemma put_present (g g' : string -> stat) l k :
  List.NoDup l ->
  In k l ->
  (forall x, In x l -> x <> k -> g' x = g x) ->
  put (map (fun x => (x, g x)) l) k (g' k) = map (fun x => (x, g' x)) l.
Proof.
  induction 1 as [|x l Hx Hl IH]; simpl; [tauto|]. intros H A.
  destruct (String.eqb x k) eqn:E.
  - apply String.eqb_eq in E. subst x. f_equal.
    apply map_ext_in. intros y Hy. f_equal. symmetry. apply A; [tauto|].
    intros ->. contradiction.
  - apply String.eqb_neq in E. rewrite <- (A x (or_introl eq_refl) E). f_equal.
    apply IH; [|intros; apply A; tauto].
    destruct H as [H|H]; [congruence | exact H].
Qed.

Lemma not_inherited_proto k : inherited k = false -> String.eqb k "__proto__" = false.
Proof.
  intros H. destruct (String.eqb k "__proto__") eqn:E; [|reflexivity].
  apply String.eqb_eq in E. subst k. discriminate H.
Qed.

(** One turn of the loop on a key that [Object.prototype] does not have. *)
Lemma step_tally p k :
  inherited k = false -> step (tally p) k = tally (p ++ [k]).
Proof.
  intros Hk. unfold step, set, get, tally.
  rewrite (not_inherited_proto k Hk), own_map, firstOccurrences_snoc, Hk.
  destruct (existsb (String.eqb k) (Spec.firstOccurrences p)) eqn:E; simpl.
  - apply existsb_eqb_In in E.
    rewrite <- (put_present (fun x => Count (Spec.occurrences x p))
                            (fun x => Count (Spec.occurrences x (p ++ [k])))
                            _ k (firstOccurrences_NoDup p) E).
    + by rewrite occurrences_snoc, String.eqb_refl.
    + intros x _ Hx. rewrite occurrences_snoc.
      apply not_eq_sym, String.eqb_neq in Hx. rewrite Hx. f_equal. lia.
  - assert (N : ~ In k (Spec.firstOccurrences p)).
    { intros H. apply existsb_eqb_In in H. congruence. }
    rewrite put_absent by exact N. rewrite map_app. simpl.
    rewrite occurrences_snoc, String.eqb_refl.
    rewrite (occurrences_absent k p) by (by rewrite <- firstOccurrences_In).
    f_equal. apply map_ext_in. intros x Hx. rewrite occurrences_snoc.
    destruct (String.eqb k x) eqn:E'.
    + apply String.eqb_eq in E'. by subst.
    + f_equal. f_equal. lia.
Qed.

Lemma fold_step_tally l p :
  Forall (fun k => inherited k = false) l ->
  fold_left step l (tally p) = tally (p ++ l).
Proof.
  intros H. revert p. induction H as [|k l Hk _ IH]; intros p; simpl.
  - by rewrite app_nil_r.
  - rewrite step_tally by exact Hk. rewrite IH, <- app_assoc. reflexivity.
Qed.

(** The loop counts the occurrences of each key, and creates the keys in
    the order of their first occurrences. *)
Lemma countBy_tally key vs :
  Forall (fun v => inherited (key v) = false) vs ->
  countBy key vs = tally (map key vs).
Proof.
  intros H. rewrite countBy_fold.
  change (@nil (string * stat)) with (tally []).
  rewrite fold_step_tally; [reflexivity|].
  by apply List.Forall_map.
Qed.

End Tally.

Section Entries.

Lemma insert_by_index_perm e l : Permutation (insert_by_index e l) (e :: l).
Proof.
  induction l as [|x l IH]; simpl; [reflexivity|].
  destruct (fst e <=? fst x); [reflexivity|].
  rewrite IH. apply perm_swap.
Qed.

Lemma sort_by_index_perm l : Permutation (sort_by_index l) l.
Proof.
  induction l as [|x l IH]; simpl; [reflexivity|].
  rewrite insert_by_index_perm. by constructor.
Qed.

Lemma insert_by_index_sorted e l :
  StronglySorted byIndex l -> StronglySorted byIndex (insert_by_index e l).
Proof.
  induction 1 as [|x l Hl IH Hx]; simpl.
  - repeat constructor.
  - destruct (fst e <=? fst x) eqn:E.
    + apply Z.leb_le in E. constructor; [by constructor|].
      constructor; [exact E|].
      eapply List.Forall_impl; [|exact Hx]. unfold byIndex. intros; lia.
    + apply Z.leb_gt in E. constructor; [exact IH|].
      eapply Permutation_Forall; [symmetry; apply insert_by_index_perm|].
      constructor; [unfold byIndex; lia | exact Hx].
Qed.

Lemma sort_by_index_sorted l : StronglySorted byIndex (sort_by_index l).
Proof.
  induction l as [|x l IH]; simpl; [constructor|].
  by apply insert_by_index_sorted.
Qed.

Lemma indexed_index o i e :
  In (i, e) (indexed o) -> array_index (fst e) = Some i.
Proof.
  induction o as [|x o IH]; simpl; [tauto|].
  destruct (array_index (fst x)) eqn:E; simpl; [|exact IH].
  intros [[= <- <-]|H]; [exact E | by apply IH].
Qed.

Lemma indexed_entries o :
  map snd (indexed o) = List.filter (fun e => Spec.isIndex (fst e)) o.
Proof.
  unfold Spec.isIndex. induction o as [|x o IH]; simpl; [reflexivity|].
  destruct (array_index (fst x)); simpl; by rewrite IH.
Qed.

Lemma named_entries o :
  named o = List.filter (fun e => negb (Spec.isIndex (fst e))) o.
Proof.
  unfold named, Spec.isIndex. apply List.filter_ext. intros e.
  by destruct (array_index (fst e)).
Qed.

Lemma filter_map_fst (f : string -> bool) (g : string -> stat) l :
  map fst (List.filter (fun e => f (fst e)) (map (fun k => (k, g k)) l))
  = List.filter f l.
Proof.
  induction l as [|x l IH]; simpl; [reflexivity|].
  destruct (f x); simpl; by rewrite IH.
Qed.

(** The entries are the properties in another order. *)
Lemma entries_perm o : Permutation (entries o) o.
Proof.
  unfold entries. rewrite sort_by_index_perm, indexed_entries, named_entries.
  induction o as [|x o IH]; simpl; [reflexivity|].
  destruct (Spec.isIndex (fst x)); simpl.
  - by constructor.
  - rewrite <- Permutation_middle. by constructor.
Qed.

(** The array indices come first, in ascending order. *)
Lemma entries_sorted o :
  StronglySorted Spec.indexOrder (map fst (map snd (sort_by_index (indexed o)))).
Proof.
  pose proof (sort_by_index_sorted (indexed o)) as S.
  assert (I : Forall (fun ie => array_index (fst (snd ie)) = Some (fst ie))
                     (sort_by_index (indexed o))).
  { eapply Permutation_Forall; [symmetry; apply sort_by_index_perm|].
    apply List.Forall_forall. intros [i e]. apply indexed_index. }
  induction S as [|x l Hl IH Hx]; simpl; [constructor|].
  apply Forall_cons_iff in I. destruct I as [Ix Il].
  constructor; [by apply IH|].
  rewrite List.Forall_map, List.Forall_map.
  rewrite List.Forall_forall in *. intros y Hy.
  unfold Spec.indexOrder. rewrite Ix, (Il y Hy). by apply Hx.
Qed.

End Entries.

Section Percentages.

Ltac literals :=
  repeat match goal with
         | |- context [Pos.pow ?a ?b] =>
             let c := eval vm_compute in (Pos.pow a b) in
             change (Pos.pow a b) with c
         | H : context [Pos.pow ?a ?b] |- _ =>
             let c := eval vm_compute in (Pos.pow a b) in
             change (Pos.pow a b) with c in H
         end.

Lemma Qfloor_half q :
  (inject_Z (round_half_up q) <= q + (1 # 2))%Q
  /\ (q + (1 # 2) < inject_Z (round_half_up q) + 1)%Q.
Proof.
  unfold round_half_up. split; [apply Qfloor_le|].
  pose proof (Qlt_floor (q + (1 # 2))) as L.
  rewrite inject_Z_plus in L. exact L.
Qed.

(** The quotient [c / n] of two counts and its product by 100, as
    binary64 computes them, for [0 < c <= n < 2^32]. *)
Lemma percent_near c n :
  0 < c <= n -> n < 2 ^ 32 ->
  exists r,
    mul (div (of_Z c) (of_Z n)) (of_Z 100) = Fin r
    /\ (100 * (inject_Z c / inject_Z n) - (1 # 2 ^ 40) <= r)%Q
    /\ (r <= 100 * (inject_Z c / inject_Z n) + (1 # 2 ^ 40))%Q.
Proof.
  intros Hc Hn.
  assert (N0 : (0 < inject_Z n)%Q) by (unfold Qlt; simpl; lia).
  set (q := (inject_Z c / inject_Z n)%Q).
  assert (Q1 : (q <= 1)%Q).
  { unfold q. apply Qle_shift_div_r; [exact N0|]. rewrite Qmult_1_l.
    rewrite <- Zle_Qle. lia. }
  assert (Q0 : ((1 # 2 ^ 32) <= q)%Q).
  { unfold q. apply Qle_shift_div_l; [exact N0|].
    unfold Qle. simpl. lia. }
  unfold div, of_Z. replace (Qzero (inject_Z n)) with false
    by (unfold Qzero; simpl; symmetry; apply Z.eqb_neq; lia).
  fold q.
  destruct (to_binary64_near q) as (r1 & -> & L1 & U1).
  { apply Qle_trans with ((1 # 2 ^ 32) * inject_Z (2 ^ 1022))%Q.
    - vm_compute. discriminate.
    - apply Qmult_le_compat_r; [exact Q0 | vm_compute; discriminate]. }
  { apply Qle_lt_trans with 1%Q; [exact Q1 | reflexivity]. }
  unfold mul.
  destruct (to_binary64_near (r1 * inject_Z 100)) as (r2 & -> & L2 & U2).
  { apply Qle_trans with ((1 # 2 ^ 33) * inject_Z 100 * inject_Z (2 ^ 1022))%Q.
    - vm_compute. discriminate.
    - apply Qmult_le_compat_r; [|vm_compute; discriminate].
      apply Qmult_le_compat_r; [|vm_compute; discriminate].
      clearbody q. literals. lra. }
  { apply Qle_lt_trans with (2 * inject_Z 100)%Q; [|reflexivity].
    apply Qmult_le_compat_r; [|vm_compute; discriminate]. clearbody q. literals. lra. }
  exists r2. split; [reflexivity|].
  change (inject_Z 100) with 100%Q in *. clearbody q. literals. split; lra.
Qed.

Lemma percentageOf_zero n :
  (0 < n)%nat -> percentageOf n (Count 0) = "0.0" /\ tenthsOf 0 n = 0.
Proof.
  intros Hn. unfold percentageOf, tenthsOf, stat_number, of_nat.
  assert (E : mul (div (of_Z 0) (of_Z (Z.of_nat n))) (of_Z 100) = Fin 0).
  { unfold div, of_Z. replace (Qzero (inject_Z (Z.of_nat n))) with false
      by (unfold Qzero; simpl; symmetry; apply Z.eqb_neq; lia).
    rewrite (to_binary64_Qeq _ 0) by (unfold Qeq; simpl; lia).
    reflexivity. }
  change (Z.of_nat 0) with 0. rewrite E. split; reflexivity.
Qed.

(** What [percentageOf] prints is a number of tenths nearest to the
    exact percentage: within half a tenth of it. *)
Lemma percentageOf_count c n :
  (0 < n)%nat -> (c <= n)%nat -> Z.of_nat n < 2 ^ 32 ->
  percentageOf n (Count c) = fixed_digits (tenthsOf c n) 1
  /\ - Z.of_nat n <= 2 * Z.of_nat n * tenthsOf c n - 2000 * Z.of_nat c <= Z.of_nat n.
Proof.
  intros Hn Hc Hb. destruct c as [|c'].
  - destruct (percentageOf_zero n Hn) as [-> ->]. split; [reflexivity | lia].
  - set (c := S c') in *.
    destruct (percent_near (Z.of_nat c) (Z.of_nat n)) as (r & E & L & U);
      [unfold c; lia | exact Hb |].
    unfold percentageOf, tenthsOf, stat_number, of_nat. rewrite E.
    set (q := (inject_Z (Z.of_nat c) / inject_Z (Z.of_nat n))%Q) in *.
    assert (N0 : (0 < inject_Z (Z.of_nat n))%Q) by (unfold Qlt; simpl; lia).
    assert (C0 : (0 < inject_Z (Z.of_nat c))%Q) by (unfold Qlt, c; simpl; lia).
    assert (Nb : (inject_Z (Z.of_nat n) < inject_Z (2 ^ 32))%Q)
      by (rewrite <- Zlt_Qlt; exact Hb).
    assert (Q1 : (q <= 1)%Q).
    { unfold q. apply Qle_shift_div_r; [exact N0|]. rewrite Qmult_1_l.
      rewrite <- Zle_Qle. lia. }
    assert (Q0 : ((1 # 2 ^ 32) <= q)%Q).
    { unfold q. apply Qle_shift_div_l; [exact N0|].
      unfold Qle, c. simpl. lia. }
    assert (QN : (q * inject_Z (Z.of_nat n) == inject_Z (Z.of_nat c))%Q).
    { unfold q. field. intros Z. rewrite Z in N0. discriminate. }
    assert (R0 : (0 < r)%Q) by (clearbody q; literals; lra).
    assert (Ng : Qneg r = false).
    { unfold Qneg. apply Z.ltb_ge. unfold Qlt in R0. simpl in R0. lia. }
    assert (Sm : Qle_bool (inject_Z (10 ^ 21)) r = false).
    { apply not_true_is_false. intros B. apply Qle_bool_iff in B.
      change (inject_Z (10 ^ 21)) with 1000000000000000000000%Q in B.
      clearbody q. literals. lra. }
    unfold toFixed, fixed. rewrite Ng, Sm. split; [reflexivity|].
    unfold fixed_units. change (inject_Z (Zpos (pow10 1))) with 10%Q.
    destruct (Qfloor_half (r * 10)) as [Fl Fu].
    set (t := round_half_up (r * 10)) in *.
    set (N := inject_Z (Z.of_nat n)) in *. set (C := inject_Z (Z.of_nat c)) in *.
    assert (Up : (inject_Z t * N <= (1000 * q + (10 # 2 ^ 40) + (1 # 2)) * N)%Q).
    { apply Qmult_le_compat_r; [|apply Qlt_le_weak, N0].
      clearbody q t N C. literals. lra. }
    assert (Lo : ((1000 * q - (10 # 2 ^ 40) - (1 # 2)) * N <= inject_Z t * N)%Q).
    { apply Qmult_le_compat_r; [|apply Qlt_le_weak, N0].
      clearbody q t N C. literals. lra. }
    assert (Up' : (inject_Z t * N <= 1000 * C + ((10 # 2 ^ 40) + (1 # 2)) * N)%Q).
    { eapply Qle_trans; [exact Up|]. rewrite <- QN. apply Qle_lteq. right. ring. }
    assert (Lo' : (1000 * C - ((10 # 2 ^ 40) + (1 # 2)) * N <= inject_Z t * N)%Q).
    { eapply Qle_trans; [|exact Lo]. rewrite <- QN. apply Qle_lteq. right. ring. }
    assert (Z1 : (inject_Z (2 * Z.of_nat n * t - 2000 * Z.of_nat c - Z.of_nat n) < 1)%Q).
    { unfold Z.sub. rewrite !inject_Z_plus, !inject_Z_opp, !inject_Z_mult.
      fold N C. change (inject_Z 2) with 2%Q. change (inject_Z 2000) with 2000%Q.
      change (inject_Z (2 ^ 32)) with 4294967296%Q in Nb.
      set (X := (inject_Z t * N)%Q) in *.
      assert (XE : (2 * N * inject_Z t == 2 * X)%Q) by (unfold X; ring).
      rewrite XE. clearbody X q t N C. literals. lra. }
    assert (Z2 : (-1 < inject_Z (2 * Z.of_nat n * t - 2000 * Z.of_nat c + Z.of_nat n))%Q).
    { unfold Z.sub. rewrite !inject_Z_plus, !inject_Z_opp, !inject_Z_mult.
      fold N C. change (inject_Z 2) with 2%Q. change (inject_Z 2000) with 2000%Q.
      change (inject_Z (2 ^ 32)) with 4294967296%Q in Nb.
      set (X := (inject_Z t * N)%Q) in *.
      assert (XE : (2 * N * inject_Z t == 2 * X)%Q) by (unfold X; ring).
      rewrite XE. clearbody X q t N C. literals. lra. }
    change 1%Q with (inject_Z 1) in Z1. change (-1)%Q with (inject_Z (-1)) in Z2.
    rewrite <- Zlt_Qlt in Z1, Z2. lia.
Qed.

Lemma tenthsOf_range c n :
  (0 < n)%nat -> (c <= n)%nat -> Z.of_nat n < 2 ^ 32 -> 0 <= tenthsOf c n <= 1000.
Proof.
  intros Hn Hc Hb. destruct (percentageOf_count c n Hn Hc Hb) as [_ B]. nia.
Qed.

Lemma sumZ_perm (f : string -> Z) l l' :
  Permutation l l' -> Spec.sumZ (map f l) = Spec.sumZ (map f l').
Proof.
  induction 1; simpl; unfold Spec.sumZ in *; simpl in *; lia.
Qed.

Lemma sumZ_app l l' : Spec.sumZ (l ++ l') = Spec.sumZ l + Spec.sumZ l'.
Proof. unfold Spec.sumZ. induction l; simpl; lia. Qed.

Lemma sumZ_indicator (g : string -> nat) x l :
  List.NoDup l ->
  Spec.sumZ (map (fun k => Z.of_nat (g k + if String.eqb x k then 1 else 0)) l)
  = Spec.sumZ (map (fun k => Z.of_nat (g k)) l)
    + if existsb (String.eqb x) l then 1 else 0.
Proof.
  induction 1 as [|y l Hy Hl IH]; [reflexivity|].
  simpl. unfold Spec.sumZ in *. simpl. rewrite IH.
  destruct (String.eqb x y) eqn:E; simpl.
  - apply String.eqb_eq in E. subst y.
    destruct (existsb (String.eqb x) l) eqn:E'; [|lia].
    apply existsb_eqb_In in E'. contradiction.
  - destruct (existsb (String.eqb x) l); lia.
Qed.

(** Every key is counted once: the counters add up to the number of keys. *)
Lemma sum_occurrences p :
  Spec.sumZ (map (fun k => Z.of_nat (Spec.occurrences k p)) (Spec.firstOccurrences p))
  = Z.of_nat (length p).
Proof.
  induction p as [|x p IH] using rev_ind; [reflexivity|].
  rewrite firstOccurrences_snoc, length_app. simpl.
  pose proof (sumZ_indicator (fun k => Spec.occurrences k p) x _
                (firstOccurrences_NoDup p)) as S.
  destruct (existsb (String.eqb x) (Spec.firstOccurrences p)) eqn:E.
  - rewrite (map_ext _ _ (fun k => f_equal Z.of_nat (occurrences_snoc k p x))).
    rewrite S, IH. lia.
  - rewrite map_app, sumZ_app.
    rewrite (map_ext _ _ (fun k => f_equal Z.of_nat (occurrences_snoc k p x))).
    rewrite S, IH. simpl. rewrite occurrences_snoc, String.eqb_refl.
    rewrite (occurrences_absent x p).
    + unfold Spec.sumZ. simpl. lia.
    + rewrite <- firstOccurrences_In. intros H. apply existsb_eqb_In in H. congruence.
Qed.

Lemma occurrences_le k ks : (Spec.occurrences k ks <= length ks)%nat.
Proof.
  induction ks as [|x ks IH]; simpl; [lia|].
  destruct (String.eqb x k); lia.
Qed.

Lemma sum_tenths_near (g : string -> nat) n l :
  (0 < n)%nat -> Z.of_nat n < 2 ^ 32 -> (forall k, g k <= n)%nat ->
  let T := Spec.sumZ (map (fun k => tenthsOf (g k) n) l) in
  let C := Spec.sumZ (map (fun k => Z.of_nat (g k)) l) in
  - Z.of_nat (length l) * Z.of_nat n
  <= 2 * Z.of_nat n * T - 2000 * C
  <= Z.of_nat (length l) * Z.of_nat n.
Proof.
  intros Hn Hb Hg. induction l as [|k l IH]; simpl in *; unfold Spec.sumZ in *; simpl.
  - lia.
  - destruct (percentageOf_count (g k) n Hn (Hg k) Hb) as [_ B]. lia.
Qed.

Lemma filter_none (f : string -> bool) l :
  Forall (fun k => f k = false) l -> List.filter f l = [].
Proof. induction 1 as [|x l Hx _ IH]; simpl; [reflexivity|]. by rewrite Hx. Qed.

Lemma filter_all (f : string -> bool) l :
  Forall (fun k => f k = true) l -> List.filter f l = l.
Proof. induction 1 as [|x l Hx _ IH]; simpl; [reflexivity|]. by rewrite Hx, IH. Qed.

Lemma tally_labels p : map fst (tally p) = Spec.firstOccurrences p.
Proof. unfold tally. rewrite map_map. simpl. apply map_id. Qed.

Lemma tally_entry p e :
  In e (tally p) -> e = (fst e, Count (Spec.occurrences (fst e) p)).
Proof. unfold tally. rewrite in_map_iff. by intros (k & <- & _). Qed.

Lemma chartBars_tally key vs :
  Forall (fun v => inherited (key v) = false) vs ->
  chartBars key vs
  = map (barOf (map key vs)) (map fst (entries (tally (map key vs)))).
Proof.
  intros Hk. unfold chartBars. rewrite (countBy_tally key vs Hk), map_map.
  apply map_ext_in. intros e He.
  apply (Permutation_in _ (entries_perm _)) in He. apply tally_entry in He.
  rewrite He. unfold barOf. simpl. by rewrite length_map.
Qed.

Lemma labels_barOf ks l : map label (map (barOf ks) l) = l.
Proof. rewrite map_map. simpl. apply map_id. Qed.

(** The numeral that [toFixed(1)] prints for a number of tenths up to a
    thousand stands for that number of tenths. *)
Lemma shownTenths_fixed u :
  0 <= u <= 1000 -> Spec.shownTenths (fixed_digits u 1) = u.
Proof.
  intros Hu.
  assert (A : forallb (fun i => Spec.shownTenths (fixed_digits (Z.of_nat i) 1)
                                =? Z.of_nat i)
                      (seq 0 1001) = true) by (vm_compute; reflexivity).
  rewrite forallb_forall in A. specialize (A (Z.to_nat u)).
  rewrite Z2Nat.id in A by lia. apply Z.eqb_eq, A, in_seq. lia.
Qed.

End Percentages.

(** C8, as amended.  For a non-empty collection of fewer than [2^32]
    records (the bound of an array) none of whose keys names a member of
    [Object.prototype], a chart (by area, by type, or by any other key)
    has one bar per distinct key; the bar shows the number of occurrences
    of the key and the value of [(count / total * 100).toFixed(1)], which
    is a number of tenths nearest to [100 * count / total]: it differs
    from it by half a tenth at most, and where two numbers of tenths are as
    near, binary64 decides which one is shown.  The keys that are array
    indices come first, in ascending numeric order, and the other keys
    follow in the order of their first occurrences; so when no key is an
    array index the bars are in the order of the first occurrences.  The
    percentages on display add up to 100 within 0.1 per bar. *)
Theorem chart_breakdown (key : Violation -> string) (vs : list Violation) :
  vs <> [] ->
  Z.of_nat (length vs) < 2 ^ 32 ->
  Forall (fun v => inherited (key v) = false) vs ->
  let keys := map key vs in
  let n := length vs in
  let bars := chartBars key vs in
  let labels := map label bars in
  List.NoDup labels
  /\ (forall k, In k labels <-> In k keys)
  /\ (forall b, In b bars ->
        let c := Spec.occurrences (label b) keys in
        let t := Spec.shownTenths (percentage b) in
        count b = Count c
        /\ percentage b = toFixed (mul (div (of_nat c) (of_nat n)) (of_Z 100)) 1
        /\ percentage b = fixed_digits t 1
        /\ - Z.of_nat n <= 2 * Z.of_nat n * t - 2000 * Z.of_nat c <= Z.of_nat n)
  /\ (exists indices,
        labels = indices ++ List.filter (fun k => negb (Spec.isIndex k))
                                        (Spec.firstOccurrences keys)
        /\ Permutation indices
             (List.filter Spec.isIndex (Spec.firstOccurrences keys))
        /\ StronglySorted Spec.indexOrder indices)
  /\ (Forall (fun k => Spec.isIndex k = false) keys ->
      labels = Spec.firstOccurrences keys)
  /\ Z.abs (Spec.sumZ (map (fun b => Spec.shownTenths (percentage b)) bars) - 1000)
     <= Z.of_nat (length bars).
Proof.
  intros Hne Hb Hk keys n bars labels.
  assert (Hn : (0 < n)%nat) by (unfold n; destruct vs; [congruence | simpl; lia]).
  assert (Ln : length keys = n) by apply length_map.
  assert (B : bars = map (barOf keys) (map fst (entries (tally keys))))
    by (apply chartBars_tally; assumption).
  assert (L : labels = map fst (entries (tally keys))).
  { unfold labels. rewrite B. apply labels_barOf. }
  rewrite <- L in B.
  assert (P : Permutation labels (Spec.firstOccurrences keys)).
  { rewrite L, <- tally_labels. apply Permutation_map, entries_perm. }
  assert (Oc : forall k, (Spec.occurrences k keys <= n)%nat)
    by (intros k; rewrite <- Ln; apply occurrences_le).
  assert (R : forall k,
             percentage (barOf keys k)
             = fixed_digits (tenthsOf (Spec.occurrences k keys) n) 1
             /\ Spec.shownTenths (percentage (barOf keys k))
                = tenthsOf (Spec.occurrences k keys) n).
  { intros k. cbn [barOf percentage]. rewrite Ln.
    destruct (percentageOf_count _ n Hn (Oc k) Hb) as [-> _].
    split; [reflexivity|]. apply shownTenths_fixed, tenthsOf_range; auto. }
  assert (O : exists indices,
             labels = indices ++ List.filter (fun k => negb (Spec.isIndex k))
                                             (Spec.firstOccurrences keys)
             /\ Permutation indices
                  (List.filter Spec.isIndex (Spec.firstOccurrences keys))
             /\ StronglySorted Spec.indexOrder indices).
  { exists (map fst (map snd (sort_by_index (indexed (tally keys))))).
    split; [|split].
    - rewrite L. unfold entries. rewrite map_app, named_entries. f_equal.
      unfold tally. apply (filter_map_fst (fun k => negb (Spec.isIndex k))).
    - rewrite sort_by_index_perm, indexed_entries. unfold tally.
      by rewrite (filter_map_fst Spec.isIndex).
    - apply entries_sorted. }
  split; [eapply Permutation_NoDup; [symmetry; exact P | apply firstOccurrences_NoDup]|].
  split.
  { intros k. rewrite <- (firstOccurrences_In keys k). split; apply Permutation_in;
      [exact P | symmetry; exact P]. }
  split.
  { intros b Hin. rewrite B in Hin. apply in_map_iff in Hin.
    destruct Hin as (k & <- & _). cbv zeta.
    destruct (R k) as [Rp Rs]. rewrite Rs.
    split; [reflexivity|]. split; [|split].
    - cbn [barOf percentage label]. by rewrite Ln.
    - exact Rp.
    - cbn [barOf label]. apply (percentageOf_count _ n Hn (Oc k) Hb). }
  split; [exact O|]. split.
  { intros Hi. destruct O as (indices & -> & Pi & _).
    assert (Hf : Forall (fun k => Spec.isIndex k = false) (Spec.firstOccurrences keys)).
    { rewrite List.Forall_forall in *. intros k Hk'.
      apply Hi, firstOccurrences_In, Hk'. }
    rewrite (filter_none _ _ Hf) in Pi. symmetry in Pi.
    apply Permutation_nil in Pi. subst indices.
    apply filter_all. eapply List.Forall_impl; [|exact Hf].
    by intros k ->. }
  pose proof (sum_tenths_near (fun k => Spec.occurrences k keys) n labels Hn Hb Oc) as S.
  cbn beta zeta in S.
  rewrite (sumZ_perm (fun k => Z.of_nat (Spec.occurrences k keys)) _ _ P) in S.
  rewrite sum_occurrences, Ln in S.
  assert (Lb : length bars = length labels)
    by (unfold labels; by rewrite length_map).
  rewrite Lb, B, map_map.
  rewrite (map_ext _ _ (fun k => proj2 (R k))). nia.
Qed.

Lemma charts_show st :
  innerHTML <$> document (displayAreaChart st) !! "areaChart"
  = (fun _ => Chart (chartBars area_name (violations st))) <$> document st !! "areaChart"
  /\ innerHTML <$> document (displayTypeChart st) !! "typeChart"
     = (fun _ => Chart (chartBars type_name (violations st))) <$> document st !! "typeChart".
Proof.
  unfold displayAreaChart, displayTypeChart. rewrite !document_update_eq.
  split; destruct (document st !! _); reflexivity.
Qed.

Lemma chart_breakdown_example :
  map label (chartBars area_name (violations dashboardPage))
  = ["MG Road"; "Connaught Place"; "Marine Drive"]
  /\ map percentage (chartBars area_name (violations dashboardPage))
     = ["33.3"; "33.3"; "33.3"]
  /\ Z.abs (333 + 333 + 333 - 1000) <= 3.
Proof.
  assert (N : violations dashboardPage <> []) by discriminate.
  assert (B : Z.of_nat (length (violations dashboardPage)) < 2 ^ 32) by reflexivity.
  assert (F : Forall (fun v => inherited (area_name v) = false)
                     (violations dashboardPage)) by (repeat constructor).
  destruct (chart_breakdown area_name (violations dashboardPage) N B F)
    as (_ & _ & _ & _ & O & S).
  split; [apply O; repeat constructor|]. split; [reflexivity|]. exact S.
Defined.

(** C8, as stated, fails: keys that are array indices are listed in
    numeric order, not in the order of their first occurrences. *)
Lemma chart_order_of_indices :
  Spec.firstOccurrences (map type_name sectionNumbered) = ["185"; "184"]
  /\ map label (chartBars type_name sectionNumbered) = ["184"; "185"].
Proof. split; vm_compute; reflexivity. Qed.

(** Nor is a percentage halfway between two tenths always shown as the
    larger one: 23 of 80 records are 28.75 percent, the nearest tenth
    with halves up is 28.8, and the chart shows 28.7, because
    [23 / 80 * 100] is 28.749999999999996 in binary64. *)
Lemma chart_tie_shown_below :
  length eightyRecords = 80%nat
  /\ map count (chartBars area_name eightyRecords) = [Count 23; Count 57]
  /\ mul (div (of_Z 23) (of_Z 80)) (of_Z 100) = parseFloat "28.749999999999996"
  /\ Spec.tenths 23 80 = 288
  /\ map percentage (chartBars area_name eightyRecords) = ["28.7"; "71.3"].
Proof. repeat split; vm_compute; reflexivity. Qed.

(** A key that names a member of [Object.prototype] is not counted: the
    counter of [constructor] is a string and its percentage [NaN], and
    [__proto__] gets no bar at all. *)
Lemma chart_inherited_keys :
  let named k := [ {| violation_id := 1; vehicle_number := "KA01AB1234";
                      owner_name := "John Doe"; type_name := "Speeding";
                      area_name := k; violation_date := "2025-01-15 10:30";
                      fine_amount := of_Z 500; status := "paid" |} ] in
  chartBars area_name (named "constructor")
  = [ {| label := "constructor"; count := Text "constructor" "1"; percentage := "NaN" |} ]
  /\ chartBars area_name (named "__proto__") = [].
Proof. split; vm_compute; reflexivity. Qed.

(** * More of the script *)

(** ** Sequences of events *)

Section Traces.

Lemma violations_typed id s st : violations (typed id s st) = violations st.
Proof. apply violations_update. Qed.

Lemma violations_changeViolationType i st :
  violations (changeViolationType i st) = violations st.
Proof.
  unfold changeViolationType.
  destruct (document st !! "violationType"); [|reflexivity].
  destruct (violationTypeOptions st !! i) as [o|]; [|reflexivity].
  destruct (document _ !! "fineAmount"); [|apply violations_update].
  destruct (dataset_fine o) as [fine|]; [|apply violations_update].
  destruct (truthy_string fine); by rewrite ?violations_update.
Qed.

Lemma violations_changeArea i st : violations (changeArea i st) = violations st.
Proof.
  unfold changeArea. destruct (areaOptions st !! i); [apply violations_update | reflexivity].
Qed.

Lemma violations_searchViolations st : violations (searchViolations st) = violations st.
Proof.
  unfold searchViolations. destruct (negb _);
    [apply violations_loadViolationsTable | apply violations_update].
Qed.

Lemma registerViolation_cases st :
  violations (registerViolation st) = violations st
  \/ violations (registerViolation st) = newViolation st (readForm st) :: violations st.
Proof.
  destruct (Spec.missingFields (readForm st)) as [|field rest] eqn:M.
  - right. by apply registerViolation_valid.
  - left. unfold registerViolation.
    rewrite (validateViolationForm_false _ st _ _ M). apply violations_showAlert.
Qed.

Lemma markAsPaid_cases violationId confirmed st :
  violations (markAsPaid violationId confirmed st) = violations st
  \/ violations (markAsPaid violationId confirmed st)
     = payFirst violationId (violations st).
Proof.
  unfold markAsPaid. destruct (List.find _ _).
  - destruct confirmed; [right | by left].
    by rewrite violations_loadAnalytics, violations_loadViolationsTable,
      violations_updateDashboard, violations_showAlert.
  - left. apply violations_showAlert.
Qed.

(** What one event does to the records. *)
Lemma handle_cases e st :
  violations (handle e st) = violations st
  \/ violations (handle e st) = newViolation st (readForm st) :: violations st
  \/ exists violationId, violations (handle e st) = payFirst violationId (violations st).
Proof.
  destruct e as [|violationId confirmed|i|i|id s| | | | |]; simpl.
  - destruct (registerViolation_cases st); tauto.
  - destruct (markAsPaid_cases violationId confirmed st); eauto.
  - left. apply violations_changeViolationType.
  - left. apply violations_changeArea.
  - left. apply violations_typed.
  - left. apply violations_searchViolations.
  - left. apply violations_updateDashboard.
  - left. apply violations_loadViolationsTable.
  - left. apply violations_loadAnalytics.
  - left. apply violations_expire.
Qed.

Lemma payFirst_ids violationId vs :
  map violation_id (payFirst violationId vs) = map violation_id vs.
Proof.
  induction vs as [|v vs IH]; simpl; [reflexivity|].
  destruct (violation_id v =? violationId); simpl; by rewrite ?IH.
Qed.

Lemma payFirst_sameOrPaid violationId vs :
  Forall2 sameOrPaid vs (payFirst violationId vs).
Proof.
  induction vs as [|v vs IH]; simpl; [constructor|].
  destruct (violation_id v =? violationId).
  - constructor; [by right|]. apply Forall2_same_length_lookup_2; [reflexivity|].
    intros i x y Hx Hy. left. congruence.
  - constructor; [by left | exact IH].
Qed.

Lemma sameOrPaid_refl vs : Forall2 sameOrPaid vs vs.
Proof. induction vs; constructor; [by left | assumption]. Qed.

Lemma sameOrPaid_trans u v w : sameOrPaid u v -> sameOrPaid v w -> sameOrPaid u w.
Proof. unfold sameOrPaid. intros [->| ->] [->| ->]; auto. Qed.

Lemma idsInRange_register st :
  idsInRange (violations st) ->
  idsInRange (newViolation st (readForm st) :: violations st).
Proof.
  intros [N F]. split; simpl.
  - constructor; [|exact N]. rewrite in_map_iff. intros (v & E & Hv).
    rewrite List.Forall_forall in F. specialize (F v Hv). lia.
  - constructor; [simpl; lia|].
    eapply List.Forall_impl; [|exact F]. simpl. intros; lia.
Qed.

Lemma idsInRange_payFirst violationId vs :
  idsInRange vs -> idsInRange (payFirst violationId vs).
Proof.
  unfold idsInRange. rewrite <- !(List.Forall_map violation_id (fun z => z <= _)).
  rewrite payFirst_ids. rewrite <- (length_map violation_id (payFirst _ _)).
  rewrite payFirst_ids, length_map. tauto.
Qed.

End Traces.

(** X1.  Whatever the user does on the page, in any order, the ids of the
    records stay distinct and none exceeds the number of records, provided
    that this holds at the start. *)
Theorem ids_stay_distinct (events : list event) (st : state) :
  idsInRange (violations st) -> idsInRange (violations (run events st)).
Proof.
  revert st. induction events as [|e events IH]; intros st H; simpl; [exact H|].
  apply IH. destruct (handle_cases e st) as [-> | [-> | [violationId ->]]].
  - exact H.
  - by apply idsInRange_register.
  - by apply idsInRange_payFirst.
Qed.

Lemma ids_stay_distinct_example :
  idsInRange (violations (run [ChangeViolationType 5; Typing "vehicleNumber" "ka05xy0001";
                                Typing "area" "2"; Typing "violationDate" "2025-02-01T10:00";
                                Submit; MarkPaid 4 true; Search]
                               dashboardPage)).
Proof.
  apply ids_stay_distinct. split.
  - repeat constructor; simpl; intuition discriminate.
  - repeat constructor; simpl; lia.
Defined.

(** X2.  Whatever the user does on the page, no record is removed or
    moved: the records of the start are still there, in their order, after
    the records added since, and each of them is as it was except that its
    status may have become [paid]. *)
Theorem records_only_grow (events : list event) (st : state) :
  exists added kept,
    violations (run events st) = added ++ kept
    /\ Forall2 sameOrPaid (violations st) kept.
Proof.
  revert st. induction events as [|e events IH]; intros st; simpl.
  - exists [], (violations st). split; [reflexivity | apply sameOrPaid_refl].
  - destruct (IH (handle e st)) as (added & kept & E & K).
    destruct (handle_cases e st) as [H | [H | [violationId H]]]; rewrite H in K.
    + eauto.
    + inversion K as [|? v' ? kept' _ K']; subst.
      exists (added ++ [v']), kept'. split; [|exact K'].
      rewrite E, <- app_assoc. reflexivity.
    + exists added, kept. split; [exact E|].
      pose proof (payFirst_sameOrPaid violationId (violations st)) as P.
      clear E H. revert K. generalize dependent kept.
      induction P as [|u v us vs Huv P IHP]; intros kept K.
      * inversion K. constructor.
      * inversion K as [|? w ? ws Hvw K']; subst. constructor.
        -- eapply sameOrPaid_trans; eassumption.
        -- by apply IHP.
Qed.

(** ** The figures after a payment *)

Section Payment.

(** The records around the one that is paid. *)
Lemma payFirst_split violationId vs v :
  List.find (fun v => violation_id v =? violationId) vs = Some v ->
  exists before after,
    vs = before ++ v :: after
    /\ payFirst violationId vs = before ++ with_status "paid" v :: after.
Proof.
  intros H. destruct (payFirst_insert _ _ _ H) as (i & L & _ & ->).
  exists (take i vs), (drop (S i) vs). split.
  - symmetry. by apply take_drop_middle.
  - apply insert_take_drop. by eapply lookup_lt_Some.
Qed.

End Payment.

(** X3.  Marking an unpaid record as paid (found by its id, the user
    confirming) leaves the number of records and the total of the fines as
    they were and moves one record from the unpaid count to the paid
    count.  When the fines are whole numbers whose absolute values add up
    to less than [2^53], it adds the fine of the record to the collected
    amount, and the pending amount goes down by that fine. *)
Theorem payment_moves_fine (st : state) (violationId : Z) (v : Violation) :
  List.find (fun v => violation_id v =? violationId) (violations st) = Some v ->
  status v = "unpaid" ->
  let vs := violations st in
  let vs' := violations (markAsPaid violationId true st) in
  length vs' = length vs
  /\ total vs' = total vs
  /\ paidCount vs' = S (paidCount vs)
  /\ S (unpaidCount vs') = unpaidCount vs
  /\ (Forall (fun v => fine_amount v = of_Z (rupees v)) vs ->
      Spec.sumZ (map (fun v => Z.abs (rupees v)) vs) < 2 ^ 53 ->
      collected vs' = add (fine_amount v) (collected vs)
      /\ num_eq (add (pending vs') (fine_amount v)) (pending vs) = true).
Proof.
  intros H Hs vs vs'.
  destruct (markAsPaid_found violationId st v H) as (V & _).
  destruct (payFirst_split _ _ _ H) as (before & after & E & P).
  assert (E' : vs' = before ++ with_status "paid" v :: after)
    by (unfold vs'; by rewrite V, P).
  fold vs in E. clearbody vs vs'. subst vs vs'.
  assert (Hp : has_status "paid" v = false) by (unfold has_status; by rewrite Hs).
  assert (Hu : has_status "unpaid" v = true) by (unfold has_status; by rewrite Hs).
  assert (Hp' : has_status "paid" (with_status "paid" v) = true) by reflexivity.
  assert (Hu' : has_status "unpaid" (with_status "paid" v) = false) by reflexivity.
  assert (M : map fine_amount (before ++ with_status "paid" v :: after)
              = map fine_amount (before ++ v :: after))
    by (by rewrite !map_app).
  assert (T : total (before ++ with_status "paid" v :: after)
              = total (before ++ v :: after))
    by (apply sum_fines_same, M).
  split; [by rewrite !length_app|]. split; [exact T|].
  unfold paidCount, unpaidCount. rewrite !List.filter_app, !length_app.
  cbn [List.filter]. rewrite Hp, Hp', Hu, Hu'. cbn [length].
  split; [lia|]. split; [lia|].
  intros W B.
  assert (W' : Forall (fun v => fine_amount v = of_Z (rupees v))
                      (before ++ with_status "paid" v :: after)).
  { rewrite Forall_app in *. destruct W as [Wb Wa].
    split; [exact Wb|]. inversion Wa as [|? ? Wv Wa']; subst. by constructor. }
  assert (B' : Spec.sumZ (map (fun v => Z.abs (rupees v))
                              (before ++ with_status "paid" v :: after)) < 2 ^ 53).
  { rewrite !map_app in *. exact B. }
  assert (Wv : fine_amount v = of_Z (rupees v)).
  { rewrite Forall_app in W. destruct W as [_ Wa]. by inversion Wa. }
  destruct (figures_whole rupees _ W B) as (Et & Ec & Ep & Bt & Bc & Bp).
  destruct (figures_whole rupees _ W' B') as (Et' & Ec' & Ep' & Bt' & Bc' & Bp').
  assert (ST : Spec.sumZ (map rupees (before ++ with_status "paid" v :: after))
               = Spec.sumZ (map rupees (before ++ v :: after)))
    by (by rewrite !map_app).
  assert (SC : Spec.sumZ (map rupees (List.filter (has_status "paid")
                                        (before ++ with_status "paid" v :: after)))
               = rupees v
                 + Spec.sumZ (map rupees (List.filter (has_status "paid")
                                            (before ++ v :: after)))).
  { rewrite !List.filter_app. cbn [List.filter]. rewrite Hp, Hp'.
    rewrite !map_app. cbn [map]. unfold Spec.sumZ.
    rewrite !fold_right_app. cbn [fold_right].
    change (rupees (with_status "paid" v)) with (rupees v).
    generalize (fold_right Z.add 0 (map rupees (List.filter (has_status "paid") after))).
    intros z. induction (map rupees (List.filter (has_status "paid") before));
      cbn [fold_right]; lia. }
  rewrite ST in *. rewrite SC in *. split.
  - rewrite Ec', Ec, Wv. symmetry. by apply add_whole.
  - rewrite Ep', Ep, Wv, add_whole.
    + match goal with |- num_eq (of_Z ?a) (of_Z ?b) = true => replace a with b by lia end.
      apply num_eq_refl.
    + match goal with |- Z.abs ?a < _ =>
        replace a with (Spec.sumZ (map rupees (before ++ v :: after))
                        - Spec.sumZ (map rupees (List.filter (has_status "paid")
                                                   (before ++ v :: after)))) by lia end.
      exact Bp.
Qed.

Lemma payment_moves_fine_example :
  collected (violations (markAsPaid 2 true dashboardPage))
  = add (of_Z 1000) (collected (violations dashboardPage))
  /\ paidCount (violations (markAsPaid 2 true dashboardPage)) = 3%nat.
Proof.
  destruct (payment_moves_fine dashboardPage 2
              {| violation_id := 2; vehicle_number := "DL02CD5678";
                 owner_name := "Jane Smith"; type_name := "Red Light Violation";
                 area_name := "Connaught Place";
                 violation_date := "2025-01-14 14:45"; fine_amount := of_Z 1000;
                 status := "unpaid" |} eq_refl eq_refl)
    as (_ & _ & P & _ & C).
  split; [|exact P].
  apply C; [repeat constructor | vm_compute; reflexivity].
Defined.

(** X4.  For an id that no record has, [markAsPaid] does not ask for a
    confirmation: whatever the answer would be, it shows the error alert
    [Violation not found] and leaves the records as they were. *)
Theorem payment_of_unknown_id (st : state) (violationId : Z) (confirmed : bool) :
  Forall (fun v => violation_id v <> violationId) (violations st) ->
  markAsPaid violationId confirmed st
  = showAlert "Violation not found" "error" None st
  /\ violations (markAsPaid violationId confirmed st) = violations st
  /\ globalAlert (markAsPaid violationId confirmed st)
     = Some (AlertBox "error" "Violation not found").
Proof.
  intros H.
  assert (F : List.find (fun v => violation_id v =? violationId) (violations st) = None).
  { induction H as [|v vs Hv _ IH]; simpl; [reflexivity|].
    apply Z.eqb_neq in Hv. by rewrite Hv. }
  unfold markAsPaid. rewrite F. split; [reflexivity|].
  split; [apply violations_showAlert | apply globalAlert_showAlert].
Qed.

Lemma payment_of_unknown_id_example :
  violations (markAsPaid 7 true dashboardPage) = violations dashboardPage
  /\ globalAlert (markAsPaid 7 true dashboardPage)
     = Some (AlertBox "error" "Violation not found").
Proof.
  apply (payment_of_unknown_id dashboardPage 7 true).
  repeat constructor; discriminate.
Defined.

(** ** Alerts and refreshes *)

Section Refresh.

Lemma state_ext st1 st2 :
  currentUser st1 = currentUser st2 ->
  violations st1 = violations st2 ->
  violationTypes st1 = violationTypes st2 ->
  areas st1 = areas st2 ->
  payments st1 = payments st2 ->
  timers st1 = timers st2 ->
  (forall id, document st1 !! id = document st2 !! id) ->
  st1 = st2.
Proof.
  destruct st1, st2. simpl. intros -> -> -> -> -> -> H. f_equal. by apply map_eq.
Qed.

Ltac globals :=
  rewrite ?currentUser_update, ?violations_update, ?violationTypes_update,
    ?areas_update, ?payments_update, ?timers_update; try reflexivity.

Lemma createAlertContainer_present st :
  is_Some (document st !! "globalAlertContainer") -> createAlertContainer st = st.
Proof. intros [e He]. unfold createAlertContainer. by rewrite He. Qed.

Lemma update_update id f g st :
  update id g (update id f st) = update id (fun e => g (f e)) st.
Proof.
  apply state_ext; globals.
  intros id'. rewrite !document_update. case_decide; [|reflexivity].
  by destruct (document st !! id').
Qed.

Lemma update_ext id f g st :
  (forall e, f e = g e) -> update id f st = update id g st.
Proof.
  intros H. unfold update. destruct (document st !! id); [|reflexivity].
  by rewrite H.
Qed.

Lemma update_present id f st :
  is_Some (document st !! id) -> is_Some (document (update id f st) !! id).
Proof. intros [e He]. rewrite document_update_eq, He. by eexists. Qed.

Lemma update_absent id f st : document st !! id = None -> update id f st = st.
Proof. intros H. unfold update. by rewrite H. Qed.

(** The alert in a container that exists. *)
Lemma showAlert_present m t c st :
  is_Some (document st !! alertContainer c) ->
  showAlert m t c st
  = with_timers (app (timers st) [alertContainer c])
      (update (alertContainer c)
              (fun e => with_display "block" (with_innerHTML (AlertBox t m) e)) st).
Proof.
  intros P. unfold showAlert, alertContainer in *.
  destruct c as [id|]; [destruct (truthy_string id)|];
    rewrite ?(createAlertContainer_present st P); unfold alertIn;
    destruct P as [e ->]; reflexivity.
Qed.

End Refresh.

(** X5.  An alert shown in a container while the timer of an earlier
    alert in the same container is still running replaces that alert, and
    the container then has two timers; when the first of them fires, it
    hides and empties the container, so that the second alert goes before
    its own five seconds are over, and its timer is still to fire. *)
Theorem later_alert_replaces (st : state) (m1 t1 m2 t2 : string)
    (containerId : option string) :
  is_Some (document st !! alertContainer containerId) ->
  timers st = [] ->
  let id := alertContainer containerId in
  let st2 := showAlert m2 t2 containerId (showAlert m1 t1 containerId st) in
  innerHTML <$> document st2 !! id = Some (AlertBox t2 m2)
  /\ display <$> document st2 !! id = Some "block"
  /\ timers st2 = [id; id]
  /\ innerHTML <$> document (expire st2) !! id = Some Blank
  /\ display <$> document (expire st2) !! id = Some "none"
  /\ timers (expire st2) = [id].
Proof.
  intros P T id st2. unfold st2.
  rewrite (showAlert_present m1 t1 containerId st P), T.
  rewrite showAlert_present
    by (cbn [document with_timers]; apply update_present, P).
  fold id. cbn [timers with_timers app]. unfold expire.
  cbn [timers with_timers document].
  repeat (progress (cbn [document with_timers]; rewrite ?document_update_eq)).
  destruct P as [e He]. fold id in He. rewrite He. repeat split.
Qed.

Lemma later_alert_replaces_example :
  let st2 := showAlert "Please select area" "error" (Some "registerAlert")
               (showAlert "Please enter vehicle number" "error"
                          (Some "registerAlert") dashboardPage) in
  innerHTML <$> document st2 !! "registerAlert"
  = Some (AlertBox "error" "Please select area")
  /\ display <$> document st2 !! "registerAlert" = Some "block"
  /\ timers st2 = ["registerAlert"; "registerAlert"]
  /\ innerHTML <$> document (expire st2) !! "registerAlert" = Some Blank
  /\ display <$> document (expire st2) !! "registerAlert" = Some "none"
  /\ timers (expire st2) = ["registerAlert"].
Proof.
  apply (later_alert_replaces dashboardPage
           "Please enter vehicle number" "error" "Please select area" "error"
           (Some "registerAlert")).
  - vm_compute. eexists. reflexivity.
  - reflexivity.
Defined.

Section Idempotent.

Ltac globals :=
  rewrite ?currentUser_update, ?violations_update, ?violationTypes_update,
    ?areas_update, ?payments_update, ?timers_update; try reflexivity.

(** The lookups of one element in two pages built by updates. *)
Ltac same_lookups st :=
  let id' := fresh "id" in
  intros id'; rewrite ?document_update;
  repeat (case_decide; [subst id'|]);
  repeat (case_decide; [discriminate|]);
  try (destruct (document st !! _)); reflexivity.

Lemma updateDashboard_twice st : updateDashboard (updateDashboard st) = updateDashboard st.
Proof.
  unfold updateDashboard, updateRecentViolationsTable, updateElement.
  globals. apply state_ext; globals. same_lookups st.
Qed.

Lemma loadViolationsTable_twice st :
  loadViolationsTable (loadViolationsTable st) = loadViolationsTable st.
Proof.
  unfold loadViolationsTable, createActionButtons.
  globals. apply state_ext; globals. same_lookups st.
Qed.

Lemma loadAnalytics_twice st : loadAnalytics (loadAnalytics st) = loadAnalytics st.
Proof.
  unfold loadAnalytics, displayTypeChart, displayAreaChart, updateAnalyticsStats,
    updateElement.
  globals. apply state_ext; globals. same_lookups st.
Qed.

End Idempotent.

(** X6.  Refreshing is idempotent: running the refresh of the dashboard,
    of the violations table or of the analytics a second time leaves the
    page as the first run left it. *)
Theorem refresh_twice (st : state) :
  updateDashboard (updateDashboard st) = updateDashboard st
  /\ loadViolationsTable (loadViolationsTable st) = loadViolationsTable st
  /\ loadAnalytics (loadAnalytics st) = loadAnalytics st.
Proof.
  split; [apply updateDashboard_twice|].
  split; [apply loadViolationsTable_twice | apply loadAnalytics_twice].
Qed.

(** ** The button [Mark Paid] *)

Section Buttons.

(** Whether [createActionButtons] offers the button for a record. *)
Lemma createActionButtons_cases st v :
  (createActionButtons st v = MarkPaidButton (violation_id v)
   /\ status v = "unpaid"
   /\ exists u, currentUser st = Some u /\ role u <> "citizen")
  \/ (createActionButtons st v = Plain "-"
      /\ (status v <> "unpaid"
          \/ currentUser st = None
          \/ exists u, currentUser st = Some u /\ role u = "citizen")).
Proof.
  unfold createActionButtons, has_status.
  destruct (currentUser st) as [u|]; [|right; auto].
  destruct (String.eqb (status v) "unpaid") eqn:S; simpl.
  - apply String.eqb_eq in S.
    destruct (String.eqb (role u) "citizen") eqn:R; simpl.
    + apply String.eqb_eq in R. right. split; [reflexivity|]. right. right. eauto.
    + apply String.eqb_neq in R. left. eauto.
  - apply String.eqb_neq in S. right. auto.
Qed.

Lemma row_buttons st v :
  flat_map (fun c => match c with MarkPaidButton id => [id] | _ => [] end)
           (violationRow st v)
  = match createActionButtons st v with MarkPaidButton id => [id] | _ => [] end.
Proof.
  unfold violationRow, formatDateTime. simpl.
  destruct (truthy_string (violation_date v)); simpl; by rewrite app_nil_r.
Qed.

Lemma loadViolationsTable_rows st :
  tableRows (loadViolationsTable st)
  = match document st !! "violationsTableBody" with
    | Some _ => map (violationRow st) (violations st)
    | None => []
    end.
Proof.
  unfold tableRows, loadViolationsTable. rewrite document_update_eq.
  by destruct (document st !! "violationsTableBody").
Qed.

Lemma offered_In st id :
  In id (buttonIds (tableRows (loadViolationsTable st))) <->
  is_Some (document st !! "violationsTableBody")
  /\ exists v u, In v (violations st) /\ violation_id v = id
                 /\ status v = "unpaid"
                 /\ currentUser st = Some u /\ role u <> "citizen".
Proof.
  unfold buttonIds. rewrite loadViolationsTable_rows.
  destruct (document st !! "violationsTableBody") as [e|]; simpl.
  - rewrite in_flat_map. split.
    + intros (row & Hrow & Hid). apply in_map_iff in Hrow.
      destruct Hrow as (v & <- & Hv). rewrite row_buttons in Hid.
      destruct (createActionButtons_cases st v) as [(E & S & u & U & R)|[E _]];
        rewrite E in Hid; simpl in Hid; [|tauto].
      destruct Hid as [<-|[]]. split; [by eexists|]. exists v, u. auto.
    + intros (_ & v & u & Hv & <- & S & U & R).
      exists (violationRow st v). split; [by apply in_map|].
      rewrite row_buttons.
      destruct (createActionButtons_cases st v) as [(E & _)|(_ & [C|[C|(u' & C & C')]])].
      * rewrite E. simpl. auto.
      * contradiction.
      * congruence.
      * congruence.
  - split; [tauto|]. intros ([e He] & _). discriminate.
Qed.

Lemma payFirst_paid violationId vs w :
  List.NoDup (map violation_id vs) ->
  In w (payFirst violationId vs) -> violation_id w = violationId ->
  status w = "paid".
Proof.
  induction vs as [|v vs IH]; simpl; [tauto|]. intros N.
  apply NoDup_cons_iff in N. destruct N as [Nv N].
  destruct (violation_id v =? violationId) eqn:E.
  - apply Z.eqb_eq in E. intros [<-|H] Hw; [reflexivity|].
    exfalso. apply Nv. rewrite E, <- Hw. by apply in_map.
  - apply Z.eqb_neq in E. intros [<-|H] Hw; [contradiction | by apply IH].
Qed.

Lemma tableRows_loadAnalytics st : tableRows (loadAnalytics st) = tableRows st.
Proof.
  unfold tableRows, loadAnalytics, displayTypeChart, displayAreaChart,
    updateAnalyticsStats, updateElement.
  by rewrite !document_update_ne by reflexivity.
Qed.

Lemma plain_digits d : plain_text (NilEmpty.string_of_uint d) = true.
Proof. induction d; simpl; [reflexivity | exact IHd ..]. Qed.

(** The numeral of an id has no markup. *)
Lemma plain_Z_to_string z : plain_text (Z_to_string z) = true.
Proof.
  destruct z as [|p|p]; [reflexivity| |];
    unfold Z_to_string, NilZero.string_of_uint;
    pose proof (plain_digits (Pos.to_uint p)) as D;
    destruct (Pos.to_uint p); try reflexivity; exact D.
Qed.

(** The row of a record without markup has the elements of the template. *)
Lemma row_plain st v :
  plainRecord v = true ->
  forallb (fun c => plain_text (raw_text c)) (violationRow st v) = true.
Proof.
  unfold plainRecord. rewrite !andb_true_iff.
  intros ((((Hn & Ho) & Ht) & Ha) & Hs).
  unfold violationRow, formatDateTime, createStatusBadge, formatCurrency,
    createActionButtons.
  cbn [forallb raw_text]. rewrite plain_Z_to_string, Hn, Ho, Ht, Ha, Hs.
  destruct (truthy_string (violation_date v)), (currentUser st) as [u|];
    try destruct (has_status "unpaid" v && negb (String.eqb (role u) "citizen"));
    reflexivity.
Qed.

Lemma rows_plain st vs :
  Forall (fun v => plainRecord v = true) vs ->
  markup_free (map (violationRow st) vs) = true.
Proof.
  induction 1 as [|v vs Hv _ IH]; [reflexivity|].
  cbn [map markup_free forallb]. fold (markup_free (map (violationRow st) vs)).
  by rewrite (row_plain st v Hv), IH.
Qed.

Lemma offeredButtons_plain st :
  Forall (fun v => plainRecord v = true) (violations st) ->
  offeredButtons (loadViolationsTable st)
  = Some (buttonIds (tableRows (loadViolationsTable st))).
Proof.
  intros P. unfold offeredButtons. rewrite loadViolationsTable_rows.
  destruct (document st !! "violationsTableBody"); [|reflexivity].
  by rewrite (rows_plain st _ P).
Qed.

(** A payment leaves the records without markup. *)
Lemma payFirst_plain violationId vs :
  Forall (fun v => plainRecord v = true) vs ->
  Forall (fun v => plainRecord v = true) (payFirst violationId vs).
Proof.
  induction 1 as [|v vs Hv H IH]; simpl; [constructor|].
  destruct (violation_id v =? violationId).
  - constructor; [|exact H]. unfold plainRecord in *.
    rewrite !andb_true_iff in *. cbn [with_status vehicle_number owner_name
      type_name area_name status]. tauto.
  - by constructor.
Qed.

End Buttons.

(** X7.  When no text of a record contains markup ([<] or a double
    quote), then after a refresh of the violations table the button
    [Mark Paid] is offered for an id exactly when the page has the table,
    a record with that id is unpaid, and a user who is not a citizen is
    logged in: a paid record, a citizen and a visitor never get it.  (The
    script does not escape the texts it puts into the rows, so a text with
    markup can add elements of its own.) *)
Theorem button_only_for_unpaid (st : state) :
  Forall (fun v => plainRecord v = true) (violations st) ->
  exists ids,
    offeredButtons (loadViolationsTable st) = Some ids
    /\ forall id,
         In id ids <->
         is_Some (document st !! "violationsTableBody")
         /\ exists v u, In v (violations st) /\ violation_id v = id
                        /\ status v = "unpaid"
                        /\ currentUser st = Some u /\ role u <> "citizen".
Proof.
  intros P. exists (buttonIds (tableRows (loadViolationsTable st))).
  split; [by apply offeredButtons_plain|]. intros id. apply offered_In.
Qed.

Lemma button_only_for_unpaid_example :
  exists ids,
    offeredButtons (loadViolationsTable dashboardPage) = Some ids /\ In 2 ids.
Proof.
  destruct (button_only_for_unpaid dashboardPage) as (ids & E & I);
    [repeat constructor|].
  exists ids. split; [exact E|]. apply I.
  split; [vm_compute; eexists; reflexivity|].
  exists {| violation_id := 2; vehicle_number := "DL02CD5678";
            owner_name := "Jane Smith"; type_name := "Red Light Violation";
            area_name := "Connaught Place";
            violation_date := "2025-01-14 14:45"; fine_amount := of_Z 1000;
            status := "unpaid" |},
         {| username := "officer1"; role := "officer" |}.
  split; [vm_compute; auto|]. repeat split. discriminate.
Defined.

(** X8.  When the ids of the records are distinct and no text of a
    record contains markup, a record that was marked as paid (the user
    confirming) no longer has the button [Mark Paid] in the table that
    [markAsPaid] refreshes. *)
Theorem button_gone_after_payment (st : state) (violationId : Z) (v : Violation) :
  List.NoDup (map violation_id (violations st)) ->
  Forall (fun v => plainRecord v = true) (violations st) ->
  List.find (fun v => violation_id v =? violationId) (violations st) = Some v ->
  exists ids,
    offeredButtons (markAsPaid violationId true st) = Some ids
    /\ ~ In violationId ids.
Proof.
  intros N P H.
  set (st' := updateDashboard
                (showAlert "Payment recorded successfully!" "success" None
                   (with_violations (payFirst violationId (violations st)) st))).
  assert (V : violations st' = payFirst violationId (violations st)).
  { unfold st'. by rewrite violations_updateDashboard, violations_showAlert. }
  assert (E : offeredButtons (markAsPaid violationId true st)
              = offeredButtons (loadViolationsTable st')).
  { unfold markAsPaid. rewrite H. unfold offeredButtons.
    by rewrite tableRows_loadAnalytics. }
  exists (buttonIds (tableRows (loadViolationsTable st'))). split.
  - rewrite E. apply offeredButtons_plain. rewrite V. by apply payFirst_plain.
  - rewrite offered_In. intros (_ & w & u & Hw & Hid & S & _).
    rewrite V in Hw. rewrite (payFirst_paid _ _ _ N Hw Hid) in S. discriminate.
Qed.

Lemma button_gone_after_payment_example :
  exists ids,
    offeredButtons (markAsPaid 2 true dashboardPage) = Some ids /\ ~ In 2 ids.
Proof.
  eapply (button_gone_after_payment dashboardPage 2); [| |reflexivity].
  - repeat constructor; simpl; intuition discriminate.
  - repeat constructor.
Defined.

(** ** After a registration *)

Section AfterRegistration.

Lemma currentUser_showAlert m t c st : currentUser (showAlert m t c st) = currentUser st.
Proof.
  unfold showAlert, createAlertContainer.
  destruct c as [id|]; [destruct (truthy_string id)|];
    rewrite currentUser_alertIn; try reflexivity;
    by destruct (document st !! "globalAlertContainer").
Qed.

(** The page after a registration that passed the validation, on a page
    that has the form. *)
Lemma registerViolation_page st :
  Spec.missingFields (readForm st) = [] ->
  is_Some (document st !! "violationForm") ->
  registerViolation st
  = loadViolationsTable
      (updateDashboard
         (resetForm
            (showAlert "Violation registered successfully!" "success"
               (Some "registerAlert")
               (with_violations (newViolation st (readForm st) :: violations st) st)))).
Proof.
  intros M [form F]. unfold registerViolation.
  rewrite (validateViolationForm_true _ st M). simpl negb. cbn beta iota zeta.
  assert (L : is_Some (document
                 (showAlert "Violation registered successfully!" "success"
                    (Some "registerAlert")
                    (with_violations (newViolation st (readForm st) :: violations st) st))
                 !! "violationForm")).
  { unfold showAlert. simpl truthy_string. cbn iota.
    rewrite document_alertIn, document_update_ne by reflexivity.
    simpl. rewrite F. by eexists. }
  destruct L as [e ->]. reflexivity.
Qed.

Lemma getValue_update_ne id f st id' :
  String.eqb id id' = false -> getValue (update id f st) id' = getValue st id'.
Proof. intros E. by rewrite getValue_update, E. Qed.

Lemma getValue_update_eq id f st :
  getValue (update id f st) id
  = match document st !! id with Some e => value (f e) | None => EmptyString end.
Proof. by rewrite getValue_update, String.eqb_refl. Qed.

Lemma registerViolation_reset st id :
  Spec.missingFields (readForm st) = [] ->
  is_Some (document st !! "violationForm") ->
  In id formControls ->
  getValue (registerViolation st) id = defaultOf st id.
Proof.
  intros M F Hid. rewrite (registerViolation_page st M F).
  unfold loadViolationsTable, updateDashboard, updateRecentViolationsTable,
    updateElement, resetForm, showAlert, defaultOf.
  simpl truthy_string. cbn iota. simpl fold_left.
  simpl in Hid.
  destruct Hid as [<-|[<-|[<-|[<-|[<-|[<-|[]]]]]]];
    rewrite ?getValue_update_ne by reflexivity;
    rewrite getValue_update_eq;
    rewrite ?document_update_ne by reflexivity;
    rewrite document_alertIn;
    rewrite ?document_update_ne by reflexivity;
    cbn [document with_violations];
    destruct (document st !! _); reflexivity.
Qed.

End AfterRegistration.

Section OnTop.

Lemma currentUser_resetForm st : currentUser (resetForm st) = currentUser st.
Proof. unfold resetForm. simpl. by rewrite !currentUser_update. Qed.

Lemma currentUser_updateDashboard st : currentUser (updateDashboard st) = currentUser st.
Proof.
  unfold updateDashboard, updateRecentViolationsTable, updateElement.
  by rewrite !currentUser_update.
Qed.

Lemma violationRow_user st st' v :
  currentUser st' = currentUser st -> violationRow st' v = violationRow st v.
Proof. intros H. unfold violationRow, createActionButtons. by rewrite H. Qed.

Lemma missingFields_nil data :
  Spec.missingFields data = [] ->
  truthy_string (FormData.vehicle_number data) = true
  /\ truthy_string (FormData.type_id data) = true
  /\ truthy_string (FormData.area_id data) = true
  /\ truthy_string (FormData.violation_date data) = true.
Proof.
  unfold Spec.missingFields. simpl.
  destruct (truthy_string (FormData.vehicle_number data)); [|discriminate].
  destruct (truthy_string (FormData.type_id data)); [|discriminate].
  destruct (truthy_string (FormData.area_id data)); [|discriminate].
  destruct (truthy_string (FormData.violation_date data)); [|discriminate].
  auto.
Qed.

End OnTop.

(** X9.  After a registration that passed the validation, on a page that
    has the form, each of the six controls of the form holds its default
    value again. *)
Theorem registration_resets_form (st : state) (id : string) :
  Spec.missingFields (readForm st) = [] ->
  is_Some (document st !! "violationForm") ->
  In id formControls ->
  getValue (registerViolation st) id = defaultOf st id.
Proof. apply registerViolation_reset. Qed.

Lemma registration_resets_form_example :
  getValue filledForm "vehicleNumber" = "ka05xy0001"
  /\ getValue (registerViolation filledForm) "vehicleNumber" = EmptyString.
Proof.
  split; [reflexivity|].
  apply (registration_resets_form filledForm "vehicleNumber").
  - reflexivity.
  - eexists. reflexivity.
  - simpl. auto.
Defined.

(** X10.  Submitting the form a second time right after a registration
    adds no second record when the default value of one of the four
    required controls is empty: the form was reset, so the validation
    stops the second submit. *)
Theorem second_submit_adds_nothing (st : state) (id : string) :
  Spec.missingFields (readForm st) = [] ->
  is_Some (document st !! "violationForm") ->
  In id ["vehicleNumber"; "violationType"; "area"; "violationDate"] ->
  defaultOf st id = EmptyString ->
  violations (registerViolation (registerViolation st))
  = violations (registerViolation st)
  /\ length (violations (registerViolation (registerViolation st)))
     = S (length (violations st)).
Proof.
  intros M F Hid D.
  assert (R : getValue (registerViolation st) id = EmptyString).
  { rewrite <- D. apply registerViolation_reset; try assumption.
    simpl in *. tauto. }
  assert (E : violations (registerViolation (registerViolation st))
              = violations (registerViolation st)).
  { destruct (Spec.missingFields (readForm (registerViolation st)))
      as [|field rest] eqn:M'.
    - exfalso. apply missingFields_nil in M'. simpl in M'.
      destruct M' as (A & B & C & E).
      simpl in Hid. destruct Hid as [<-|[<-|[<-|[<-|[]]]]];
        rewrite R in *; discriminate.
    - unfold registerViolation at 1.
      rewrite (validateViolationForm_false _ _ _ _ M'). apply violations_showAlert. }
  split; [exact E|]. rewrite E, (registerViolation_valid st M). reflexivity.
Qed.

Lemma second_submit_adds_nothing_example :
  length (violations (registerViolation (registerViolation filledForm))) = 4%nat.
Proof.
  apply (second_submit_adds_nothing filledForm "vehicleNumber").
  - reflexivity.
  - eexists. reflexivity.
  - simpl. auto.
  - reflexivity.
Defined.

(** X11.  After a registration that passed the validation, on a page that
    has the form, the new record is the first row of the table of recent
    violations, followed by the four most recent of the records before,
    and the first row of the violations table, followed by all the records
    before; the counter of violations shows one more. *)
Theorem registration_shows_on_top (st : state) :
  Spec.missingFields (readForm st) = [] ->
  is_Some (document st !! "violationForm") ->
  let new := newViolation st (readForm st) in
  recentRows (registerViolation st)
  = match document st !! "recentViolationsBody" with
    | Some _ => recentRow new :: map recentRow (firstn 4 (violations st))
    | None => []
    end
  /\ tableRows (registerViolation st)
     = match document st !! "violationsTableBody" with
       | Some _ => violationRow st new :: map (violationRow st) (violations st)
       | None => []
       end
  /\ innerHTML <$> document (registerViolation st) !! "totalViolations"
     = (fun _ => Cell (Plain (nat_to_string (S (length (violations st))))))
         <$> document st !! "totalViolations".
Proof.
  intros M F new. rewrite (registerViolation_page st M F). fold new.
  split; [|split].
  - unfold recentRows, loadViolationsTable, updateDashboard,
      updateRecentViolationsTable, updateElement, resetForm, showAlert.
    simpl truthy_string. cbn iota. simpl fold_left.
    rewrite ?violations_update, ?violations_alertIn.
    rewrite document_update_ne by reflexivity. rewrite document_update_eq.
    rewrite !document_update_ne by reflexivity. rewrite ?document_alertIn; rewrite ?document_update_ne by reflexivity.
    cbn [document with_violations].
    by destruct (document st !! "recentViolationsBody").
  - rewrite loadViolationsTable_rows.
    rewrite violations_updateDashboard, violations_resetForm, violations_showAlert.
    unfold updateDashboard, updateRecentViolationsTable, updateElement, resetForm,
      showAlert.
    simpl truthy_string. cbn iota. simpl fold_left.
    rewrite !document_update_ne by reflexivity. rewrite ?document_alertIn; rewrite ?document_update_ne by reflexivity.
    cbn [document with_violations].
    destruct (document st !! "violationsTableBody"); [|reflexivity].
    cbn [map violations with_violations].
    f_equal; [|apply map_ext; intros v]; apply violationRow_user;
      rewrite ?currentUser_update, ?currentUser_alertIn; reflexivity.
  - unfold loadViolationsTable, updateDashboard, updateRecentViolationsTable,
      updateElement, resetForm, showAlert.
    simpl truthy_string. cbn iota. simpl fold_left.
    rewrite ?violations_update, ?violations_alertIn.
    rewrite !document_update_ne by reflexivity. rewrite document_update_eq.
    rewrite !document_update_ne by reflexivity. rewrite ?document_alertIn; rewrite ?document_update_ne by reflexivity.
    cbn [document with_violations].
    by destruct (document st !! "totalViolations").
Qed.

Lemma registration_shows_on_top_example :
  exists row rest,
    recentRows (registerViolation filledForm) = row :: rest
    /\ row = recentRow (newViolation filledForm (readForm filledForm))
    /\ length rest = 3%nat.
Proof.
  destruct (registration_shows_on_top filledForm) as (R & _).
  - reflexivity.
  - eexists. reflexivity.
  - eexists. eexists. split; [exact R|]. split; reflexivity.
Defined.

(** ** The names that a registration stores *)

Section Names.

(** The characters of a decimal numeral are digits. *)
Lemma string_of_uint_digits d c :
  In c (list_ascii_of_string (NilEmpty.string_of_uint d)) ->
  (48 <= nat_of_ascii c <= 57)%nat.
Proof.
  induction d; simpl; try tauto; (intros [<-|H]; [split; apply Nat.leb_le; reflexivity | auto]).
Qed.

Lemma Z_to_string_digits z c :
  0 <= z -> In c (list_ascii_of_string (Z_to_string z)) ->
  (48 <= nat_of_ascii c <= 57)%nat.
Proof.
  destruct z as [|p|p]; [| |lia]; intros _.
  - simpl. intros [<-|[]]. split; apply Nat.leb_le; reflexivity.
  - unfold Z_to_string, NilZero.string_of_uint.
    pose proof (string_of_uint_digits (Pos.to_uint p) c) as D.
    destruct (Pos.to_uint p); try exact D. simpl. intros [<-|[]]. split; apply Nat.leb_le; reflexivity.
Qed.

Lemma trim_end_id s :
  (forall c, In c (list_ascii_of_string s) -> is_space c = false) -> trim_end s = s.
Proof.
  induction s as [|c r IH]; simpl; [reflexivity|]. intros H.
  rewrite IH by auto. rewrite (H c) by auto. by destruct r.
Qed.

Lemma digit_not_space c : (48 <= nat_of_ascii c <= 57)%nat -> is_space c = false.
Proof.
  intros H. unfold is_space. cbv zeta.
  apply orb_false_iff. split.
  - apply andb_false_iff. right. apply Nat.leb_gt. lia.
  - apply Nat.eqb_neq. lia.
Qed.

Lemma trim_digits d :
  d <> Decimal.Nil -> trim (NilEmpty.string_of_uint d) = NilEmpty.string_of_uint d.
Proof.
  intros N. unfold trim.
  assert (S : trim_start (NilEmpty.string_of_uint d) = NilEmpty.string_of_uint d)
    by (destruct d; reflexivity).
  rewrite S. apply trim_end_id. intros c Hc.
  apply digit_not_space, (string_of_uint_digits d c Hc).
Qed.

Lemma non_decimal_digits d : non_decimal_literal (NilEmpty.string_of_uint d) = None.
Proof.
  destruct d as [|d|d|d|d|d|d|d|d|d|d]; try reflexivity.
  destruct d as [|d|d|d|d|d|d|d|d|d|d]; try reflexivity;
    destruct d; reflexivity.
Qed.

Lemma take_literal_digits p :
  take_literal (NilEmpty.string_of_uint (Pos.to_uint p)) = Some (of_Z (Zpos p), EmptyString).
Proof.
  pose proof (take_unsigned_literal_digits p) as L.
  pose proof (DecimalPos.Unsigned.to_uint_nonnil p) as N.
  unfold NilZero.string_of_uint in L. unfold take_literal.
  destruct (Pos.to_uint p) as [|d|d|d|d|d|d|d|d|d|d]; [congruence|..];
    cbn [NilEmpty.string_of_uint] in *; exact L.
Qed.

Lemma ToNumber_literal s x :
  s <> EmptyString -> trim s = s -> non_decimal_literal s = None ->
  take_literal s = Some (x, EmptyString) -> ToNumber s = x.
Proof.
  intros N T D L. unfold ToNumber. rewrite T.
  destruct s; [congruence|]. by rewrite D, L.
Qed.

Lemma NilZero_NilEmpty d :
  d <> Decimal.Nil -> NilZero.string_of_uint d = NilEmpty.string_of_uint d.
Proof. by destruct d. Qed.

Lemma string_of_uint_nonempty d :
  d <> Decimal.Nil -> NilEmpty.string_of_uint d <> EmptyString.
Proof. by destruct d. Qed.

(** The text of an integer converts back to the integer. *)
Lemma ToNumber_Z_to_string z : ToNumber (Z_to_string z) = of_Z z.
Proof.
  destruct z as [|p|p]; [reflexivity| |];
    pose proof (DecimalPos.Unsigned.to_uint_nonnil p) as N;
    unfold Z_to_string; rewrite (NilZero_NilEmpty _ N).
  - apply ToNumber_literal.
    + by apply string_of_uint_nonempty.
    + by apply trim_digits.
    + apply non_decimal_digits.
    + apply take_literal_digits.
  - pose proof (take_unsigned_literal_digits p) as L.
    rewrite (NilZero_NilEmpty _ N) in L.
    apply ToNumber_literal.
    + discriminate.
    + unfold trim. simpl trim_start. apply trim_end_id. intros c [<-|Hc].
      * reflexivity.
      * apply digit_not_space, (string_of_uint_digits _ c Hc).
    + reflexivity.
    + unfold take_literal. by rewrite L.
Qed.

Lemma num_eq_of_Z a b : num_eq (of_Z a) (of_Z b) = (a =? b).
Proof.
  unfold num_eq, of_Z. apply Bool.eq_true_iff_eq.
  rewrite Qeq_bool_iff, Z.eqb_eq. unfold Qeq, inject_Z. simpl. lia.
Qed.

Lemma find_same {A} (f g : A -> bool) (l : list A) :
  (forall x, f x = g x) -> List.find f l = List.find g l.
Proof.
  intros E. induction l as [|x l IH]; simpl; [reflexivity|].
  by rewrite E, IH.
Qed.

Lemma loose_eq_Z_to_string a b : loose_eq (of_Z a) (Z_to_string b) = (a =? b).
Proof. unfold loose_eq. by rewrite ToNumber_Z_to_string, num_eq_of_Z. Qed.

Lemma find_unique {A} (key : A -> Z) (l : list A) (x : A) :
  List.NoDup (map key l) -> In x l ->
  List.find (fun y => key y =? key x) l = Some x.
Proof.
  induction l as [|y l IH]; simpl; [tauto|]. intros N.
  apply NoDup_cons_iff in N. destruct N as [Ny N].
  destruct (key y =? key x) eqn:E.
  - apply Z.eqb_eq in E. intros [->|H]; [reflexivity|].
    exfalso. apply Ny. rewrite E. by apply in_map.
  - apply Z.eqb_neq in E. intros [->|H]; [contradiction | by apply IH].
Qed.

End Names.

(** X12.  When the ids of the violation types and of the areas are
    distinct, a registration whose type and area controls hold the values
    of the options of a type [t] and of an area [a] stores the name of [t]
    and the name and city of [a] in the new record. *)
Theorem registration_stores_names (st : state) (t : ViolationType.t) (a : Area.t) :
  List.NoDup (map ViolationType.type_id (violationTypes st)) ->
  List.NoDup (map Area.area_id (areas st)) ->
  In t (violationTypes st) ->
  In a (areas st) ->
  getValue st "violationType" = Z_to_string (ViolationType.type_id t) ->
  getValue st "area" = Z_to_string (Area.area_id a) ->
  type_name (newViolation st (readForm st)) = ViolationType.type_name t
  /\ area_name (newViolation st (readForm st))
     = Area.area_name a +:+ ", " +:+ Area.city a.
Proof.
  intros Nt Na Ht Ha Et Ea.
  cbn [newViolation readForm type_name area_name FormData.type_id FormData.area_id].
  rewrite Et, Ea.
  unfold getViolationTypeName, getAreaName. split.
  - rewrite (find_same _ (fun y => ViolationType.type_id y =? ViolationType.type_id t))
      by (intros y; apply loose_eq_Z_to_string).
    by rewrite (find_unique ViolationType.type_id _ t Nt Ht).
  - rewrite (find_same _ (fun y => Area.area_id y =? Area.area_id a))
      by (intros y; apply loose_eq_Z_to_string).
    by rewrite (find_unique Area.area_id _ a Na Ha).
Qed.

Lemma registration_stores_names_example :
  type_name (newViolation pickedForm (readForm pickedForm)) = "DUI"
  /\ area_name (newViolation pickedForm (readForm pickedForm)) = "Connaught Place, Delhi".
Proof.
  apply (registration_stores_names pickedForm
           {| ViolationType.type_id := 5; ViolationType.type_name := "DUI";
              ViolationType.base_fine := 5000 |}
           {| Area.area_id := 2; Area.area_name := "Connaught Place";
              Area.city := "Delhi" |}).
  - vm_compute. repeat (constructor; [simpl; intuition discriminate|]). constructor.
  - vm_compute. repeat (constructor; [simpl; intuition discriminate|]). constructor.
  - vm_compute. auto 10.
  - vm_compute. auto 10.
  - vm_compute. reflexivity.
  - vm_compute. reflexivity.
Defined.

(** ** The keys of the chart by area *)

Section AreaKeys.

Lemma comma_in_area_name a c :
  existsb (Ascii.eqb ",") (list_ascii_of_string (a +:+ ", " +:+ c)) = true.
Proof.
  induction a as [|x a IH]; simpl; [reflexivity|].
  rewrite IH. apply orb_true_r.
Qed.

Lemma inherited_no_comma k :
  inherited k = true -> existsb (Ascii.eqb ",") (list_ascii_of_string k) = false.
Proof.
  unfold inherited. intros H. apply existsb_exists in H.
  destruct H as (m & Hm & E). apply String.eqb_eq in E. subst k.
  simpl in Hm.
  repeat (destruct Hm as [<-|Hm]; [reflexivity|]). contradiction.
Qed.

Lemma index_no_comma k :
  Spec.isIndex k = true -> existsb (Ascii.eqb ",") (list_ascii_of_string k) = false.
Proof.
  unfold Spec.isIndex, array_index.
  destruct (take_digits k) as [d rest]. cbv zeta.
  destruct (negb (truthy_string rest)); [|discriminate].
  destruct (String.eqb (Z_to_string (uint_value d)) k) eqn:E; [|discriminate].
  intros _. apply String.eqb_eq in E. subst k.
  apply not_true_is_false. intros H. apply existsb_exists in H.
  destruct H as (c & Hc & E). apply Ascii.eqb_eq in E. subst c.
  apply Z_to_string_digits in Hc.
  - destruct Hc as [Hc _]. apply Nat.leb_le in Hc. discriminate.
  - unfold uint_value. lia.
Qed.

Lemma getAreaName_ordinary st areaId :
  inherited (getAreaName st areaId) = false
  /\ Spec.isIndex (getAreaName st areaId) = false.
Proof.
  unfold getAreaName. destruct (List.find _ _) as [a|].
  - pose proof (comma_in_area_name (Area.area_name a) (Area.city a)) as C.
    split; apply not_true_is_false; intros H.
    + apply inherited_no_comma in H. congruence.
    + apply index_no_comma in H. congruence.
  - split; reflexivity.
Qed.

Lemma sameOrPaid_area (Q : string -> Prop) us vs :
  Forall2 sameOrPaid us vs ->
  Forall (fun v => Q (area_name v)) us -> Forall (fun v => Q (area_name v)) vs.
Proof.
  induction 1 as [|u v us vs Huv P IHP]; intros H; [constructor|].
  inversion H as [|? ? Hu Hus]; subst. constructor; [|by apply IHP].
  destruct Huv as [->| ->]; exact Hu.
Qed.

End AreaKeys.

(** X13.  The chart by area meets no key that is an array index or the
    name of a member of [Object.prototype] unless it did at the start: when
    the area names of the records are ordinary keys, they remain so after
    any sequence of events, because a registration stores a name given by
    [getAreaName], which is [Unknown] or the name and the city of an area
    joined by a comma. *)
Theorem area_keys_stay_ordinary (events : list event) (st : state) :
  Forall (fun v => inherited (area_name v) = false
                   /\ Spec.isIndex (area_name v) = false) (violations st) ->
  Forall (fun v => inherited (area_name v) = false
                   /\ Spec.isIndex (area_name v) = false)
         (violations (run events st)).
Proof.
  revert st. induction events as [|e events IH]; intros st H; simpl; [exact H|].
  apply IH.
  destruct (handle_cases e st) as [E | [E | [violationId E]]]; rewrite E.
  - exact H.
  - constructor; [|exact H]. apply getAreaName_ordinary.
  - exact (sameOrPaid_area
             (fun k => inherited k = false /\ Spec.isIndex k = false) _ _
             (payFirst_sameOrPaid violationId (violations st)) H).
Qed.

Lemma area_keys_stay_ordinary_example :
  Forall (fun v => inherited (area_name v) = false
                   /\ Spec.isIndex (area_name v) = false)
         (violations (run [Submit; MarkPaid 2 true; Submit] filledForm)).
Proof.
  apply area_keys_stay_ordinary.
  let l := eval vm_compute in (violations filledForm) in
  change (violations filledForm) with l.
  repeat (constructor; [split; vm_compute; reflexivity|]). constructor.
Defined.

(** ** Searching the table *)

Section Search.

Lemma append_cons c a b : String c a +:+ b = String c (a +:+ b).
Proof. reflexivity. Qed.

Lemma prefix_append t s : String.prefix t s = true <-> exists b, s = t +:+ b.
Proof.
  revert s. induction t as [|c t IH]; intros s.
  - split; [intros _; by exists s | intros _; by destruct s].
  - destruct s as [|d s]; simpl.
    + split; [discriminate | intros (b & E); discriminate].
    + destruct (ascii_dec c d) as [->|N].
      * rewrite IH. split; intros (b & E); exists b;
          rewrite append_cons in *; congruence.
      * split; [discriminate | intros (b & E); rewrite append_cons in E; congruence].
Qed.

Lemma includes_unfold s t :
  includes s t
  = String.prefix t s
    || match s with EmptyString => false | String _ r => includes r t end.
Proof. by destruct s. Qed.

(** [s.includes(t)]: [t] is a fragment of [s]. *)
Lemma includes_fragment s t :
  includes s t = true <-> exists a b, s = a +:+ t +:+ b.
Proof.
  induction s as [|c s IH]; rewrite includes_unfold, orb_true_iff, prefix_append.
  - split.
    + intros [(b & E)|H]; [by exists EmptyString, b | discriminate].
    + intros (a & b & E). left. destruct a; [by exists b | discriminate].
  - rewrite IH. split.
    + intros [(b & E)|(a & b & E)]; [by exists EmptyString, b|].
      exists (String c a), b. rewrite append_cons. congruence.
    + intros (a & b & E). destruct a as [|d a]; [left; by exists b|].
      right. exists a, b. rewrite append_cons in E. congruence.
Qed.

Lemma toLowerCase_append a b :
  toLowerCase (a +:+ b) = toLowerCase a +:+ toLowerCase b.
Proof.
  induction a as [|c a IH]; [reflexivity|].
  rewrite append_cons. simpl. by rewrite IH, append_cons.
Qed.

Lemma includes_empty s : includes s EmptyString = true.
Proof. apply includes_fragment. by exists EmptyString, s. Qed.

(** The early return for an empty term shows what the filter would. *)
Lemma searchViolations_rows st :
  tableRows (searchViolations st)
  = match document st !! "violationsTableBody" with
    | Some _ =>
        map (violationRow st)
            (List.filter (matchesSearch (toLowerCase (getValue st "searchInput")))
                         (violations st))
    | None => []
    end.
Proof.
  unfold searchViolations. cbv zeta.
  destruct (toLowerCase (getValue st "searchInput")) as [|c term] eqn:E.
  - cbn [truthy_string negb]. rewrite loadViolationsTable_rows.
    destruct (document st !! "violationsTableBody"); [|reflexivity].
    f_equal. induction (violations st) as [|v vs IH]; [reflexivity|].
    cbn [List.filter]. unfold matchesSearch at 1.
    rewrite includes_empty. cbn [orb]. by rewrite <- IH.
  - cbn [truthy_string negb]. unfold tableRows. rewrite document_update_eq.
    by destruct (document st !! "violationsTableBody").
Qed.

End Search.

(** X14.  When the table body exists, [searchViolations] shows exactly the
    rows of the records whose vehicle number, or whose non-empty owner
    name, taken in lower case, has the search text in lower case as a
    fragment; an empty search text is a fragment of every vehicle number,
    so that it shows every record. *)
Theorem search_shows_matches (st : state) (row : list cell) :
  document st !! "violationsTableBody" <> None ->
  let searchTerm := toLowerCase (getValue st "searchInput") in
  In row (tableRows (searchViolations st))
  <-> exists v,
        In v (violations st) /\ row = violationRow st v
        /\ ((exists a b, toLowerCase (vehicle_number v) = a +:+ searchTerm +:+ b)
            \/ (owner_name v <> EmptyString
                /\ exists a b, toLowerCase (owner_name v) = a +:+ searchTerm +:+ b)).
Proof.
  intros P searchTerm. rewrite searchViolations_rows.
  destruct (document st !! "violationsTableBody"); [clear P | congruence].
  fold searchTerm. rewrite in_map_iff.
  assert (M : forall v, matchesSearch searchTerm v = true
              <-> (exists a b, toLowerCase (vehicle_number v) = a +:+ searchTerm +:+ b)
                  \/ (owner_name v <> EmptyString
                      /\ exists a b, toLowerCase (owner_name v) = a +:+ searchTerm +:+ b)).
  { intros v. unfold matchesSearch.
    rewrite orb_true_iff, andb_true_iff, !includes_fragment.
    assert (T : truthy_string (owner_name v) = true <-> owner_name v <> EmptyString)
      by (destruct (owner_name v); simpl; split; congruence).
    rewrite T. reflexivity. }
  split.
  - intros (v & E & H). apply filter_In in H. destruct H as [H F].
    exists v. split; [exact H|]. split; [by symmetry|]. by apply M.
  - intros (v & H & E & F). exists v. split; [by symmetry|].
    apply filter_In. split; [exact H|]. by apply M.
Qed.

Lemma search_shows_matches_example :
  In (violationRow (searchPage "Jane")
        {| violation_id := 2; vehicle_number := "DL02CD5678"; owner_name := "Jane Smith";
           type_name := "Red Light Violation"; area_name := "Connaught Place";
           violation_date := "2025-01-14 14:45"; fine_amount := of_Z 1000;
           status := "unpaid" |})
     (tableRows (searchViolations (searchPage "Jane"))).
Proof.
  apply (search_shows_matches (searchPage "Jane")); [by vm_compute|].
  eexists. split; [|split; [reflexivity|]].
  - vm_compute. auto.
  - right. split; [discriminate|]. exists EmptyString, " smith".
    vm_compute. reflexivity.
Defined.

(** X15.  A record whose vehicle number is an ASCII text is found by any
    fragment of that number, typed in any mixture of upper and lower case:
    when the search text, an ASCII text as well, and the fragment are the
    same in lower case, the row of the record is shown. *)
Theorem search_ignores_case (st : state) (v : Violation) (a w b : string) :
  document st !! "violationsTableBody" <> None ->
  In v (violations st) ->
  vehicle_number v = a +:+ w +:+ b ->
  ascii_text (vehicle_number v) = true ->
  ascii_text (getValue st "searchInput") = true ->
  toLowerCase (getValue st "searchInput") = toLowerCase w ->
  In (violationRow st v) (tableRows (searchViolations st)).
Proof.
  intros P H E _ _ L. rewrite searchViolations_rows.
  destruct (document st !! "violationsTableBody"); [clear P | congruence].
  apply in_map, filter_In. split; [exact H|].
  unfold matchesSearch. apply orb_true_iff. left. apply includes_fragment.
  exists (toLowerCase a), (toLowerCase b).
  by rewrite L, E, !toLowerCase_append.
Qed.

Lemma search_ignores_case_example :
  In (violationRow (searchPage "02cD")
        {| violation_id := 2; vehicle_number := "DL02CD5678"; owner_name := "Jane Smith";
           type_name := "Red Light Violation"; area_name := "Connaught Place";
           violation_date := "2025-01-14 14:45"; fine_amount := of_Z 1000;
           status := "unpaid" |})
     (tableRows (searchViolations (searchPage "02cD"))).
Proof.
  apply (search_ignores_case (searchPage "02cD") _ "DL" "02CD" "5678").
  - by vm_compute.
  - vm_compute. auto.
  - reflexivity.
  - reflexivity.
  - vm_compute. reflexivity.
  - vm_compute. reflexivity.
Defined.

(** ** The figures of the analytics tab *)

Section Figures.

Lemma filter_keeps_all {A} (f : A -> bool) l : Forall (fun x => f x = true) l -> List.filter f l = l.
Proof. induction 1 as [|x l Hx _ IH]; simpl; [reflexivity | by rewrite Hx, IH]. Qed.

Lemma filter_drops_all {A} (f : A -> bool) l : Forall (fun x => f x = false) l -> List.filter f l = [].
Proof. induction 1 as [|x l Hx _ IH]; simpl; [reflexivity | by rewrite Hx]. Qed.

Lemma total_positive vs :
  is_finite (total vs) = true -> gt (total vs) (of_Z 0) = true ->
  exists q, total vs = Fin q /\ (0 < q)%Q.
Proof.
  intros F G. destruct (total vs) as [| |q]; try discriminate.
  exists q. split; [reflexivity|].
  unfold gt, of_Z in G. apply negb_true_iff in G. apply Qnot_le_lt. intros L.
  apply Qle_bool_iff in L. change (inject_Z 0) with 0%Q in G. congruence.
Qed.

Lemma Qzero_positive q : (0 < q)%Q -> Qzero q = false.
Proof. unfold Qlt, Qzero. simpl. intros H. apply Z.eqb_neq. lia. Qed.

(** A finite number other than zero divided by itself is one. *)
Lemma div_same q : (0 < q)%Q -> div (Fin q) (Fin q) = Fin 1.
Proof.
  intros Q. unfold div. rewrite (Qzero_positive q Q).
  rewrite (to_binary64_Qeq _ 1); [reflexivity|].
  field. intros N. rewrite N in Q. discriminate.
Qed.

Lemma div_zero q : (0 < q)%Q -> div (of_Z 0) (Fin q) = Fin 0.
Proof.
  intros Q. unfold div, of_Z. rewrite (Qzero_positive q Q).
  rewrite (to_binary64_Qeq _ 0); [reflexivity|].
  field. intros N. rewrite N in Q. discriminate.
Qed.

End Figures.

(** X16.  When the sum of the fines is a finite number above zero (no
    overflow, no fine that is not a number), the collection rate reads
    100.0 when every record is paid and 0.0 when none is. *)
Theorem collection_rate_extremes (vs : list Violation) :
  is_finite (total vs) = true ->
  gt (total vs) (of_Z 0) = true ->
  (Forall (fun v => status v = "paid") vs -> collectionRate vs = Digits "100.0")
  /\ (Forall (fun v => status v <> "paid") vs -> collectionRate vs = Digits "0.0").
Proof.
  intros F G. destruct (total_positive vs F G) as (q & E & Q).
  unfold collectionRate. rewrite G. split; intros H.
  - unfold collected. rewrite filter_keeps_all.
    + fold (total vs). rewrite E, (div_same q Q). reflexivity.
    + eapply List.Forall_impl; [|exact H]. intros v S. unfold has_status.
      by apply String.eqb_eq.
  - unfold collected. rewrite filter_drops_all.
    + rewrite E. change (sum_fines []) with (of_Z 0). rewrite (div_zero q Q).
      reflexivity.
    + eapply List.Forall_impl; [|exact H]. intros v S. unfold has_status.
      by apply String.eqb_neq.
Qed.

Lemma collection_rate_extremes_example :
  collectionRate (List.filter (has_status "paid") (violations dashboardPage))
  = Digits "100.0".
Proof.
  apply (collection_rate_extremes
           (List.filter (has_status "paid") (violations dashboardPage))).
  - reflexivity.
  - reflexivity.
  - vm_compute. repeat constructor.
Defined.

(** X17.  A registration whose fine input does not read as a number
    (an empty one, for instance) is accepted, and from then on the total
    and the pending amount are NaN, the collection rate is the literal 0
    and the average fine prints as NaN, whatever the other records are. *)
Theorem registration_without_fine (st : state) :
  Spec.missingFields (readForm st) = [] ->
  parseFloat (getValue st "fineAmount") = NaN ->
  let vs := violations (registerViolation st) in
  total vs = NaN
  /\ pending vs = NaN
  /\ collected vs = collected (violations st)
  /\ collectionRate vs = Zero
  /\ avgFine vs = Digits "NaN".
Proof.
  intros M P vs. unfold vs. rewrite (registerViolation_valid st M).
  set (v := newViolation st (readForm st)).
  assert (T : total (v :: violations st) = NaN).
  { unfold total, sum_fines, v. cbn [fold_left].
    cbn [newViolation fine_amount readForm FormData.fine_amount].
    rewrite P. apply fold_add_NaN. }
  split; [|split; [|split; [|split]]].
  - exact T.
  - unfold pending. by rewrite T.
  - reflexivity.
  - unfold collectionRate. by rewrite T.
  - unfold avgFine. by rewrite T.
Qed.

Lemma registration_without_fine_example :
  let vs := violations (registerViolation (typed "fineAmount" EmptyString filledForm)) in
  total vs = NaN
  /\ pending vs = NaN
  /\ collected vs = collected (violations (typed "fineAmount" EmptyString filledForm))
  /\ collectionRate vs = Zero
  /\ avgFine vs = Digits "NaN".
Proof.
  apply (registration_without_fine (typed "fineAmount" EmptyString filledForm));
    vm_compute; reflexivity.
Defined.

(** ** Back to the first option of the type drop-down *)

Section Placeholder.

(** The first option has no value and no fine. *)
Lemma changeViolationType_first st :
  changeViolationType 0 st = update "violationType" (with_value EmptyString) st.
Proof.
  unfold changeViolationType, violationTypeOptions. cbn [lookup list_lookup].
  destruct (document st !! "violationType") as [e|] eqn:E.
  - cbn [dataset_fine option_value]. by destruct (document _ !! "fineAmount").
  - symmetry. by apply update_absent.
Qed.

End Placeholder.

(** X18.  After a violation type was picked, going back to the first
    option of the drop-down empties the type but leaves the base fine of
    that type in the fine input; a submit in that state adds no record. *)
Theorem placeholder_keeps_fine (st : state) (i : nat) (t : ViolationType.t) :
  is_Some (document st !! "violationType") ->
  is_Some (document st !! "fineAmount") ->
  violationTypes st !! i = Some t ->
  let st' := changeViolationType 0 (changeViolationType (S i) st) in
  getValue st' "violationType" = EmptyString
  /\ getValue st' "fineAmount" = Z_to_string (ViolationType.base_fine t)
  /\ violations (registerViolation st') = violations st.
Proof.
  intros Hsel Hinp Ht st'.
  destruct (changeViolationType_fills st i t Hsel Hinp Ht) as [Ev Ef].
  assert (P : is_Some (document (changeViolationType (S i) st) !! "violationType")).
  { unfold getValue in Ev.
    destruct (document (changeViolationType (S i) st) !! "violationType"); [by eexists|].
    pose proof (Z_to_string_truthy (ViolationType.type_id t)) as T.
    rewrite <- Ev in T. discriminate. }
  destruct P as [e He].
  assert (V : getValue st' "violationType" = EmptyString).
  { unfold st'. rewrite changeViolationType_first, getValue_update_eq, He.
    reflexivity. }
  split; [exact V|]. split.
  - unfold st'. rewrite changeViolationType_first.
    rewrite getValue_update_ne by reflexivity. exact Ef.
  - destruct (Spec.missingFields (readForm st')) as [|field rest] eqn:M.
    + apply missingFields_nil in M. cbn [readForm FormData.type_id] in M.
      rewrite V in M. destruct M as (_ & M & _). discriminate.
    + unfold registerViolation.
      rewrite (validateViolationForm_false _ st' _ _ M). cbn [negb].
      rewrite violations_showAlert. unfold st'.
      by rewrite !violations_changeViolationType.
Qed.

Lemma placeholder_keeps_fine_example :
  let st' := changeViolationType 0 (changeViolationType 5 dashboardPage) in
  getValue st' "violationType" = EmptyString
  /\ getValue st' "fineAmount" = "5000"
  /\ violations (registerViolation st') = violations dashboardPage.
Proof.
  apply (placeholder_keeps_fine dashboardPage 4
           {| ViolationType.type_id := 5; ViolationType.type_name := "DUI";
              ViolationType.base_fine := 5000 |}).
  - vm_compute. eexists. reflexivity.
  - vm_compute. eexists. reflexivity.
  - reflexivity.
Defined.

(** ** The session *)

(** X19.  [checkAuthentication] hands a stored text to [JSON.parse] only
    when that text is the non-empty item [user] of the session storage,
    on a page that it does not redirect and whose path does not contain
    [login]; [isAuthenticated] then holds as well. *)
Theorem user_loaded_only_from_session (b : browser) (u : string) :
  snd (checkAuthentication b) = Some u ->
  sessionStorage b !! "user" = Some u
  /\ u <> EmptyString
  /\ isAuthenticated b = true
  /\ fst (checkAuthentication b) = b
  /\ ~ (exists a c, pathname b = a +:+ "login" +:+ c).
Proof.
  unfold checkAuthentication, isAuthenticated. cbv zeta.
  destruct (sessionStorage b !! "user") as [s|]; cbn [truthy_item].
  - destruct (truthy_string s) eqn:T; cbn [negb]; rewrite ?andb_false_r, ?andb_true_r.
    + destruct (includes (pathname b) "login") eqn:L; cbn [fst snd]; [discriminate|].
      intros [= <-]. repeat split; try reflexivity.
      * intros ->. discriminate.
      * intros F. apply includes_fragment in F. congruence.
    + destruct (includes (pathname b) "dashboard"); discriminate.
  - cbn [negb]. rewrite andb_false_r, andb_true_r.
    destruct (includes (pathname b) "dashboard"); discriminate.
Qed.

Lemma user_loaded_only_from_session_example :
  let b := {| sessionStorage := {[ "user" := "{}" ]};
              pathname := "/dashboard.html"; href := None |} in
  sessionStorage b !! "user" = Some "{}"
  /\ "{}" <> EmptyString
  /\ isAuthenticated b = true
  /\ fst (checkAuthentication b) = b
  /\ ~ (exists a c, pathname b = a +:+ "login" +:+ c).
Proof.
  apply (user_loaded_only_from_session
           {| sessionStorage := {[ "user" := "{}" ]};
              pathname := "/dashboard.html"; href := None |} "{}").
  vm_compute. reflexivity.
Defined.

(** X20.  A confirmed logout ends the session: the storage is empty, so
    that [isAuthenticated] is false, and [checkAuthentication] run after
    it loads no user and leaves the browser on its way to [login.html],
    whatever the page is; a cancelled logout changes nothing. *)
Theorem logout_ends_session (b : browser) :
  isAuthenticated (logout true b) = false
  /\ snd (checkAuthentication (logout true b)) = None
  /\ href (fst (checkAuthentication (logout true b))) = Some "login.html"
  /\ logout false b = b.
Proof.
  unfold logout, checkAuthentication, isAuthenticated, navigate. cbv zeta.
  cbn [sessionStorage pathname]. rewrite lookup_empty. cbn [truthy_item negb].
  rewrite andb_true_r, andb_false_r.
  destruct (includes (pathname b) "dashboard"); repeat split.
Qed.

(** ** Capital first letter *)

Section Capital.

Lemma upper_char_twice c : upper_char (upper_char c) = upper_char c.
Proof. destruct c as [[] [] [] [] [] [] [] []]; vm_compute; reflexivity. Qed.

Lemma lower_upper_char c : lower_char (upper_char c) = lower_char c.
Proof. destruct c as [[] [] [] [] [] [] [] []]; vm_compute; reflexivity. Qed.

End Capital.

(** X21.  [capitalizeFirst] changes at most the case of the first
    character: the result has the length of the text and is the same text
    in lower case, and capitalising it again changes nothing. *)
Theorem capitalizeFirst_changes_case_only (s : string) :
  String.length (capitalizeFirst s) = String.length s
  /\ toLowerCase (capitalizeFirst s) = toLowerCase s
  /\ capitalizeFirst (capitalizeFirst s) = capitalizeFirst s.
Proof.
  destruct s as [|c r]; [by repeat split|]. cbn [capitalizeFirst].
  split; [reflexivity|]. split.
  - cbn [toLowerCase]. by rewrite lower_upper_char.
  - by rewrite upper_char_twice.
Qed.

(** ** Finding a record again *)

Section FindAgain.

Lemma toLowerCase_toUpperCase s : toLowerCase (toUpperCase s) = toLowerCase s.
Proof.
  induction s as [|c s IH]; [reflexivity|].
  cbn [toUpperCase toLowerCase]. by rewrite lower_upper_char, IH.
Qed.

Lemma append_empty_r s : s +:+ EmptyString = s.
Proof. induction s as [|c s IH]; [reflexivity|]. by rewrite append_cons, IH. Qed.

Lemma includes_itself s : includes s s = true.
Proof.
  apply includes_fragment. exists EmptyString, EmptyString.
  by rewrite append_empty_r.
Qed.

End FindAgain.

(** X22.  A record that was registered is found again by the vehicle
    number as it was typed into the form, an ASCII text, in whatever case
    of its letters: on a later page with the same records, a search for an
    ASCII text that is the typed number up to case shows the row of the
    new record. *)
Theorem registered_record_is_found (st st' : state) :
  Spec.missingFields (readForm st) = [] ->
  violations st' = violations (registerViolation st) ->
  document st' !! "violationsTableBody" <> None ->
  ascii_text (getValue st "vehicleNumber") = true ->
  ascii_text (getValue st' "searchInput") = true ->
  toLowerCase (getValue st' "searchInput") = toLowerCase (getValue st "vehicleNumber") ->
  In (violationRow st' (newViolation st (readForm st)))
     (tableRows (searchViolations st')).
Proof.
  intros M V P _ _ L. rewrite searchViolations_rows.
  destruct (document st' !! "violationsTableBody"); [clear P | congruence].
  apply in_map, filter_In. split.
  - rewrite V, (registerViolation_valid st M). by left.
  - unfold matchesSearch. apply orb_true_iff. left.
    cbn [newViolation vehicle_number readForm FormData.vehicle_number].
    rewrite toLowerCase_toUpperCase, L. apply includes_itself.
Qed.

Lemma registered_record_is_found_example :
  In (violationRow
        (with_violations (violations (registerViolation filledForm))
                         (searchPage "Ka05xy0001"))
        (newViolation filledForm (readForm filledForm)))
     (tableRows
        (searchViolations
           (with_violations (violations (registerViolation filledForm))
                            (searchPage "Ka05xy0001")))).
Proof.
  apply (registered_record_is_found filledForm
           (with_violations (violations (registerViolation filledForm))
                            (searchPage "Ka05xy0001"))).
  - vm_compute. reflexivity.
  - vm_compute. reflexivity.
  - by vm_compute.
  - vm_compute. reflexivity.
  - vm_compute. reflexivity.
  - vm_compute. reflexivity.
Defined.
